(** * Object tracker of hector_worldmodel: a shallow embedding

    The development follows
    [hector_worldmodel/object_tracker/src/object_tracker.cpp]: the callbacks
    [sysCommandCb], [imagePerceptCb], [posePerceptCb], [setObjectStateCb],
    [addObjectCb] and the helpers [mapToNextObstacle], [transformPose] and
    [publishModel] are written as functions from the state of the tracker to
    its next state and the list of the messages it published.

    Scalars.  The C++ code computes with [float] and [double].  They are the
    formats binary32 and binary64 of IEEE 754, with the operations of the
    specification of floating-point arithmetic of the Standard Library
    ([SpecFloat]): every operation rounds to nearest, ties to even,
    overflows to an infinity, and zero is signed.  A NaN carries no payload.
    Each C++ expression is evaluated in the format of its type, operation by
    operation and in its order, a [float] operand of a [double] operation
    being promoted first; no operations are fused.

    Pointers.  An [ObjectPtr] into the model is the place of the object in
    the list of the objects; a setter called through it rewrites the object
    at that place.

    Collaborators.  The services, tf and the clock are given to a callback as
    the answers they return while it runs.  The mutex of the model is not
    modelled: one callback runs at a time. *)

From Stdlib Require Import ZArith QArith Qcanon Field Lia SpecFloat.
From stdpp Require Import gmap strings list fin_maps.

(** ** Scalars *)

(** A binary format: the number of bits of the mantissa, the implicit one
    included, and the exponent of the infinities. *)
Record format : Type := { prec : Z; emax : Z }.

Definition binary32 : format := {| prec := 24; emax := 128 |}.
Definition binary64 : format := {| prec := 53; emax := 1024 |}.

(** A number of a format. *)
Inductive fp (f : format) : Type := FP (x : spec_float).
Arguments FP {f} x.

Definition value {f : format} (a : fp f) : spec_float := let 'FP x := a in x.

Abbreviation float := (fp binary32).
Abbreviation double := (fp binary64).

Definition fneg {f : format} (a : fp f) : fp f := FP (SFopp (value a)).

Definition fadd {f : format} (a b : fp f) : fp f :=
  FP (SFadd (prec f) (emax f) (value a) (value b)).

Definition fsub {f : format} (a b : fp f) : fp f :=
  FP (SFsub (prec f) (emax f) (value a) (value b)).

Definition fmul {f : format} (a b : fp f) : fp f :=
  FP (SFmul (prec f) (emax f) (value a) (value b)).

Definition fdiv {f : format} (a b : fp f) : fp f :=
  FP (SFdiv (prec f) (emax f) (value a) (value b)).

(** [a < b]; every comparison with a NaN is false. *)
Definition flt {f : format} (a b : fp f) : bool := SFltb (value a) (value b).

(** [a > b] *)
Definition fgt {f : format} (a b : fp f) : bool := flt b a.

(** [a == b] *)
Definition feqb {f : format} (a b : fp f) : bool := SFeqb (value a) (value b).

(** [a <= b] *)
Definition fle {f : format} (a b : fp f) : bool := SFleb (value a) (value b).

(** [std::max(a, b)] is [(a < b) ? b : a]. *)
Definition fmax {f : format} (a b : fp f) : fp f := if flt a b then b else a.

(** [std::abs] *)
Definition fabs {f : format} (a : fp f) : fp f := FP (SFabs (value a)).

(** Neither an infinity nor a NaN. *)
Definition is_finite {f : format} (a : fp f) : bool :=
  match value a with
  | S754_zero _ | S754_finite _ _ _ => true
  | _ => false
  end.

Definition is_zero {f : format} (a : fp f) : bool :=
  match value a with S754_zero _ => true | _ => false end.

Definition fzero {f : format} : fp f := FP (S754_zero false).
Definition fone {f : format} : fp f := FP (SFone (prec f) (emax f)).
Definition fnan {f : format} : fp f := FP S754_nan.

(** An integer literal. *)
Definition of_Z {f : format} (n : Z) : fp f :=
  FP (binary_normalize (prec f) (emax f) n 0 false).

(** The conversion of a number to another format: a finite number is
    rounded, which the promotion of a [float] to [double] does exactly. *)
Definition fconv {f g : format} (a : fp f) : fp g :=
  match value a with
  | S754_finite s m e => FP (binary_round (prec g) (emax g) s m e)
  | x => FP x
  end.

Definition to_float (a : double) : float := fconv a.
Definition to_double (a : float) : double := fconv a.

(** ** The arithmetic a matrix is built on

    Eigen's and tf's vectors and matrices are templates over their scalar;
    the operations below are written once over [Arith] and used at [float]
    and [double] by the program, and at the rationals where a formula is
    compared with its meaning in exact arithmetic. *)

Class Arith (A : Type) : Type := {
  azero : A;
  aone : A;
  aadd : A -> A -> A;
  asub : A -> A -> A;
  amul : A -> A -> A;
  adiv : A -> A -> A
}.

#[export] Instance fp_arith {f : format} : Arith (fp f) :=
  {| azero := fzero; aone := fone; aadd := fadd; asub := fsub;
     amul := fmul; adiv := fdiv |}.

#[export] Instance Qc_arith : Arith Qc :=
  {| azero := 0%Qc; aone := 1%Qc; aadd := Qcplus; asub := Qcminus;
     amul := Qcmult; adiv := Qcdiv |}.

Declare Scope arith_scope.
Delimit Scope arith_scope with ar.
Infix "+" := aadd : arith_scope.
Infix "-" := asub : arith_scope.
Infix "*" := amul : arith_scope.
Infix "/" := adiv : arith_scope.

(** ** Vectors and 3x3 matrices *)

Record vec3 (A : Type) : Type := Vec3 { vx : A; vy : A; vz : A }.
Arguments Vec3 {A} _ _ _.
Arguments vx {A} _.
Arguments vy {A} _.
Arguments vz {A} _.

Record mat3 (A : Type) : Type := Mat3 {
  m00 : A; m01 : A; m02 : A;
  m10 : A; m11 : A; m12 : A;
  m20 : A; m21 : A; m22 : A
}.
Arguments Mat3 {A} _ _ _ _ _ _ _ _ _.
Arguments m00 {A} _.
Arguments m01 {A} _.
Arguments m02 {A} _.
Arguments m10 {A} _.
Arguments m11 {A} _.
Arguments m12 {A} _.
Arguments m20 {A} _.
Arguments m21 {A} _.
Arguments m22 {A} _.

Definition vec3_map {A B : Type} (f : A -> B) (v : vec3 A) : vec3 B :=
  Vec3 (f (vx v)) (f (vy v)) (f (vz v)).

Definition mat3_map {A B : Type} (f : A -> B) (m : mat3 A) : mat3 B :=
  Mat3 (f (m00 m)) (f (m01 m)) (f (m02 m))
       (f (m10 m)) (f (m11 m)) (f (m12 m))
       (f (m20 m)) (f (m21 m)) (f (m22 m)).

Definition vec3_all {A : Type} (f : A -> bool) (v : vec3 A) : bool :=
  f (vx v) && f (vy v) && f (vz v).

(** The coefficients of a matrix, column by column as Eigen stores them. *)
Definition mat3_all {A : Type} (f : A -> bool) (m : mat3 A) : bool :=
  f (m00 m) && f (m10 m) && f (m20 m) &&
  f (m01 m) && f (m11 m) && f (m21 m) &&
  f (m02 m) && f (m12 m) && f (m22 m).

Section LinearAlgebra.
Context {A : Type} `{Arith A}.
Local Open Scope arith_scope.

Definition vadd (u v : vec3 A) : vec3 A :=
  Vec3 (vx u + vx v) (vy u + vy v) (vz u + vz v).

Definition vsub (u v : vec3 A) : vec3 A :=
  Vec3 (vx u - vx v) (vy u - vy v) (vz u - vz v).

Definition vscale (v : vec3 A) (s : A) : vec3 A :=
  Vec3 (vx v * s) (vy v * s) (vz v * s).

(** [tf::Vector3::dot], and the coefficient of a product of two small
    matrices of Eigen: the products are added from the left. *)
Definition dot (u v : vec3 A) : A :=
  vx u * vx v + vy u * vy v + vz u * vz v.

(** Eigen's [sum()] of three coefficients: the reduction splits its range
    in halves, which adds the last two coefficients first. *)
Definition redux (v : vec3 A) : A := vx v + (vy v + vz v).

Definition cwiseProduct (u v : vec3 A) : vec3 A :=
  Vec3 (vx u * vx v) (vy u * vy v) (vz u * vz v).

(** Eigen's product of a row vector and a column vector,
    [lhs.transpose().cwiseProduct(rhs).sum()]. *)
Definition inner (u v : vec3 A) : A := redux (cwiseProduct u v).

Definition madd (a b : mat3 A) : mat3 A :=
  Mat3 (m00 a + m00 b) (m01 a + m01 b) (m02 a + m02 b)
       (m10 a + m10 b) (m11 a + m11 b) (m12 a + m12 b)
       (m20 a + m20 b) (m21 a + m21 b) (m22 a + m22 b).

Definition transpose (a : mat3 A) : mat3 A :=
  Mat3 (m00 a) (m10 a) (m20 a)
       (m01 a) (m11 a) (m21 a)
       (m02 a) (m12 a) (m22 a).

Definition identity : mat3 A :=
  Mat3 aone azero azero azero aone azero azero azero aone.

Definition row0 (a : mat3 A) : vec3 A := Vec3 (m00 a) (m01 a) (m02 a).
Definition row1 (a : mat3 A) : vec3 A := Vec3 (m10 a) (m11 a) (m12 a).
Definition row2 (a : mat3 A) : vec3 A := Vec3 (m20 a) (m21 a) (m22 a).
Definition col0 (a : mat3 A) : vec3 A := Vec3 (m00 a) (m10 a) (m20 a).
Definition col1 (a : mat3 A) : vec3 A := Vec3 (m01 a) (m11 a) (m21 a).
Definition col2 (a : mat3 A) : vec3 A := Vec3 (m02 a) (m12 a) (m22 a).

(** matrix * vector *)
Definition mvmul (a : mat3 A) (v : vec3 A) : vec3 A :=
  Vec3 (dot (row0 a) v) (dot (row1 a) v) (dot (row2 a) v).

(** row vector * matrix *)
Definition vmmul (v : vec3 A) (a : mat3 A) : vec3 A :=
  Vec3 (dot v (col0 a)) (dot v (col1 a)) (dot v (col2 a)).

Definition mmul (a b : mat3 A) : mat3 A :=
  Mat3 (dot (row0 a) (col0 b)) (dot (row0 a) (col1 b)) (dot (row0 a) (col2 b))
       (dot (row1 a) (col0 b)) (dot (row1 a) (col1 b)) (dot (row1 a) (col2 b))
       (dot (row2 a) (col0 b)) (dot (row2 a) (col1 b)) (dot (row2 a) (col2 b)).

(** Eigen's [cofactor_3x3<i,j>]: the minor over the rows [i+1], [i+2] and
    the columns [j+1], [j+2], indices taken modulo 3. *)
Definition cofactor00 (m : mat3 A) : A := m11 m * m22 m - m12 m * m21 m.
Definition cofactor10 (m : mat3 A) : A := m21 m * m02 m - m22 m * m01 m.
Definition cofactor20 (m : mat3 A) : A := m01 m * m12 m - m02 m * m11 m.
Definition cofactor01 (m : mat3 A) : A := m12 m * m20 m - m10 m * m22 m.
Definition cofactor11 (m : mat3 A) : A := m22 m * m00 m - m20 m * m02 m.
Definition cofactor21 (m : mat3 A) : A := m02 m * m10 m - m00 m * m12 m.
Definition cofactor02 (m : mat3 A) : A := m10 m * m21 m - m11 m * m20 m.
Definition cofactor12 (m : mat3 A) : A := m20 m * m01 m - m21 m * m00 m.
Definition cofactor22 (m : mat3 A) : A := m00 m * m11 m - m01 m * m10 m.

(** [cofactors_col0.cwiseProduct(matrix.col(0)).sum()] *)
Definition determinant (m : mat3 A) : A :=
  redux (cwiseProduct (Vec3 (cofactor00 m) (cofactor10 m) (cofactor20 m)) (col0 m)).

(** Eigen's [inverse()] of a fixed-size 3x3 matrix: the cofactors times
    [1 / det], with no test of the determinant. *)
Definition inverse (m : mat3 A) : mat3 A :=
  let invdet := aone / determinant m in
  Mat3 (cofactor00 m * invdet) (cofactor10 m * invdet) (cofactor20 m * invdet)
       (cofactor01 m * invdet) (cofactor11 m * invdet) (cofactor21 m * invdet)
       (cofactor02 m * invdet) (cofactor12 m * invdet) (cofactor22 m * invdet).

(** [m * rotation.transpose()] after [rotation * m] *)
Definition rotate_covariance (rotation m : mat3 A) : mat3 A :=
  mmul (mmul rotation m) (transpose rotation).
End LinearAlgebra.

(** ** Quaternions *)

Record quat (A : Type) : Type := Quat { qx : A; qy : A; qz : A; qw : A }.
Arguments Quat {A} _ _ _ _.
Arguments qx {A} _.
Arguments qy {A} _.
Arguments qz {A} _.
Arguments qw {A} _.

Definition quat_map {A B : Type} (f : A -> B) (q : quat A) : quat B :=
  Quat (f (qx q)) (f (qy q)) (f (qz q)) (f (qw q)).

(** [Eigen::Quaternion::toRotationMatrix] (also [matrix()]). *)
Definition toRotationMatrix {f : format} (q : quat (fp f)) : mat3 (fp f) :=
  let two := of_Z 2 in
  let tx := fmul two (qx q) in
  let ty := fmul two (qy q) in
  let tz := fmul two (qz q) in
  let twx := fmul tx (qw q) in
  let twy := fmul ty (qw q) in
  let twz := fmul tz (qw q) in
  let txx := fmul tx (qx q) in
  let txy := fmul ty (qx q) in
  let txz := fmul tz (qx q) in
  let tyy := fmul ty (qy q) in
  let tyz := fmul tz (qy q) in
  let tzz := fmul tz (qz q) in
  Mat3 (fsub fone (fadd tyy tzz)) (fsub txy twz) (fadd txz twy)
       (fadd txy twz) (fsub fone (fadd txx tzz)) (fsub tyz twx)
       (fsub txz twy) (fadd tyz twx) (fsub fone (fadd txx tyy)).

(** [tf::Matrix3x3::setRotation], the basis of a [tf::Transform] built from
    a quaternion. *)
Definition setRotation (q : quat double) : mat3 double :=
  let d := fadd (fadd (fadd (fmul (qx q) (qx q)) (fmul (qy q) (qy q)))
                      (fmul (qz q) (qz q))) (fmul (qw q) (qw q)) in
  let s := fdiv (of_Z 2) d in
  let xs := fmul (qx q) s in
  let ys := fmul (qy q) s in
  let zs := fmul (qz q) s in
  let wx := fmul (qw q) xs in
  let wy := fmul (qw q) ys in
  let wz := fmul (qw q) zs in
  let xx := fmul (qx q) xs in
  let xy := fmul (qx q) ys in
  let xz := fmul (qx q) zs in
  let yy := fmul (qy q) ys in
  let yz := fmul (qy q) zs in
  let zz := fmul (qz q) zs in
  Mat3 (fsub fone (fadd yy zz)) (fsub xy wz) (fadd xz wy)
       (fadd xy wz) (fsub fone (fadd xx zz)) (fsub yz wx)
       (fsub xz wy) (fadd yz wx) (fsub fone (fadd xx yy)).

(** ** Messages *)

Definition empty (s : string) : bool := String.eqb s "".

(** [ros::Time], in nanoseconds. *)
Definition Time : Type := Z.

Record Header : Type := { stamp : Time; frame_id : string }.

(** [geometry_msgs::Pose] *)
Record Pose : Type := { position : vec3 double; orientation : quat double }.

(** [geometry_msgs::PoseWithCovariance]: the covariance is the array of 36
    numbers of the message. *)
Record PoseWithCovariance : Type := {
  pose : Pose;
  covariance : list double
}.

(** [tf::Pose], a [tf::Transform]: a rotation basis and an origin. *)
Record Transform : Type := { basis : mat3 double; origin : vec3 double }.

(** [tf::poseMsgToTF] *)
Definition poseMsgToTF (p : Pose) : Transform :=
  {| basis := setRotation (orientation p); origin := position p |}.

(** [tf::Transform::operator*] *)
Definition transform_mul (t p : Transform) : Transform :=
  {| basis := mmul (basis t) (basis p);
     origin := vadd (mvmul (basis t) (origin p)) (origin t) |}.

(** [worldmodel_msgs::PerceptInfo]; the supports are [float32]. *)
Record PerceptInfo : Type := {
  class_id : string;
  class_support : float;
  object_id : string;
  object_support : float
}.

(** [worldmodel_msgs::PosePercept] *)
Record PosePercept : Type := {
  pp_header : Header;
  pp_info : PerceptInfo;
  pp_pose : PoseWithCovariance
}.

(** [sensor_msgs::CameraInfo], the calibration an image percept carries. *)
Record CameraInfo : Type := {
  ci_height : Z;
  ci_width : Z;
  ci_K : list double;
  ci_P : list double
}.

(** [worldmodel_msgs::ImagePercept]; the pixel region is [float32]. *)
Record ImagePercept : Type := {
  ip_header : Header;
  ip_info : PerceptInfo;
  camera_info : CameraInfo;
  ip_x : float;
  ip_y : float;
  ip_width : float;
  ip_height : float
}.

(** [image_geometry::PinholeCameraModel]: default-constructed it holds no
    calibration; [fromCameraInfo] stores the one it is given. *)
Record PinholeCameraModel : Type := { cam_info : option CameraInfo }.

Definition uninitialized_camera : PinholeCameraModel := {| cam_info := None |}.

Definition fromCameraInfo (m : PinholeCameraModel) (info : CameraInfo)
  : PinholeCameraModel :=
  {| cam_info := Some info |}.

(** The answers of a verification service, [worldmodel_msgs::VerifyObject]. *)
Inductive VerifyResponse : Type := UNKNOWN | CONFIRM | DISCARD.

(** ** Tracked objects

    The classes [Object] and [ObjectModel] live in other files of the
    package; the object, the store and their operations follow the data
    model of the specification. *)

(** Modelled from the spec: the class [Object] (a TrackedObject: identifier,
    class label, position, orientation, covariance, support, state and
    last-update header).  The callbacks read and write its position as an
    [Eigen::Vector3f], its covariance as an [Eigen::Matrix3f], its support
    as a [float] and its orientation as the quaternion of a message. *)
Record Object : Type := {
  o_object_id : string;
  o_class_id : string;
  o_position : vec3 float;
  o_orientation : quat double;
  o_covariance : mat3 float;
  o_support : float;
  o_state : Z;
  o_header : Header
}.

(** Modelled from the spec: [Object::setPosition], which overwrites the position. *)
Definition setPosition (p : vec3 float) (o : Object) : Object :=
  {| o_object_id := o_object_id o; o_class_id := o_class_id o;
     o_position := p; o_orientation := o_orientation o;
     o_covariance := o_covariance o; o_support := o_support o;
     o_state := o_state o; o_header := o_header o |}.

(** Modelled from the spec: [Object::setOrientation], which overwrites the orientation. *)
Definition setOrientation (q : quat double) (o : Object) : Object :=
  {| o_object_id := o_object_id o; o_class_id := o_class_id o;
     o_position := o_position o; o_orientation := q;
     o_covariance := o_covariance o; o_support := o_support o;
     o_state := o_state o; o_header := o_header o |}.

(** Modelled from the spec: [Object::setCovariance], which overwrites the covariance. *)
Definition setCovariance (c : mat3 float) (o : Object) : Object :=
  {| o_object_id := o_object_id o; o_class_id := o_class_id o;
     o_position := o_position o; o_orientation := o_orientation o;
     o_covariance := c; o_support := o_support o;
     o_state := o_state o; o_header := o_header o |}.

(** Modelled from the spec: [Object::setSupport], which overwrites the support. *)
Definition setSupport (s : float) (o : Object) : Object :=
  {| o_object_id := o_object_id o; o_class_id := o_class_id o;
     o_position := o_position o; o_orientation := o_orientation o;
     o_covariance := o_covariance o; o_support := s;
     o_state := o_state o; o_header := o_header o |}.

(** Modelled from the spec: [Object::addSupport]; the support accumulates
    additively. *)
Definition addSupport (s : float) (o : Object) : Object :=
  setSupport (fadd (o_support o) s) o.

(** Modelled from the spec: [Object::setState], which overwrites the state. *)
Definition setState (s : Z) (o : Object) : Object :=
  {| o_object_id := o_object_id o; o_class_id := o_class_id o;
     o_position := o_position o; o_orientation := o_orientation o;
     o_covariance := o_covariance o; o_support := o_support o;
     o_state := s; o_header := o_header o |}.

(** Modelled from the spec: [Object::setHeader], which overwrites the last-update header. *)
Definition setHeader (h : Header) (o : Object) : Object :=
  {| o_object_id := o_object_id o; o_class_id := o_class_id o;
     o_position := o_position o; o_orientation := o_orientation o;
     o_covariance := o_covariance o; o_support := o_support o;
     o_state := o_state o; o_header := h |}.

(** Entry [(r, c)] of the 6x6 matrix of [float] filled by
    [temp(i) = covariance[i]] from the 36 [double] of a message: Eigen stores
    a matrix column by column, and the assignment converts. *)
Definition covariance_entry (cov : list double) (r c : nat) : float :=
  to_float (nth (r + 6 * c) cov fzero).

(** [temp.block<3,3>(0,0)] *)
Definition position_block (cov : list double) : mat3 float :=
  Mat3 (covariance_entry cov 0 0) (covariance_entry cov 0 1) (covariance_entry cov 0 2)
       (covariance_entry cov 1 0) (covariance_entry cov 1 1) (covariance_entry cov 1 2)
       (covariance_entry cov 2 0) (covariance_entry cov 2 1) (covariance_entry cov 2 2).

(** Modelled from the spec: [Object::setPose] of a pose with covariance, the
    hard set of position, orientation and positional covariance of the
    explicit create-or-update. *)
Definition setPose (p : PoseWithCovariance) (o : Object) : Object :=
  setCovariance (position_block (covariance p))
    (setOrientation (orientation (pose p))
       (setPosition (vec3_map to_float (position (pose p))) o)).

(** Modelled from the spec: [Object::update], the fusion of the object's
    estimate with an observation in information form, the observation's
    support added to the object's. *)
Definition update (positionB : vec3 float) (covarianceB : mat3 float)
  (support : float) (o : Object) : Object :=
  let A := inverse (o_covariance o) in
  let B := inverse covarianceB in
  let fused := inverse (madd A B) in
  let p := mvmul fused (vadd (mvmul A (o_position o)) (mvmul B positionB)) in
  addSupport support (setCovariance fused (setPosition p o)).

(** ** The tracker *)

(** The parameters read by the constructor of [ObjectTracker]; the numbers
    are read by [getParam] as [double]. *)
Record Config : Type := {
  _project_objects : bool;
  _frame_id : string;
  _default_distance : double;
  _distance_variance : double;
  _angle_variance : double;
  _min_height : double;
  _max_height : double
}.

(** What the collaborators of the tracker answer while one callback runs. *)
Record Collaborators : Type := {
  (** [distanceToObstacle.exists()] *)
  distanceToObstacle_exists : bool;
  (** [distanceToObstacle.call]: [None] when the call fails, otherwise
      [response.distance], a [float32] *)
  distanceToObstacle_call : Header -> vec3 double -> option float;
  (** [tf.waitForTransform] and [tf.lookupTransform] to a target frame from a
      source frame at a time: [None] when a [tf::TransformException] is
      thrown *)
  lookupTransform : string -> string -> Time -> option Transform;
  (** the verification services, each [None] when its call fails *)
  verificationServices : list (Object -> option VerifyResponse);
  (** [ros::Time::now()] *)
  now : Time;
  (** the content of a default-constructed [tf::StampedTransform], which tf
      leaves uninitialised *)
  uninitialized_transform : Transform
}.

Record Tracker : Type := {
  model : list Object;
  cameraModels : gmap string PinholeCameraModel
}.

(** What a callback sends: on the topic [object], on the topic [objects],
    and to the drawings of rviz. *)
Inductive Event : Type :=
| Publish_object (o : Object)
| Publish_model (objects : list Object)
| Draw_marker (o : Object)
| Draw_covariance (x y : float) (c00 c01 c10 c11 : float)
| Send_drawings.

(** What has been extracted from a percept when the model is locked. *)
Record Observation : Type := {
  obs_position : vec3 float;
  obs_covariance : mat3 float;
  obs_rotation : quat double;
  obs_support : float
}.

(** How the locked part of [posePerceptCb] ends: the percept is dropped at
    line 218 since its object has a fixed state; or [ObjectModel::add]
    signals its error and the model is left as it was; or the model has been
    updated, [object] being the place of the object created or updated. *)
Inductive Cycle : Type :=
| Dropped
| Raised
| Updated (objects : list Object) (object : nat).

(** [Eigen::NumTraits<float>::dummy_precision()], the literal [1e-5f]. *)
Definition dummy_precision : float := fdiv fone (of_Z 100000).

(** Eigen's [isMuchSmallerThan] of two scalars. *)
Definition isMuchSmallerThan (a b prec : float) : bool :=
  fle (fabs a) (fmul (fabs b) prec).

(** [Eigen::DenseBase::isZero] with the precision Eigen takes for [float]. *)
Definition isZero (m : mat3 float) : bool :=
  mat3_all (fun a => isMuchSmallerThan a fone dummy_precision) m.

(** Lines 140-145 of [posePerceptCb]: "if no variance is given, set variance
    to default". *)
Definition default_covariance (cfg : Config) (distance : float)
  (covariance : mat3 float) : mat3 float :=
  if isZero covariance then
    let c00 := to_float (_distance_variance cfg) in
    let c11 :=
      to_float (fmul (to_double (fmax (fmul distance distance) fone))
                  (_angle_variance cfg)) in
    Mat3 c00 (m01 covariance) (m02 covariance)
         (m10 covariance) c11 (m12 covariance)
         (m20 covariance) (m21 covariance) c11
  else covariance.

(** The three arguments of [tf::Quaternion(yaw, pitch, roll)] at line 97 of
    [imagePerceptCb] and at line 112 of [posePerceptCb]. *)
Definition bearing_angles (v : vec3 double) : double * double * double :=
  (fdiv (vy v) (vx v), fdiv (fneg (vz v)) (vx v), fzero).

(** The test of line 205 that skips an object of the scan. *)
Definition excluded (class_id : string) (x : Object) : bool :=
  negb (empty class_id) && negb (String.eqb class_id (o_class_id x)).

(** Line 206-207: the squared Mahalanobis distance of an object to the
    observation. *)
Definition mahalanobis (position : vec3 float) (covariance : mat3 float)
  (x : Object) : float :=
  let diff := vsub (o_position x) position in
  inner (vmmul diff (inverse (madd (o_covariance x) covariance))) diff.

(** The loop of lines 203-212, from the object of index [i] on. *)
Fixpoint scan (class_id : string) (position : vec3 float) (covariance : mat3 float)
  (objects : list Object) (i : nat) (object : option nat) (min_distance : float)
  : option nat * float :=
  match objects with
  | [] => (object, min_distance)
  | x :: rest =>
      if excluded class_id x then
        scan class_id position covariance rest (S i) object min_distance
      else
        let distance := mahalanobis position covariance x in
        if flt distance min_distance then
          scan class_id position covariance rest (S i) (Some i) distance
        else
          scan class_id position covariance rest (S i) object min_distance
  end.

(** Lines 199-213, "find correspondence". *)
Definition find_correspondence (info : PerceptInfo) (position : vec3 float)
  (covariance : mat3 float) (objects : list Object) : option nat :=
  if empty (object_id info) then
    fst (scan (class_id info) position covariance objects 0 None fone)
  else None.

(** Lines 183-189, "calculate observation support". *)
Definition observation_support (info : PerceptInfo) : float :=
  if negb (empty (object_id info)) then object_support info
  else if negb (empty (class_id info)) then class_support info
  else fzero.

(** Modelled from the spec: [ObjectModel::getObject], the lookup by
    identifier; the result is the object and its place in the store. *)
Fixpoint getObject_from (id : string) (objects : list Object) (i : nat)
  : option (nat * Object) :=
  match objects with
  | [] => None
  | x :: rest =>
      if String.eqb (o_object_id x) id then Some (i, x)
      else getObject_from id rest (S i)
  end.

(** Modelled from the spec: [ObjectModel::getObject], from the first object
    on. *)
Definition getObject (id : string) (objects : list Object) : option (nat * Object) :=
  getObject_from id objects 0.

(** Modelled from the spec: [ObjectModel::add] of an object built
    elsewhere: it is inserted last. *)
Definition add_object (o : Object) (objects : list Object) : list Object :=
  objects ++ [o].

(** Modelled from the spec: [ObjectModel::reset]. *)
Definition reset (objects : list Object) : list Object := [].

(** [publishModel] *)
Definition draw (o : Object) : list Event :=
  [Draw_marker o;
   Draw_covariance (vx (o_position o)) (vy (o_position o))
     (m00 (o_covariance o)) (m01 (o_covariance o))
     (m10 (o_covariance o)) (m11 (o_covariance o))].

Definition publishModel (objects : list Object) : list Event :=
  Publish_model objects :: flat_map draw objects ++ [Send_drawings].

(** [sysCommandCb] *)
Definition sysCommandCb (sysCommand : string) (t : Tracker) : Tracker * list Event :=
  if String.eqb sysCommand "reset" then
    ({| model := reset (model t); cameraModels := cameraModels t |}, [])
  else (t, []).

Section Tracker.
(** The functions of tf and image_geometry that take square roots, sines
    and cosines are kept abstract. *)
Variable fsqrt : double -> double.
(** [tf::Quaternion(yaw, pitch, roll)] *)
Variable quaternion_from_euler : double -> double -> double -> quat double.
(** [tf::Matrix3x3::getRotation] *)
Variable getRotation : mat3 double -> quat double.
(** [projectPixelTo3dRay] of the pixel [cv::Point2d(u, v)] *)
Variable projectPixelTo3dRay : PinholeCameraModel -> double -> double -> vec3 double.

(** The constants of [worldmodel_msgs::ObjectState], which the message
    package declares: the state a new object starts in, and [DISCARDED]. *)
Variable initial_state : Z.
Variable DISCARDED : Z.
(** The identifier the store gives an object that comes without one. *)
Variable auto_id : string -> list Object -> string.

(** [tf::Vector3::length] *)
Definition vlength (v : vec3 double) : double := fsqrt (dot v v).

(** [tf::Vector3::normalized]: [*this / length()], a product with
    [1 / length()]. *)
Definition normalized (v : vec3 double) : vec3 double :=
  vscale v (fdiv fone (vlength v)).

(** [tf::poseTFToMsg] *)
Definition poseTFToMsg (t : Transform) : Pose :=
  {| position := origin t; orientation := getRotation (basis t) |}.

(** Modelled from the spec: the constructor of [Object]. *)
Definition new_Object (class_id object_id : string) : Object :=
  {| o_object_id := object_id; o_class_id := class_id;
     o_position := Vec3 fzero fzero fzero;
     o_orientation := Quat fzero fzero fzero fone;
     o_covariance := Mat3 fzero fzero fzero fzero fzero fzero fzero fzero fzero;
     o_support := fzero;
     o_state := initial_state;
     o_header := {| stamp := 0%Z; frame_id := "" |} |}.

(** Modelled from the spec: [ObjectModel::add] by class and identifier:
    an identifier is assigned if none is given, and it is an error if the
    given identifier exists already.  The result is the new store and the
    place of the new object. *)
Definition add (class_id object_id : string) (objects : list Object)
  : option (list Object * nat) :=
  if empty object_id then
    Some (add_object (new_Object class_id (auto_id class_id objects)) objects,
          length objects)
  else
    match getObject object_id objects with
    | Some _ => None
    | None =>
        Some (add_object (new_Object class_id object_id) objects,
              length objects)
    end.

(** Lines 109-194 of [posePerceptCb]: from the percept to the observation,
    or [None] where the callback returns early. *)
Definition observe (cfg : Config) (env : Collaborators) (percept : PosePercept)
  : option Observation :=
  let pose0 := poseMsgToTF (pose (pp_pose percept)) in
  let '(yaw, pitch, roll) := bearing_angles (origin pose0) in
  let direction := quaternion_from_euler yaw pitch roll in
  let distance0 := to_float (vlength (origin pose0)) in
  let projected :=
    if _project_objects cfg then
      match distanceToObstacle_call env (pp_header percept) (origin pose0) with
      | Some response_distance =>
          if fgt (to_double response_distance) fzero then
            let distance := fmax response_distance fzero in
            Some ({| basis := basis pose0;
                     origin := vscale (normalized (origin pose0))
                                 (to_double distance) |},
                  distance)
          else None
      | None => None
      end
    else Some (pose0, distance0) in
  match projected with
  | None => None
  | Some (pose1, distance) =>
      let covariance0 :=
        default_covariance cfg distance
          (position_block (covariance (pp_pose percept))) in
      let rotation_camera_object :=
        toRotationMatrix (quat_map to_float direction) in
      let covariance1 := rotate_covariance rotation_camera_object covariance0 in
      let transformed :=
        if negb (empty (_frame_id cfg)) &&
           negb (String.eqb (frame_id (pp_header percept)) (_frame_id cfg)) then
          match lookupTransform env (_frame_id cfg) (frame_id (pp_header percept))
                  (stamp (pp_header percept)) with
          | None => None
          | Some cameraTransform =>
              let rotation_map_camera :=
                mat3_map to_float
                  (toRotationMatrix (getRotation (basis cameraTransform))) in
              Some (cameraTransform, transform_mul cameraTransform pose1,
                    rotate_covariance rotation_map_camera covariance1)
          end
        else Some (uninitialized_transform env, pose1, covariance1) in
      match transformed with
      | None => None
      | Some (cameraTransform, pose2, covariance2) =>
          let relative_height :=
            to_float (fsub (vz (origin pose2)) (vz (origin cameraTransform))) in
          if flt (to_double relative_height) (_min_height cfg) ||
             fgt (to_double relative_height) (_max_height cfg) then None
          else
            let support := observation_support (pp_info percept) in
            if feqb (to_double support) fzero then None
            else Some {| obs_position := vec3_map to_float (origin pose2);
                         obs_covariance := covariance2;
                         obs_rotation := getRotation (basis pose2);
                         obs_support := support |}
      end
  end.

(** [object && object->getState() < 0] *)
Definition has_fixed_state (objects : list Object) (object : option nat) : bool :=
  match object with
  | Some i =>
      match objects !! i with
      | Some x => (o_state x <? 0)%Z
      | None => false
      end
  | None => false
  end.

(** Lines 240-248: the orientation and the header of the object are set
    from the percept. *)
Definition stamp_object (cfg : Config) (percept : PosePercept) (obs : Observation)
  (o : Object) : Object :=
  setHeader {| stamp := stamp (pp_header percept); frame_id := _frame_id cfg |}
    (setOrientation (obs_rotation obs) o).

(** Lines 196-251 of [posePerceptCb], the part that holds the lock of the
    model. *)
Definition fusion_cycle (cfg : Config) (percept : PosePercept) (obs : Observation)
  (objects : list Object) : Cycle :=
  let info := pp_info percept in
  let object :=
    find_correspondence info (obs_position obs) (obs_covariance obs) objects in
  if has_fixed_state objects object then Dropped
  else
    match object with
    | None =>
        match add (class_id info) (object_id info) objects with
        | None => Raised
        | Some (objects', i) =>
            Updated
              (alter (fun o =>
                        stamp_object cfg percept obs
                          (setSupport (obs_support obs)
                             (setCovariance (obs_covariance obs)
                                (setPosition (obs_position obs) o))))
                     i objects') i
        end
    | Some i =>
        if fgt (to_double (obs_support obs)) fzero then
          Updated
            (alter (fun o =>
                      stamp_object cfg percept obs
                        (update (obs_position obs) (obs_covariance obs)
                           (obs_support obs) o))
                   i objects) i
        else
          Updated
            (alter (fun o =>
                      stamp_object cfg percept obs (addSupport (obs_support obs) o))
                   i objects) i
    end.

(** Lines 260-274: one verification service after the other is asked about
    the object as it was when the model was unlocked. *)
Fixpoint verify (services : list (Object -> option VerifyResponse))
  (request : Object) (o : Object) : Object :=
  match services with
  | [] => o
  | service :: rest =>
      match service request with
      | Some DISCARD => verify rest request (setState DISCARDED o)
      | Some CONFIRM => verify rest request (addSupport (of_Z 100) o)
      | Some UNKNOWN => verify rest request o
      | None => verify rest request o
      end
  end.

(** [posePerceptCb] *)
Definition posePerceptCb (cfg : Config) (env : Collaborators)
  (percept : PosePercept) (t : Tracker) : Tracker * list Event :=
  match observe cfg env percept with
  | None => (t, [])
  | Some obs =>
      match fusion_cycle cfg percept obs (model t) with
      | Dropped => (t, [])
      | Raised => (t, [])
      | Updated objects i =>
          match objects !! i with
          | None => (t, [])
          | Some request =>
              let verified := verify (verificationServices env) request request in
              let objects' := <[i := verified]> objects in
              ({| model := objects'; cameraModels := cameraModels t |},
               Publish_object verified :: publishModel objects')
          end
      end
  end.

(** [setObjectStateCb]: the answer, the tracker and what was published. *)
Definition setObjectStateCb (request_object_id : string) (new_state : Z)
  (t : Tracker) : bool * Tracker * list Event :=
  match getObject request_object_id (model t) with
  | None => (false, t, [])
  | Some (i, x) =>
      let object := setState new_state x in
      let objects' := <[i := object]> (model t) in
      (true, {| model := objects'; cameraModels := cameraModels t |},
       Publish_object object :: publishModel objects')
  end.

(** [mapToNextObstacle] *)
Definition mapToNextObstacle (cfg : Config) (env : Collaborators)
  (source : Pose) (header : Header) : option Pose :=
  if negb (distanceToObstacle_exists env) then None
  else
    match distanceToObstacle_call env header (position source) with
    | Some response_distance =>
        if fgt (to_double response_distance) fzero then
          let distance := fmax response_distance fzero in
          let sourceTF := poseMsgToTF source in
          Some (poseTFToMsg
                  {| basis := basis sourceTF;
                     origin := vscale (normalized (origin sourceTF))
                                 (to_double distance) |})
        else None
    | None => None
    end.

(** [transformPose] on a pose: the transformed pose, the header in the
    frame of the model and the transform that was used. *)
Definition transformPose (cfg : Config) (env : Collaborators)
  (from : Pose) (header : Header) : option (Pose * Header * Transform) :=
  match lookupTransform env (_frame_id cfg) (frame_id header) (stamp header) with
  | None => None
  | Some transform =>
      let tfPose := transform_mul transform (poseMsgToTF from) in
      Some (poseTFToMsg tfPose,
            {| stamp := stamp header; frame_id := _frame_id cfg |},
            transform)
  end.

(** [transformPose] on a pose with covariance; the covariance is left as
    it is (a TODO of the source). *)
Definition transformPoseWithCovariance (cfg : Config) (env : Collaborators)
  (from : PoseWithCovariance) (header : Header)
  : option (PoseWithCovariance * Header) :=
  match transformPose cfg env (pose from) header with
  | None => None
  | Some (to, header', _) =>
      Some ({| pose := to; covariance := covariance from |}, header')
  end.

(** [worldmodel_msgs::Object], the description of an object in a request;
    the support is [float32]. *)
Record ObjectMessage : Type := {
  om_header : Header;
  om_pose : PoseWithCovariance;
  om_class_id : string;
  om_object_id : string;
  om_support : float;
  om_state : Z
}.

(** [worldmodel_msgs::AddObject::Request] *)
Record AddObjectRequest : Type := {
  request_object : ObjectMessage;
  map_to_next_obstacle : bool
}.

(** Lines 314-315 of [addObjectCb]: the header of the request, stamped with
    the current time if it has no time. *)
Definition request_header (env : Collaborators) (request : AddObjectRequest)
  : Header :=
  let header := om_header (request_object request) in
  if (stamp header =? 0)%Z
  then {| stamp := now env; frame_id := frame_id header |}
  else header.

(** Lines 317-339 of [addObjectCb]: the header and the pose the object is
    going to be set to, or [None] where the callback returns [false]. *)
Definition prepare_pose (cfg : Config) (env : Collaborators)
  (request : AddObjectRequest) : option (PoseWithCovariance * Header) :=
  let header := request_header env request in
  let mapped :=
    if map_to_next_obstacle request then
      match mapToNextObstacle cfg env (pose (om_pose (request_object request)))
              header with
      | None => None
      | Some p =>
          Some {| pose := p;
                  covariance := covariance (om_pose (request_object request)) |}
      end
    else Some (om_pose (request_object request)) in
  match mapped with
  | None => None
  | Some pose0 =>
      let pose1 :=
        if isZero (position_block (covariance pose0)) then
          {| pose := pose pose0;
             covariance :=
               <[14 := fone]> (<[7 := fone]> (<[0 := fone]> (covariance pose0))) |}
        else pose0 in
      transformPoseWithCovariance cfg env pose1 header
  end.

(** [addObjectCb]: the object of the response when the callback returns
    [true], the tracker and what was published. *)
Definition addObjectCb (cfg : Config) (env : Collaborators)
  (request : AddObjectRequest) (t : Tracker)
  : option Object * Tracker * list Event :=
  let msg := request_object request in
  let found :=
    if negb (empty (om_object_id msg)) then getObject (om_object_id msg) (model t)
    else None in
  match prepare_pose cfg env request with
  | None => (None, t, [])
  | Some (pose1, header) =>
      let set (o : Object) : Object :=
        setSupport (om_support msg)
          (setState (om_state msg) (setPose pose1 (setHeader header o))) in
      let '(objects', object) :=
        match found with
        | Some (i, x) =>
            let object := set x in
            (<[i := object]> (model t), object)
        | None =>
            let object := set (new_Object (om_class_id msg) (om_object_id msg)) in
            (add_object object (model t), object)
        end in
      (Some object, {| model := objects'; cameraModels := cameraModels t |},
       Publish_object object :: publishModel objects')
  end.

(** [getObjectModelCb] *)
Definition getObjectModelCb (t : Tracker) : list Object := model t.

(** Lines 90-94 of [imagePerceptCb], "get camera model": the cache after
    them and the camera model they hand to the projection. *)
Definition get_camera_model (percept : ImagePercept)
  (models : gmap string PinholeCameraModel)
  : gmap string PinholeCameraModel * PinholeCameraModel :=
  let frame := frame_id (ip_header percept) in
  match models !! frame with
  | Some cameraModel => (models, cameraModel)
  | None =>
      let cameraModel := fromCameraInfo uninitialized_camera (camera_info percept) in
      (<[frame := cameraModel]> models, cameraModel)
  end.

(** Line 95 of [imagePerceptCb]: the centre of the pixel region, computed in
    [float] and handed to [cv::Point2d] as [double]. *)
Definition region_centre (percept : ImagePercept) : double * double :=
  (to_double (fadd (ip_x percept) (fdiv (ip_width percept) (of_Z 2))),
   to_double (fadd (ip_y percept) (fdiv (ip_height percept) (of_Z 2)))).

(** Lines 95-101 of [imagePerceptCb]: the pose of the percept that is
    forwarded. *)
Definition bearing_pose (cfg : Config) (cameraModel : PinholeCameraModel)
  (percept : ImagePercept) : Pose :=
  let direction_cv :=
    projectPixelTo3dRay cameraModel
      (fst (region_centre percept)) (snd (region_centre percept)) in
  let direction_tf :=
    Vec3 (vz direction_cv) (fneg (vx direction_cv)) (fneg (vy direction_cv)) in
  let '(yaw, pitch, roll) := bearing_angles direction_tf in
  let direction_quaternion := quaternion_from_euler yaw pitch roll in
  {| position := vscale (normalized direction_tf) (_default_distance cfg);
     orientation := direction_quaternion |}.

(** Lines 85-101 of [imagePerceptCb]: the pose percept that is forwarded,
    made with a camera model. *)
Definition forwarded_percept (cfg : Config) (cameraModel : PinholeCameraModel)
  (percept : ImagePercept) : PosePercept :=
  {| pp_header := ip_header percept;
     pp_info := ip_info percept;
     pp_pose := {| pose := bearing_pose cfg cameraModel percept;
                   covariance := repeat fzero 36 |} |}.

(** [imagePerceptCb] *)
Definition imagePerceptCb (cfg : Config) (env : Collaborators)
  (percept : ImagePercept) (t : Tracker) : Tracker * list Event :=
  let '(models, cameraModel) := get_camera_model percept (cameraModels t) in
  let posePercept := forwarded_percept cfg cameraModel percept in
  posePerceptCb cfg env posePercept {| model := model t; cameraModels := models |}.

(** An image percept with another calibration. *)
Definition with_camera_info (info : CameraInfo) (percept : ImagePercept)
  : ImagePercept :=
  {| ip_header := ip_header percept;
     ip_info := ip_info percept;
     camera_info := info;
     ip_x := ip_x percept;
     ip_y := ip_y percept;
     ip_width := ip_width percept;
     ip_height := ip_height percept |}.

(** What [ros::spin] hands to the callbacks of the tracker. *)
Inductive Input : Type :=
| SysCommand (sysCommand : string)
| ImagePerceptIn (percept : ImagePercept)
| PosePerceptIn (percept : PosePercept)
| SetObjectState (request_object_id : string) (new_state : Z)
| AddObject (request : AddObjectRequest).

Definition step (cfg : Config) (env : Collaborators) (input : Input) (t : Tracker)
  : Tracker * list Event :=
  match input with
  | SysCommand sysCommand => sysCommandCb sysCommand t
  | ImagePerceptIn percept => imagePerceptCb cfg env percept t
  | PosePerceptIn percept => posePerceptCb cfg env percept t
  | SetObjectState id s =>
      let '(_, t', events) := setObjectStateCb id s t in (t', events)
  | AddObject request =>
      let '(_, t', events) := addObjectCb cfg env request t in (t', events)
  end.

(** The callbacks run one after the other, each with the answers its
    collaborators give at that time. *)
Fixpoint run (cfg : Config) (inputs : list (Collaborators * Input)) (t : Tracker)
  : Tracker * list Event :=
  match inputs with
  | [] => (t, [])
  | (env, input) :: rest =>
      let '(t1, events1) := step cfg env input t in
      let '(t2, events2) := run cfg rest t1 in
      (t2, events1 ++ events2)
  end.

End Tracker.

(** The calibration of the first image percept of a frame in a sequence of
    inputs, the camera model a first-write-wins cache holds for the frame. *)
Fixpoint first_camera_info (frame : string) (inputs : list (Collaborators * Input))
  : option CameraInfo :=
  match inputs with
  | [] => None
  | (_, ImagePerceptIn percept) :: rest =>
      if String.eqb (frame_id (ip_header percept)) frame
      then Some (camera_info percept)
      else first_camera_info frame rest
  | _ :: rest => first_camera_info frame rest
  end.

(** What a first-write-wins cache holds for a frame: the camera model it
    held before or, if it held none, the one made of the first calibration
    of the frame. *)
Definition cached (models : gmap string PinholeCameraModel) (frame : string)
  (first : option CameraInfo) : option PinholeCameraModel :=
  match models !! frame with
  | Some cameraModel => Some cameraModel
  | None => fromCameraInfo uninitialized_camera <$> first
  end.

(** A percept whose observation is associated with an object of the store
    that has a fixed state. *)
Definition associates_to_fixed (fsqrt : double -> double)
  (quaternion_from_euler : double -> double -> double -> quat double)
  (getRotation : mat3 double -> quat double)
  (cfg : Config) (env : Collaborators) (percept : PosePercept)
  (objects : list Object) : Prop :=
  exists obs i x,
    observe fsqrt quaternion_from_euler getRotation cfg env percept = Some obs /\
    find_correspondence (pp_info percept) (obs_position obs) (obs_covariance obs)
      objects = Some i /\
    objects !! i = Some x /\ (o_state x < 0)%Z.

Definition zero_matrix : mat3 float :=
  Mat3 fzero fzero fzero fzero fzero fzero fzero fzero fzero.

Definition vec3_finite {f : format} (v : vec3 (fp f)) : bool :=
  vec3_all is_finite v.

Definition mat3_finite {f : format} (m : mat3 (fp f)) : bool :=
  mat3_all is_finite m.

(** A number that is a zero or a NaN. *)
Definition zero_or_nan {f : format} (a : fp f) : Prop :=
  is_zero a = true \/ a = fnan.

(** ** The answers of the verification services *)

Definition is_confirm (response : option VerifyResponse) : bool :=
  match response with Some CONFIRM => true | _ => false end.

Definition is_discard (response : option VerifyResponse) : bool :=
  match response with Some DISCARD => true | _ => false end.

(** The reset command of [sysCommandCb]. *)
Definition is_reset (input : Input) : bool :=
  match input with
  | SysCommand sysCommand => String.eqb sysCommand "reset"
  | _ => false
  end.

(** * odometry_to_tf

    [branches/fuerte/hector_localization/odometry_to_tf/src/odom_to_tf.cpp]
    turns a pose into a chain of transforms: from the frame of the pose to
    the footprint of the robot, to its stabilized frame, to its body. *)

(** The parameters of the node, the global variables [g_...]. *)
Record Params : Type := {
  g_odometry_topic : string;
  g_pose_topic : string;
  g_frame_id : string;
  g_footprint_frame_id : string;
  g_stabilized_frame_id : string;
  g_child_frame_id : string
}.

(** [tf::StampedTransform] *)
Record StampedTransform : Type := {
  st_transform : Transform;
  stamp_ : Time;
  frame_id_ : string;
  child_frame_id_ : string
}.

(** [geometry_msgs::TransformStamped] *)
Record TransformStamped : Type := {
  ts_header : Header;
  ts_child_frame_id : string;
  translation : vec3 double;
  rotation : quat double
}.

(** [tf::Matrix3x3::getIdentity] *)
Definition getIdentity : mat3 double :=
  Mat3 fone fzero fzero fzero fone fzero fzero fzero fone.

Section OdometryToTf.
(** [tf::Matrix3x3::getRotation] *)
Variable getRotation : mat3 double -> quat double.
(** [tf::Matrix3x3::getEulerYPR]: yaw, pitch and roll of a basis. *)
Variable getEulerYPR : mat3 double -> double * double * double.
(** [tf::createQuaternionFromRPY] of roll, pitch and yaw. *)
Variable createQuaternionFromRPY : double -> double -> double -> quat double.

(** [tf::transformStampedTFToMsg] *)
Definition transformStampedTFToMsg (tf : StampedTransform) : TransformStamped :=
  {| ts_header := {| stamp := stamp_ tf; frame_id := frame_id_ tf |};
     ts_child_frame_id := child_frame_id_ tf;
     translation := origin (st_transform tf);
     rotation := getRotation (basis (st_transform tf)) |}.

(** [addTransform] *)
Definition addTransform (transforms : list TransformStamped) (tf : StampedTransform)
  : list TransformStamped :=
  transforms ++ [transformStampedTFToMsg tf].

(** [sendTransform]: the transforms handed to the broadcaster. *)
Definition sendTransform (g : Params) (pose : Pose) (header : Header)
  (child_frame_id : string) : list TransformStamped :=
  let frame0 :=
    if negb (empty (g_frame_id g)) then g_frame_id g else frame_id header in
  let child_frame_id :=
    if negb (empty (g_child_frame_id g)) then g_child_frame_id g
    else child_frame_id in
  let child_frame_id :=
    if empty child_frame_id then "base_link" else child_frame_id in
  let transforms : list TransformStamped := [] in
  let '(yaw, pitch, roll) := getEulerYPR (setRotation (orientation pose)) in
  let position := position pose in
  (* footprint intermediate transform (x,y,yaw) *)
  let '(transforms, yaw, position, frame1) :=
    if negb (empty (g_footprint_frame_id g)) &&
       negb (String.eqb child_frame_id (g_footprint_frame_id g)) then
      (addTransform transforms
         {| st_transform :=
              {| basis := setRotation (createQuaternionFromRPY fzero fzero yaw);
                 origin := Vec3 (vx position) (vy position) fzero |};
            stamp_ := stamp header;
            frame_id_ := frame0;
            child_frame_id_ := g_footprint_frame_id g |},
       fzero,
       Vec3 fzero fzero (vz position),
       g_footprint_frame_id g)
    else (transforms, yaw, position, frame0) in
  (* stabilized intermediate transform (z) *)
  let '(transforms, position, frame2) :=
    if negb (empty (g_footprint_frame_id g)) &&
       negb (String.eqb child_frame_id (g_stabilized_frame_id g)) then
      (addTransform transforms
         {| st_transform :=
              {| basis := getIdentity;
                 origin := Vec3 fzero fzero (vz position) |};
            stamp_ := stamp header;
            frame_id_ := frame1;
            child_frame_id_ := g_stabilized_frame_id g |},
       Vec3 (vx position) (vy position) fzero,
       g_stabilized_frame_id g)
    else (transforms, position, frame1) in
  addTransform transforms
    {| st_transform :=
         {| basis := setRotation (createQuaternionFromRPY roll pitch yaw);
            origin := position |};
       stamp_ := stamp header;
       frame_id_ := frame2;
       child_frame_id_ := child_frame_id |}.

(** [nav_msgs::Odometry], as far as the node reads it. *)
Record Odometry : Type := {
  od_header : Header;
  od_child_frame_id : string;
  od_pose : PoseWithCovariance
}.

(** [geometry_msgs::PoseStamped] *)
Record PoseStamped : Type := { ps_header : Header; ps_pose : Pose }.

(** [odomCallback] *)
Definition odomCallback (g : Params) (odometry : Odometry) : list TransformStamped :=
  sendTransform g (pose (od_pose odometry)) (od_header odometry)
    (od_child_frame_id odometry).

(** [poseCallback] *)
Definition poseCallback (g : Params) (p : PoseStamped) : list TransformStamped :=
  sendTransform g (ps_pose p) (ps_header p) "".

End OdometryToTf.

(** The frame the chain starts in and the frame it ends in. *)
Definition chain_frame (g : Params) (header : Header) : string :=
  if empty (g_frame_id g) then frame_id header else g_frame_id g.

Definition chain_child (g : Params) (child_frame_id : string) : string :=
  if empty (g_child_frame_id g) then
    (if empty child_frame_id then "base_link" else child_frame_id)
  else g_child_frame_id g.

(** Transforms that lead from a frame to a frame, each starting in the frame
    the one before it ends in. *)
Fixpoint linked (frame child : string) (transforms : list TransformStamped) : Prop :=
  match transforms with
  | [] => frame = child
  | t :: rest =>
      frame_id (ts_header t) = frame /\ linked (ts_child_frame_id t) child rest
  end.

(** Two numbers that are equal but for the sign of a zero: [x + 0.0] is [x]
    unless [x] is the negative zero, which it turns into the positive one. *)
Definition same_number {f : format} (a b : fp f) : Prop :=
  a = b \/ (is_zero a = true /\ is_zero b = true).

Definition same_vector {f : format} (u v : vec3 (fp f)) : Prop :=
  same_number (vx u) (vx v) /\ same_number (vy u) (vy v) /\
  same_number (vz u) (vz v).

(** The sum of the translations. *)
Definition total_translation (transforms : list TransformStamped) : vec3 double :=
  foldr (fun t sum => vadd (translation t) sum) (Vec3 fzero fzero fzero) transforms.

(** Lines 327-337 of [addObjectCb]: the covariance of the request, with the
    variance 1 on the three axes of the position if it gives none. *)
Definition unit_covariance (covariance : list double) : list double :=
  if isZero (position_block covariance) then
    <[14 := fone]> (<[7 := fone]> (<[0 := fone]> covariance))
  else covariance.

(** The object that [addObjectCb] writes (lines 343-346), from the object it
    starts with: the header of the request in the frame of the model, the
    state and the support of the request, and the covariance of the request,
    which the transform of the pose leaves as it is (line 421). *)
Definition written (cfg : Config) (env : Collaborators) (request : AddObjectRequest)
  (o start : Object) : Prop :=
  o_object_id o = o_object_id start
  /\ o_class_id o = o_class_id start
  /\ o_state o = om_state (request_object request)
  /\ o_support o = om_support (request_object request)
  /\ o_header o = {| stamp := stamp (request_header env request);
                     frame_id := _frame_id cfg |}
  /\ o_covariance o =
       position_block
         (unit_covariance (covariance (om_pose (request_object request)))).

(** What identifies an object: its identifier and its class. *)
Definition object_key (o : Object) : string * string :=
  (o_object_id o, o_class_id o).

(** An object whose header is in the frame of the model. *)
Definition in_model_frame (cfg : Config) (o : Object) : Prop :=
  frame_id (o_header o) = _frame_id cfg.

(** What a callback makes of the store: nothing; or it rewrites one object,
    which keeps its identifier and its class; or it appends one object. *)
Inductive store_change (cfg : Config) (objects objects' : list Object) : Prop :=
| store_same : objects' = objects -> store_change cfg objects objects'
| store_rewritten (i : nat) (x o' : Object) :
    objects !! i = Some x -> objects' = <[i := o']> objects ->
    object_key o' = object_key x ->
    (in_model_frame cfg x -> in_model_frame cfg o') ->
    store_change cfg objects objects'
| store_appended (o' : Object) :
    objects' = objects ++ [o'] -> in_model_frame cfg o' ->
    store_change cfg objects objects'.

(** ** Data of the examples *)

(** The square root of [double]. *)
Definition sqrt_double (a : double) : double :=
  FP (SFsqrt (prec binary64) (emax binary64) (value a)).

Definition identity_quaternion : quat double := Quat fzero fzero fzero fone.

(** The quaternion of the angles 0, 0, 0, which are the angles of the
    examples. *)
Definition euler_zero (yaw pitch roll : double) : quat double :=
  identity_quaternion.

(** The rotation of the identity basis, which is the basis of the
    examples. *)
Definition rotation_identity (basis : mat3 double) : quat double :=
  identity_quaternion.

(** The ray of the optical axis. *)
Definition ray_axis (cameraModel : PinholeCameraModel) (u v : double) : vec3 double :=
  Vec3 fzero fzero fone.

Definition number_id (class_id : string) (objects : list Object) : string :=
  String.append class_id
    (String.append "_" (String (Ascii.ascii_of_nat (48 + length objects)) "")).

Definition identity_matrix : mat3 float := identity.

Definition identity_transform : Transform :=
  {| basis := identity; origin := Vec3 fzero fzero fzero |}.

(** The numbers 1/2, 1/10 and 999.9. *)
Definition half {f : format} : fp f := fdiv fone (of_Z 2).
Definition tenth : double := fdiv fone (of_Z 10).
Definition height_bound : double := fdiv (of_Z 9999) (of_Z 10).

Definition cfg_map : Config :=
  {| _project_objects := false;
     _frame_id := "map";
     _default_distance := fone;
     _distance_variance := fone;
     _angle_variance := tenth;
     _min_height := fneg height_bound;
     _max_height := height_bound |}.

(** Collaborators that answer: the range is 2, the transform is the
    identity, and no verification service is configured. *)
Definition env_ok : Collaborators :=
  {| distanceToObstacle_exists := true;
     distanceToObstacle_call := fun _ _ => Some (of_Z 2);
     lookupTransform := fun _ _ _ => Some identity_transform;
     verificationServices := [];
     now := 1%Z;
     uninitialized_transform := identity_transform |}.

(** Collaborators of which the ranging service does not know a distance. *)
Definition env_no_range : Collaborators :=
  {| distanceToObstacle_exists := true;
     distanceToObstacle_call := fun _ _ => Some (of_Z (-1));
     lookupTransform := fun _ _ _ => Some identity_transform;
     verificationServices := [];
     now := 1%Z;
     uninitialized_transform := identity_transform |}.

(** Collaborators of which tf has no transform. *)
Definition env_no_transform : Collaborators :=
  {| distanceToObstacle_exists := true;
     distanceToObstacle_call := fun _ _ => Some (of_Z 2);
     lookupTransform := fun _ _ _ => None;
     verificationServices := [];
     now := 1%Z;
     uninitialized_transform := identity_transform |}.

Definition header_map : Header := {| stamp := 5%Z; frame_id := "map" |}.
Definition header_camera : Header := {| stamp := 5%Z; frame_id := "camera" |}.

Definition point {A : Type} (x y z : A) : vec3 A := Vec3 x y z.

(** The 36 numbers of a 6x6 covariance with the given diagonal of the
    position. *)
Definition covariance_diagonal (a b c : double) : list double :=
  [a; fzero; fzero; fzero; fzero; fzero;
   fzero; b; fzero; fzero; fzero; fzero;
   fzero; fzero; c; fzero; fzero; fzero] ++ repeat fzero 18.

Definition diagonal (a b c : float) : mat3 float :=
  Mat3 a fzero fzero fzero b fzero fzero fzero c.

(** A percept of class "cup" one metre ahead, in the frame of the model. *)
Definition percept_cup : PosePercept :=
  {| pp_header := header_map;
     pp_info := {| class_id := "cup"; class_support := fone;
                   object_id := ""; object_support := fzero |};
     pp_pose := {| pose := {| position := point fone fzero fzero;
                              orientation := identity_quaternion |};
                   covariance := covariance_diagonal fone fone fone |} |}.

(** The same percept, naming the object "cup_0". *)
Definition percept_named : PosePercept :=
  {| pp_header := header_map;
     pp_info := {| class_id := "cup"; class_support := fone;
                   object_id := "cup_0"; object_support := fone |};
     pp_pose := pp_pose percept_cup |}.

Definition obs_cup : Observation :=
  {| obs_position := point fone fzero fzero;
     obs_covariance := identity_matrix;
     obs_rotation := identity_quaternion;
     obs_support := fone |}.

(** An observation whose covariance is singular. *)
Definition obs_singular : Observation :=
  {| obs_position := point fone fzero fzero;
     obs_covariance := diagonal fone fzero fzero;
     obs_rotation := identity_quaternion;
     obs_support := fone |}.

Definition object_at (id class : string) (p : vec3 float) (state : Z) : Object :=
  {| o_object_id := id; o_class_id := class;
     o_position := p; o_orientation := identity_quaternion;
     o_covariance := identity_matrix; o_support := fone;
     o_state := state; o_header := header_map |}.

Definition cup_0 : Object := object_at "cup_0" "cup" (point fone fzero fzero) 0.
Definition cup_far : Object := object_at "cup_1" "cup" (point (of_Z 5) fzero fzero) 0.
Definition classless : Object := object_at "thing_0" "" (point fone fzero fzero) 0.
Definition cup_fixed : Object := object_at "cup_0" "cup" (point fone fzero fzero) (-1).

Definition tracker_of (objects : list Object) : Tracker :=
  {| model := objects; cameraModels := ∅ |}.

(** The configuration with the angle variance 1. *)
Definition cfg_unit : Config :=
  {| _project_objects := false;
     _frame_id := "map";
     _default_distance := fone;
     _distance_variance := fone;
     _angle_variance := fone;
     _min_height := fneg height_bound;
     _max_height := height_bound |}.

(** A request to create a cup one metre ahead of the camera. *)
Definition request_cup (map_to_next_obstacle : bool) : AddObjectRequest :=
  {| request_object :=
       {| om_header := header_camera;
          om_pose := {| pose := {| position := point fone fzero fzero;
                                   orientation := identity_quaternion |};
                        covariance := covariance_diagonal fzero fzero fzero |};
          om_class_id := "cup";
          om_object_id := "";
          om_support := fone;
          om_state := 0 |};
     map_to_next_obstacle := map_to_next_obstacle |}.


(** A percept of class "cup" half a metre ahead that gives no covariance. *)
Definition percept_half : PosePercept :=
  {| pp_header := header_map;
     pp_info := {| class_id := "cup"; class_support := fone;
                   object_id := ""; object_support := fzero |};
     pp_pose := {| pose := {| position := point half fzero fzero;
                              orientation := identity_quaternion |};
                   covariance := covariance_diagonal fzero fzero fzero |} |}.

Definition quarter {f : format} : fp f := fdiv fone (of_Z 4).

(** The observation [posePerceptCb] makes of it with the angle variance 1. *)
Definition obs_half : Observation :=
  {| obs_position := point half fzero fzero;
     obs_covariance := diagonal fone fone fone;
     obs_rotation := identity_quaternion;
     obs_support := fone |}.

(** A percept to the left of the sensor: its forward component is zero. *)
Definition percept_side : PosePercept :=
  {| pp_header := header_map;
     pp_info := pp_info percept_cup;
     pp_pose := {| pose := {| position := point fzero fone fzero;
                              orientation := identity_quaternion |};
                   covariance := covariance_diagonal fone fone fone |} |}.

Definition finf {f : format} : fp f := FP (S754_infinity false).

(** The percept of a cup whose covariance is singular. *)
Definition percept_singular : PosePercept :=
  {| pp_header := header_map;
     pp_info := pp_info percept_cup;
     pp_pose := {| pose := pose (pp_pose percept_cup);
                   covariance := covariance_diagonal fone fzero fzero |} |}.

(** The percept of a cup at a great distance, with the variance 3. *)
Definition percept_distant : PosePercept :=
  {| pp_header := header_map;
     pp_info := pp_info percept_cup;
     pp_pose := {| pose := {| position := point (of_Z 100000000) fzero fzero;
                              orientation := identity_quaternion |};
                   covariance := covariance_diagonal (of_Z 3) (of_Z 3) (of_Z 3) |} |}.

(** The observation of a cup at the origin with the variance 12.5, and a
    cup five metres behind it with the same variance. *)
Definition obs_origin : Observation :=
  {| obs_position := point fzero fzero fzero;
     obs_covariance := diagonal (fdiv (of_Z 25) (of_Z 2)) (fdiv (of_Z 25) (of_Z 2))
                         (fdiv (of_Z 25) (of_Z 2));
     obs_rotation := identity_quaternion;
     obs_support := fone |}.

Definition cup_five : Object :=
  {| o_object_id := "cup_0"; o_class_id := "cup";
     o_position := point (of_Z 5) fzero fzero;
     o_orientation := identity_quaternion;
     o_covariance := obs_covariance obs_origin; o_support := fone;
     o_state := 0; o_header := header_map |}.

(** The number 2^64, and the percept of a cup with this variance. *)
Definition huge {f : format} : fp f := of_Z (2 ^ 64).

Definition percept_huge : PosePercept :=
  {| pp_header := header_map;
     pp_info := pp_info percept_cup;
     pp_pose := {| pose := pose (pp_pose percept_cup);
                   covariance := covariance_diagonal huge huge huge |} |}.

(** A percept of class "cup" whose support is zero. *)
Definition percept_unsupported : PosePercept :=
  {| pp_header := header_map;
     pp_info := {| class_id := "cup"; class_support := fzero;
                   object_id := ""; object_support := fone |};
     pp_pose := pp_pose percept_cup |}.

(** The percept of a cup in the frame of the camera. *)
Definition percept_camera : PosePercept :=
  {| pp_header := header_camera;
     pp_info := pp_info percept_cup;
     pp_pose := pp_pose percept_cup |}.

(** A request to create or update the object "cup_0", of another class and
    in the state 2. *)
Definition request_named : AddObjectRequest :=
  {| request_object :=
       {| om_header := header_camera;
          om_pose := {| pose := {| position := point (of_Z 2) fzero fzero;
                                   orientation := identity_quaternion |};
                        covariance := covariance_diagonal fzero fzero fzero |};
          om_class_id := "mug";
          om_object_id := "cup_0";
          om_support := of_Z 3;
          om_state := 2 |};
     map_to_next_obstacle := false |}.

(** The object of a response, where there is one. *)
Definition response_object (r : option Object * Tracker * list Event) : Object :=
  default cup_0 (fst (fst r)).

(** A cup half a metre behind the place of the observation. *)
Definition cup_near : Object :=
  object_at "cup_2" "cup" (point (fdiv (of_Z 3) (of_Z 2)) fzero fzero) 0.

(** The parameters [main] starts with, and a pose. *)
Definition params_default : Params :=
  {| g_odometry_topic := "odom";
     g_pose_topic := "";
     g_frame_id := "";
     g_footprint_frame_id := "base_footprint";
     g_stabilized_frame_id := "base_stabilized";
     g_child_frame_id := "" |}.

Definition params_no_footprint : Params :=
  {| g_odometry_topic := "odom";
     g_pose_topic := "";
     g_frame_id := "";
     g_footprint_frame_id := "";
     g_stabilized_frame_id := "base_stabilized";
     g_child_frame_id := "" |}.

Definition pose_robot : Pose :=
  {| position := point (of_Z 1) (of_Z 2) (of_Z 3);
     orientation := identity_quaternion |}.

(** The angles and the quaternion of the identity. *)
Definition euler_of_identity (basis : mat3 double) : double * double * double :=
  (fzero, fzero, fzero).

Definition quaternion_of_zero (roll pitch yaw : double) : quat double :=
  identity_quaternion.

(** An image percept without class and without object. *)
Definition image_unsupported : ImagePercept :=
  {| ip_header := header_camera;
     ip_info := {| class_id := ""; class_support := fone;
                   object_id := ""; object_support := fone |};
     camera_info := {| ci_height := 480; ci_width := 640;
                       ci_K := []; ci_P := [] |};
     ip_x := of_Z 10; ip_y := of_Z 20;
     ip_width := of_Z 4; ip_height := of_Z 6 |}.

(** ** The order of the scalars *)

Ltac compare_cases :=
  repeat match goal with
         | H : context [Pos.compare_cont Eq ?a ?b] |- _ =>
             change (Pos.compare_cont Eq a b) with (Pos.compare a b) in H
         | |- context [Pos.compare_cont Eq ?a ?b] =>
             change (Pos.compare_cont Eq a b) with (Pos.compare a b)
         end;
  repeat match goal with
         | H : context [(?a ?= ?b)%Z] |- _ => destruct (Z.compare_spec a b)
         | |- context [(?a ?= ?b)%Z] => destruct (Z.compare_spec a b)
         | H : context [(?a ?= ?b)%positive] |- _ => destruct (Pos.compare_spec a b)
         | |- context [(?a ?= ?b)%positive] => destruct (Pos.compare_spec a b)
         end;
  cbn [CompOpp] in *; try discriminate; try reflexivity; try lia.

Lemma SFltb_irrefl (x : spec_float) : SFltb x x = false.
Proof.
  unfold SFltb, SFcompare. destruct x as [s|s| |s m e]; try destruct s;
    try reflexivity; compare_cases.
Qed.

Lemma SFltb_trans (x y z : spec_float) :
  SFltb x y = true -> SFltb y z = true -> SFltb x z = true.
Proof.
  unfold SFltb, SFcompare.
  destruct x as [sx|sx| |sx mx ex], y as [sy|sy| |sy my ey], z as [sz|sz| |sz mz ez];
    try destruct sx; try destruct sy; try destruct sz;
    try discriminate; try reflexivity; compare_cases.
Qed.

Lemma SFleb_not_ltb (x y : spec_float) : SFleb x y = true -> SFltb y x = false.
Proof.
  unfold SFleb, SFltb, SFcompare.
  destruct x as [sx|sx| |sx mx ex], y as [sy|sy| |sy my ey];
    try destruct sx; try destruct sy;
    try discriminate; try reflexivity; compare_cases.
Qed.

(** [a < b <= c], where [c] is a number since it is below some [d]. *)
Lemma SFltb_below (a b c d : spec_float) :
  SFltb a b = true -> SFltb c b = false -> SFltb c d = true -> SFltb a c = true.
Proof.
  unfold SFltb, SFcompare.
  destruct a as [sa|sa| |sa ma ea], b as [sb|sb| |sb mb eb], c as [sc|sc| |sc mc ec];
    try destruct sa; try destruct sb; try destruct sc;
    try discriminate; try reflexivity; intros Hab Hcb Hcd; clear Hcd; revert Hab Hcb;
    compare_cases.
Qed.

Section Order.
Context {f : format}.

Lemma flt_irrefl (a : fp f) : flt a a = false.
Proof. apply SFltb_irrefl. Qed.

Lemma flt_trans (a b c : fp f) : flt a b = true -> flt b c = true -> flt a c = true.
Proof. apply SFltb_trans. Qed.

Lemma flt_asym (a b : fp f) : flt a b = true -> flt b a = false.
Proof.
  intros Hab. destruct (flt b a) eqn:Hba; [|reflexivity].
  rewrite <- (flt_irrefl a). symmetry. exact (flt_trans _ _ _ Hab Hba).
Qed.

Lemma fle_not_flt (a b : fp f) : fle a b = true -> flt b a = false.
Proof. apply SFleb_not_ltb. Qed.

End Order.

(** What is computed is compared by evaluation. *)
Ltac fp_compute := vm_compute; reflexivity.

(** ** The scan of the association *)

Section Scan.
Variable class_id : string.
Variable position : vec3 float.
Variable covariance : mat3 float.

Let d := mahalanobis position covariance.
Let candidate (x : Object) : bool := negb (excluded class_id x).

(** What the loop of [find_correspondence] returns: either what it was
    started with, no candidate being nearer than [min_distance], or a
    candidate nearer than [min_distance] that no candidate is nearer than. *)
Lemma scan_spec (objects : list Object) :
  forall (i : nat) (object : option nat) (min_distance : float),
    let r := scan class_id position covariance objects i object min_distance in
    (r = (object, min_distance) /\
     forall y, y ∈ objects -> candidate y = true -> flt (d y) min_distance = false)
    \/
    (exists k x,
        r = (Some (i + k), d x) /\ objects !! k = Some x /\ candidate x = true /\
        flt (d x) min_distance = true /\
        forall y, y ∈ objects -> candidate y = true -> flt (d y) (d x) = false).
Proof.
  induction objects as [|x rest IH]; intros i object min_distance; simpl.
  - left. split; [reflexivity|]. intros y Hy. inversion Hy.
  - destruct (excluded class_id x) eqn:Hex.
    + destruct (IH (S i) object min_distance) as [[Hr Hall]|(k & x' & Hr & Hk & Hc & Hlt & Hmin)].
      * left. split; [exact Hr|]. intros y Hy Hcy.
        apply elem_of_cons in Hy. destruct Hy as [->|Hy]; [|auto].
        unfold candidate in Hcy. rewrite Hex in Hcy. discriminate.
      * right. exists (S k), x'. rewrite Hr. replace (i + S k) with (S i + k) by lia.
        repeat split; auto. intros y Hy Hcy.
        apply elem_of_cons in Hy. destruct Hy as [->|Hy]; [|auto].
        unfold candidate in Hcy. rewrite Hex in Hcy. discriminate.
    + fold (d x). destruct (flt (d x) min_distance) eqn:Hx.
      * destruct (IH (S i) (Some i) (d x)) as [[Hr Hall]|(k & x' & Hr & Hk & Hc & Hlt & Hmin)].
        -- right. exists 0, x. rewrite Hr. replace (i + 0) with i by lia.
           repeat split; auto.
           ++ unfold candidate. rewrite Hex. reflexivity.
           ++ intros y Hy Hcy. apply elem_of_cons in Hy.
              destruct Hy as [->|Hy]; [apply flt_irrefl | auto].
        -- right. exists (S k), x'. rewrite Hr. replace (i + S k) with (S i + k) by lia.
           repeat split; auto.
           ++ exact (flt_trans _ _ _ Hlt Hx).
           ++ intros y Hy Hcy. apply elem_of_cons in Hy.
              destruct Hy as [->|Hy]; [exact (flt_asym _ _ Hlt) | auto].
      * destruct (IH (S i) object min_distance) as [[Hr Hall]|(k & x' & Hr & Hk & Hc & Hlt & Hmin)].
        -- left. split; [exact Hr|]. intros y Hy Hcy. apply elem_of_cons in Hy.
           destruct Hy as [->|Hy]; [exact Hx | auto].
        -- right. exists (S k), x'. rewrite Hr. replace (i + S k) with (S i + k) by lia.
           repeat split; auto. intros y Hy Hcy. apply elem_of_cons in Hy.
           destruct Hy as [->|Hy]; [|auto].
           destruct (flt (d x) (d x')) eqn:Hyx; [|reflexivity].
           rewrite <- Hx. symmetry. exact (flt_trans _ _ _ Hyx Hlt).
Qed.

End Scan.

(** ** Eigen's inverse, in exact arithmetic *)

Ltac unfold_matrix :=
  unfold inverse, determinant, identity, madd, mmul, mvmul, vmmul, vadd, vsub,
    vscale, inner, redux, cwiseProduct, dot, row0, row1, row2, col0, col1, col2,
    cofactor00, cofactor01, cofactor02, cofactor10, cofactor11, cofactor12,
    cofactor20, cofactor21, cofactor22 in *;
  cbn [m00 m01 m02 m10 m11 m12 m20 m21 m22 vx vy vz
       aadd asub amul adiv aone azero Qc_arith] in *.

Ltac nonzero :=
  repeat split; match goal with H : _ <> _ |- _ <> _ => exact H end.

Section Algebra.
Local Open Scope Qc_scope.

(** Over the rationals, the matrix Eigen's formula computes is the inverse. *)
Lemma inverse_right (M : mat3 Qc) :
  determinant M <> 0 -> mmul M (inverse M) = identity.
Proof.
  intros HM. destruct M. unfold_matrix. f_equal; field; nonzero.
Qed.

Lemma inverse_left (M : mat3 Qc) :
  determinant M <> 0 -> mmul (inverse M) M = identity.
Proof.
  intros HM. destruct M. unfold_matrix. f_equal; field; nonzero.
Qed.

(** The product of a matrix with a vector from the left and from the right
    is the quadratic form of the matrix. *)
Lemma quadratic_form_expanded (M : mat3 Qc) (v : vec3 Qc) :
  inner (vmmul v M) v =
    m00 M * vx v * vx v + m01 M * vx v * vy v + m02 M * vx v * vz v +
    m10 M * vy v * vx v + m11 M * vy v * vy v + m12 M * vy v * vz v +
    m20 M * vz v * vx v + m21 M * vz v * vy v + m22 M * vz v * vz v.
Proof. destruct M, v. unfold_matrix. ring. Qed.

Lemma vmmul_inverse (M : mat3 Qc) (y : vec3 Qc) :
  determinant M <> 0 -> vmmul (vmmul y M) (inverse M) = y.
Proof.
  intros HM. destruct M, y. unfold_matrix. f_equal; field; nonzero.
Qed.

End Algebra.

Section Association.
Variable initial_state : Z.
Variable auto_id : string -> list Object -> string.

Lemma alter_last {A : Type} (f : A -> A) (l : list A) (x : A) :
  alter f (length l) (l ++ [x]) = l ++ [f x].
Proof.
  replace (length l) with (length l + 0) by lia.
  rewrite alter_app_r. reflexivity.
Qed.

(** What [find_correspondence] returns for a percept that names no object. *)
Lemma find_correspondence_spec (info : PerceptInfo) (position : vec3 float)
  (covariance : mat3 float) (objects : list Object) :
  empty (object_id info) = true ->
  let d := mahalanobis position covariance in
  let candidate x := negb (excluded (class_id info) x) in
  (find_correspondence info position covariance objects = None /\
   forall y, y ∈ objects -> candidate y = true -> flt (d y) fone = false)
  \/
  (exists i x,
      find_correspondence info position covariance objects = Some i /\
      objects !! i = Some x /\ candidate x = true /\ flt (d x) fone = true /\
      forall y, y ∈ objects -> candidate y = true -> flt (d y) (d x) = false).
Proof.
  intros Hid d candidate. unfold find_correspondence. rewrite Hid.
  destruct (scan_spec (class_id info) position covariance objects 0 None fone)
    as [[Hr Hall]|(k & x & Hr & Hk & Hc & Hlt & Hmin)]; rewrite Hr; simpl.
  - left. split; [reflexivity | exact Hall].
  - right. exists k, x. repeat split; auto.
Qed.

(** Without a correspondence, and the percept naming no object, the cycle
    appends a new object that carries the observation. *)
Lemma fusion_cycle_creates (cfg : Config) (percept : PosePercept) (obs : Observation)
  (objects : list Object) :
  empty (object_id (pp_info percept)) = true ->
  find_correspondence (pp_info percept) (obs_position obs) (obs_covariance obs)
    objects = None ->
  fusion_cycle initial_state auto_id cfg percept obs objects =
    Updated
      (objects ++
         [stamp_object cfg percept obs
            (setSupport (obs_support obs)
               (setCovariance (obs_covariance obs)
                  (setPosition (obs_position obs)
                     (new_Object initial_state (class_id (pp_info percept))
                        (auto_id (class_id (pp_info percept)) objects)))))])
      (length objects).
Proof.
  intros Hid Hnone. unfold fusion_cycle.
  rewrite Hnone. simpl. unfold add. rewrite Hid. unfold add_object.
  rewrite alter_last. reflexivity.
Qed.

(** C1. For an observation without object identifier the association computes
    for every candidate the distance [d], the value in [float] of
    [diff^T (S_obj + S_obs)^-1 diff] with [diff] the difference of the
    positions, [S_obj + S_obs] the sum of the covariances and the inverse
    taken by Eigen's cofactor formula.  In exact arithmetic the product
    [diff^T M diff] is the quadratic form of [M], and the matrix the formula
    computes is the inverse of the matrix if its determinant is not zero:
    there [d] is the product of [diff] with the row vector [y] that solves
    [y (S_obj + S_obs) = diff].
    The association returns a candidate only if its [d] is below 1.0 and no
    candidate has a smaller [d], and returns nothing exactly when no
    candidate has [d < 1.0]; then, and so when every candidate has
    [d >= 1.0], the cycle appends a new object that carries the observation,
    the objects of the store being left as they are. *)
Theorem association_gate (cfg : Config) (percept : PosePercept) (obs : Observation)
  (objects : list Object) :
  empty (object_id (pp_info percept)) = true ->
  let info := pp_info percept in
  let d := mahalanobis (obs_position obs) (obs_covariance obs) in
  let candidate x := negb (excluded (class_id info) x) in
  let object :=
    find_correspondence info (obs_position obs) (obs_covariance obs) objects in
  (forall x,
     let p := o_position x in
     let q := obs_position obs in
     let P := o_covariance x in
     let Q := obs_covariance obs in
     let diff := Vec3 (fsub (vx p) (vx q)) (fsub (vy p) (vy q)) (fsub (vz p) (vz q)) in
     let joint :=
       Mat3 (fadd (m00 P) (m00 Q)) (fadd (m01 P) (m01 Q)) (fadd (m02 P) (m02 Q))
            (fadd (m10 P) (m10 Q)) (fadd (m11 P) (m11 Q)) (fadd (m12 P) (m12 Q))
            (fadd (m20 P) (m20 Q)) (fadd (m21 P) (m21 Q)) (fadd (m22 P) (m22 Q)) in
     d x = inner (vmmul diff (inverse joint)) diff)
  /\ (forall (joint : mat3 Qc) (diff y : vec3 Qc),
        (inner (vmmul diff joint) diff =
           m00 joint * vx diff * vx diff + m01 joint * vx diff * vy diff +
           m02 joint * vx diff * vz diff + m10 joint * vy diff * vx diff +
           m11 joint * vy diff * vy diff + m12 joint * vy diff * vz diff +
           m20 joint * vz diff * vx diff + m21 joint * vz diff * vy diff +
           m22 joint * vz diff * vz diff)%Qc
        /\ (determinant joint <> 0%Qc ->
            mmul joint (inverse joint) = identity /\
            mmul (inverse joint) joint = identity /\
            (vmmul y joint = diff ->
             inner (vmmul diff (inverse joint)) diff = inner y diff)))
  /\ (forall i, object = Some i ->
        exists x, objects !! i = Some x /\ candidate x = true /\
          flt (d x) fone = true /\
          forall y, y ∈ objects -> candidate y = true -> flt (d y) (d x) = false)
  /\ (object = None <->
      forall y, y ∈ objects -> candidate y = true -> flt (d y) fone = false)
  /\ ((forall y, y ∈ objects -> candidate y = true -> fle fone (d y) = true) ->
      object = None)
  /\ (object = None ->
      exists o,
        fusion_cycle initial_state auto_id cfg percept obs objects =
          Updated (objects ++ [o]) (length objects) /\
        o_position o = obs_position obs /\
        o_covariance o = obs_covariance obs /\
        o_support o = obs_support obs /\
        o_class_id o = class_id info).
Proof.
  intros Hid info d candidate object. subst info d candidate object.
  split; [reflexivity|].
  split.
  { intros joint diff y.
    split; [exact (quadratic_form_expanded joint diff)|]. intros Hdet.
    split; [exact (inverse_right joint Hdet)|].
    split; [exact (inverse_left joint Hdet)|].
    intros <-. rewrite (vmmul_inverse joint y Hdet). reflexivity. }
  assert (Hcreate :
      find_correspondence (pp_info percept) (obs_position obs) (obs_covariance obs)
        objects = None ->
      exists o,
        fusion_cycle initial_state auto_id cfg percept obs objects =
          Updated (objects ++ [o]) (length objects) /\
        o_position o = obs_position obs /\
        o_covariance o = obs_covariance obs /\
        o_support o = obs_support obs /\
        o_class_id o = class_id (pp_info percept)).
  { intros Hr. eexists.
    split; [apply (fusion_cycle_creates cfg percept obs objects Hid Hr)|].
    repeat split. }
  destruct (find_correspondence_spec (pp_info percept) (obs_position obs)
              (obs_covariance obs) objects Hid)
    as [[Hr Hall]|(k & x & Hr & Hk & Hc & Hlt & Hmin)].
  - split; [|split; [|split]].
    + intros i Hi. rewrite Hr in Hi. discriminate.
    + split; auto.
    + intros _. exact Hr.
    + exact Hcreate.
  - split; [|split; [|split]].
    + intros i Hi. rewrite Hr in Hi. injection Hi as <-. exists x. auto.
    + split.
      * intros Hn. rewrite Hr in Hn. discriminate.
      * intros Hall. exfalso.
        assert (Hx : x ∈ objects) by (apply list_elem_of_lookup; eauto).
        specialize (Hall x Hx Hc). congruence.
    + intros Hge. exfalso.
      assert (Hx : x ∈ objects) by (apply list_elem_of_lookup; eauto).
      specialize (Hge x Hx Hc). apply fle_not_flt in Hge. congruence.
    + exact Hcreate.
Qed.

End Association.

(** The cup at the place of the observation is chosen, the one four metres
    behind it is not. *)
Lemma association_gate_witness :
  exists x,
    [cup_far; cup_0] !! 1 = Some x /\
    negb (excluded (class_id (pp_info percept_cup)) x) = true /\
    flt (mahalanobis (obs_position obs_cup) (obs_covariance obs_cup) x) fone
      = true /\
    forall y, y ∈ [cup_far; cup_0] ->
      negb (excluded (class_id (pp_info percept_cup)) y) = true ->
      flt (mahalanobis (obs_position obs_cup) (obs_covariance obs_cup) y)
        (mahalanobis (obs_position obs_cup) (obs_covariance obs_cup) x) = false.
Proof.
  exact (proj1 (proj2 (proj2 (association_gate 0%Z number_id cfg_map percept_cup
                                obs_cup [cup_far; cup_0] eq_refl))) 1 eq_refl).
Defined.

Example association_near :
  find_correspondence (pp_info percept_cup) (obs_position obs_cup)
    (obs_covariance obs_cup) [cup_far; cup_0] = Some 1
  /\ mahalanobis (obs_position obs_cup) (obs_covariance obs_cup) cup_0 = fzero.
Proof. split; fp_compute. Qed.

(** The gate compares the value computed in [float].  For a cup five metres
    behind the observation and variances of 12.5 the quotient 25 / 25 is 1
    in exact arithmetic; the computed distance is 1 - 2^-24, which is below
    1.0, and the cup is chosen. *)
Example gate_on_computed_distance :
  mahalanobis (obs_position obs_origin) (obs_covariance obs_origin) cup_five
    = FP (S754_finite false 16777215 (-24))
  /\ find_correspondence (pp_info percept_cup) (obs_position obs_origin)
       (obs_covariance obs_origin) [cup_five] = Some 0
  /\ inner (vmmul (Vec3 (Q2Qc 5) 0%Qc 0%Qc)
              (inverse (mat3_map (fun a => (Q2Qc 25 * a)%Qc) identity)))
       (Vec3 (Q2Qc 5) 0%Qc 0%Qc) = 1%Qc.
Proof.
  split; [fp_compute|]. split; [fp_compute|].
  apply Qc_is_canon. reflexivity.
Qed.

(** Alone, the far cup is at the distance 16 / 2 = 8, outside the gate, and
    a new object is made. *)
Example association_far :
  mahalanobis (obs_position obs_cup) (obs_covariance obs_cup) cup_far = of_Z 8 /\
  find_correspondence (pp_info percept_cup) (obs_position obs_cup)
    (obs_covariance obs_cup) [cup_far] = None /\
  (exists o, fusion_cycle 0%Z number_id cfg_map percept_cup obs_cup [cup_far]
               = Updated [cup_far; o] 1).
Proof.
  split; [|split].
  - fp_compute.
  - fp_compute.
  - eexists. vm_compute. reflexivity.
Qed.

(** ** The class hint *)

Lemma eqb_sym (a b : string) : String.eqb a b = String.eqb b a.
Proof.
  destruct (String.eqb_spec a b) as [->|Hne].
  - symmetry. apply String.eqb_refl.
  - symmetry. apply String.eqb_neq. congruence.
Qed.

Lemma excluded_false (class_id : string) (x : Object) :
  empty class_id = false ->
  (excluded class_id x = false <-> o_class_id x = class_id).
Proof.
  intros Hne. unfold excluded. rewrite Hne. simpl.
  destruct (String.eqb_spec class_id (o_class_id x)) as [->|Hdiff]; simpl.
  - split; reflexivity.
  - split; [discriminate | congruence].
Qed.

(** C2, as the code has it.  With a non-empty class hint the candidates of
    the scan are the objects whose class label is the hint: an object without
    class label is excluded like one of another class, and the object the
    association returns has the class of the hint. *)
Theorem class_hint_candidates (info : PerceptInfo) (position : vec3 float)
  (covariance : mat3 float) (objects : list Object) (x : Object) :
  empty (class_id info) = false ->
  (excluded (class_id info) x = false <-> o_class_id x = class_id info)
  /\ (empty (o_class_id x) = true -> excluded (class_id info) x = true)
  /\ (forall i,
        find_correspondence info position covariance objects = Some i ->
        exists y, objects !! i = Some y /\ o_class_id y = class_id info).
Proof.
  intros Hne. split; [exact (excluded_false _ x Hne)|]. split.
  - intros Hx. destruct (excluded (class_id info) x) eqn:E; [reflexivity|].
    apply (excluded_false _ x Hne) in E. rewrite E in Hx. congruence.
  - intros i Hi. destruct (empty (object_id info)) eqn:Hid.
    + destruct (find_correspondence_spec info position covariance objects Hid)
        as [[Hr _]|(k & y & Hr & Hk & Hc & _)].
      * congruence.
      * rewrite Hr in Hi. injection Hi as <-. exists y. split; [exact Hk|].
        apply (excluded_false _ y Hne). apply negb_true_iff in Hc. exact Hc.
    + unfold find_correspondence in Hi. rewrite Hid in Hi. discriminate.
Qed.

Lemma class_hint_candidates_witness :
  empty (class_id (pp_info percept_cup)) = false /\
  (excluded (class_id (pp_info percept_cup)) classless = false <->
   o_class_id classless = class_id (pp_info percept_cup)).
Proof.
  split; [reflexivity|].
  exact (proj1 (class_hint_candidates (pp_info percept_cup) (obs_position obs_cup)
                  (obs_covariance obs_cup) [classless] classless eq_refl)).
Defined.

(** C2 as it is stated fails: an object without class label at the very
    place of an observation of class "cup" is skipped by the scan. *)
Lemma classless_object_not_candidate :
  ~ (forall (class_id : string) (x : Object),
       empty class_id = false -> empty (o_class_id x) = true ->
       excluded class_id x = false)
  /\ flt (mahalanobis (obs_position obs_cup) (obs_covariance obs_cup) classless)
       fone = true
  /\ find_correspondence (pp_info percept_cup) (obs_position obs_cup)
       (obs_covariance obs_cup) [classless] = None.
Proof.
  split; [|split].
  - intros H. specialize (H "cup" classless eq_refl eq_refl). discriminate H.
  - vm_compute. reflexivity.
  - vm_compute. reflexivity.
Qed.

(** ** Percepts that name an object, and objects with a fixed state *)

Section Cycle.
Variable fsqrt : double -> double.
Variable quaternion_from_euler : double -> double -> double -> quat double.
Variable getRotation : mat3 double -> quat double.
Variable projectPixelTo3dRay : PinholeCameraModel -> double -> double -> vec3 double.
Variable initial_state : Z.
Variable DISCARDED : Z.
Variable auto_id : string -> list Object -> string.

Lemma getObject_from_Some (id : string) (objects : list Object) :
  forall (i j : nat) (x : Object),
    getObject_from id objects i = Some (j, x) ->
    exists k, j = i + k /\ objects !! k = Some x /\ o_object_id x = id.
Proof.
  induction objects as [|y rest IH]; intros i j x H; simpl in H; [discriminate|].
  destruct (String.eqb_spec (o_object_id y) id) as [Heq|Hne].
  - injection H as <- <-. exists 0. split; [lia|]. split; [reflexivity | exact Heq].
  - destruct (IH (S i) j x H) as (k & -> & Hk & Hid).
    exists (S k). split; [lia|]. split; [exact Hk | exact Hid].
Qed.

Lemma getObject_Some (id : string) (objects : list Object) (j : nat) (x : Object) :
  getObject id objects = Some (j, x) ->
  objects !! j = Some x /\ o_object_id x = id.
Proof.
  intros H. destruct (getObject_from_Some id objects 0 j x H) as (k & -> & Hk & Hid).
  split; assumption.
Qed.

(** C3, what the code does.  For a percept that names an object the scan is
    skipped and nothing looks the identifier up: no object is associated,
    whatever the store holds, and the cycle takes the branch that creates an
    object, calling [ObjectModel::add] with the identifier.  If the store has
    an object of that identifier, the call is the error of adding an
    identifier twice and the object named by the percept is not updated;
    otherwise a new object of that identifier is appended. *)
Theorem named_percept_not_looked_up (cfg : Config) (percept : PosePercept)
  (obs : Observation) (objects : list Object) :
  empty (object_id (pp_info percept)) = false ->
  find_correspondence (pp_info percept) (obs_position obs) (obs_covariance obs)
    objects = None
  /\ fusion_cycle initial_state auto_id cfg percept obs objects =
       match add initial_state auto_id (class_id (pp_info percept))
               (object_id (pp_info percept)) objects with
       | None => Raised
       | Some (objects', i) =>
           Updated
             (alter (fun o =>
                       stamp_object cfg percept obs
                         (setSupport (obs_support obs)
                            (setCovariance (obs_covariance obs)
                               (setPosition (obs_position obs) o))))
                    i objects') i
       end
  /\ match getObject (object_id (pp_info percept)) objects with
     | Some (j, x) =>
         objects !! j = Some x /\
         o_object_id x = object_id (pp_info percept) /\
         fusion_cycle initial_state auto_id cfg percept obs objects = Raised
     | None =>
         exists o,
           fusion_cycle initial_state auto_id cfg percept obs objects =
             Updated (objects ++ [o]) (length objects) /\
           o_object_id o = object_id (pp_info percept)
     end.
Proof.
  intros Hid.
  assert (Hnone : find_correspondence (pp_info percept) (obs_position obs)
                    (obs_covariance obs) objects = None).
  { unfold find_correspondence. rewrite Hid. reflexivity. }
  assert (Hcycle : fusion_cycle initial_state auto_id cfg percept obs objects =
            match add initial_state auto_id (class_id (pp_info percept))
                    (object_id (pp_info percept)) objects with
            | None => Raised
            | Some (objects', i) =>
                Updated
                  (alter (fun o =>
                            stamp_object cfg percept obs
                              (setSupport (obs_support obs)
                                 (setCovariance (obs_covariance obs)
                                    (setPosition (obs_position obs) o))))
                         i objects') i
            end).
  { unfold fusion_cycle. rewrite Hnone. reflexivity. }
  split; [exact Hnone|]. split; [exact Hcycle|].
  unfold add in Hcycle. rewrite Hid in Hcycle.
  destruct (getObject (object_id (pp_info percept)) objects) as [[j x]|] eqn:Hget.
  - destruct (getObject_Some _ _ _ _ Hget) as [Hj Hx].
    split; [exact Hj|]. split; [exact Hx | exact Hcycle].
  - unfold add_object in Hcycle. rewrite alter_last in Hcycle.
    eexists. split; [exact Hcycle | reflexivity].
Qed.

Lemma has_fixed_state_true (objects : list Object) (i : nat) (x : Object) :
  objects !! i = Some x -> (o_state x < 0)%Z ->
  has_fixed_state objects (Some i) = true.
Proof.
  intros Hi Hx. unfold has_fixed_state. rewrite Hi. apply Z.ltb_lt. exact Hx.
Qed.

(** One percept that is associated with an object of fixed state: the
    callback returns at line 218, the tracker is as it was and nothing is
    published. *)
Lemma posePerceptCb_fixed (cfg : Config) (env : Collaborators)
  (percept : PosePercept) (t : Tracker) :
  associates_to_fixed fsqrt quaternion_from_euler getRotation cfg env percept
    (model t) ->
  posePerceptCb fsqrt quaternion_from_euler getRotation initial_state DISCARDED
    auto_id cfg env percept t = (t, []).
Proof.
  intros (obs & i & x & Hobs & Hfind & Hi & Hx).
  unfold posePerceptCb. rewrite Hobs. unfold fusion_cycle. rewrite Hfind.
  rewrite (has_fixed_state_true _ _ _ Hi Hx). reflexivity.
Qed.

(** C4. Percepts that are associated with an object whose state is fixed
    (negative) have no effect, however many of them arrive: after the
    callbacks have run the tracker is the one they started with, so every
    field of every object is unchanged and no object has been added, and
    nothing has been published. *)
Theorem fixed_state_immutable (cfg : Config)
  (inputs : list (Collaborators * Input)) (t : Tracker) :
  Forall (fun '(env, input) =>
            exists percept,
              input = PosePerceptIn percept /\
              associates_to_fixed fsqrt quaternion_from_euler getRotation cfg env
                percept (model t)) inputs ->
  run fsqrt quaternion_from_euler getRotation projectPixelTo3dRay initial_state
    DISCARDED auto_id cfg inputs t = (t, []).
Proof.
  induction 1 as [|[env input] rest (percept & -> & Hfixed) _ IH]; simpl.
  - reflexivity.
  - rewrite (posePerceptCb_fixed cfg env percept t Hfixed). rewrite IH. reflexivity.
Qed.

End Cycle.

Lemma named_percept_not_looked_up_witness :
  [cup_0] !! 0 = Some cup_0 /\
  o_object_id cup_0 = object_id (pp_info percept_named) /\
  fusion_cycle 0%Z number_id cfg_map percept_named obs_cup [cup_0] = Raised.
Proof.
  exact (proj2 (proj2 (named_percept_not_looked_up 0%Z number_id cfg_map
                         percept_named obs_cup [cup_0] eq_refl))).
Defined.

(** The callback on that percept: the cup of the store is as it was. *)
Example named_percept_callback :
  posePerceptCb sqrt_double euler_zero rotation_identity 0%Z (-2)%Z number_id
    cfg_map env_ok percept_named (tracker_of [cup_0]) = (tracker_of [cup_0], []).
Proof. reflexivity. Qed.

Lemma cup_associates_to_fixed :
  associates_to_fixed sqrt_double euler_zero rotation_identity cfg_map env_ok
    percept_cup [cup_fixed; cup_far].
Proof.
  exists obs_cup, 0, cup_fixed. repeat split.
Defined.

Lemma fixed_state_immutable_witness :
  run sqrt_double euler_zero rotation_identity ray_axis 0%Z (-2)%Z number_id cfg_map
    [(env_ok, PosePerceptIn percept_cup); (env_ok, PosePerceptIn percept_cup);
     (env_ok, PosePerceptIn percept_cup)]
    (tracker_of [cup_fixed; cup_far]) = (tracker_of [cup_fixed; cup_far], []).
Proof.
  apply (fixed_state_immutable sqrt_double euler_zero rotation_identity ray_axis 0%Z (-2)%Z
           number_id cfg_map).
  repeat constructor;
    (exists percept_cup; split; [reflexivity | exact cup_associates_to_fixed]).
Defined.

(** ** The default covariance *)

Section DefaultCovariance.
Variable fsqrt : double -> double.
Variable quaternion_from_euler : double -> double -> double -> quat double.
Variable getRotation : mat3 double -> quat double.

(** C5, as the code has it.  When [posePerceptCb] makes an observation of a
    percept whose 3x3 covariance of the position is zero ([isZero]), the
    covariance of the observation is the rotation, first by the bearing and
    then into the frame of the model, of the matrix that has the configured
    distance variance on the first axis (the bearing) and, on each of the
    two other axes, the configured angle variance times the larger of the
    squared range and 1.0: the squared range itself from a range of one
    metre on, and 1.0 below.  The range is the length of the position or,
    when objects are projected, the distance the ranging service answers.
    The entries off the diagonal are those of the percept. *)
Theorem default_covariance_zero (cfg : Config) (env : Collaborators)
  (percept : PosePercept) (obs : Observation) :
  observe fsqrt quaternion_from_euler getRotation cfg env percept = Some obs ->
  isZero (position_block (covariance (pp_pose percept))) = true ->
  let block := position_block (covariance (pp_pose percept)) in
  let p := position (pose (pp_pose percept)) in
  let direction :=
    quaternion_from_euler (fdiv (vy p) (vx p)) (fdiv (fneg (vz p)) (vx p)) fzero in
  exists distance : float,
    (if _project_objects cfg then
       exists response_distance,
         distanceToObstacle_call env (pp_header percept) p = Some response_distance
         /\ distance = fmax response_distance fzero
     else distance = to_float (vlength fsqrt p))
    /\ let across :=
         to_float (fmul (to_double (fmax (fmul distance distance) fone))
                     (_angle_variance cfg)) in
       let synthesized :=
         Mat3 (to_float (_distance_variance cfg)) (m01 block) (m02 block)
              (m10 block) across (m12 block)
              (m20 block) (m21 block) across in
       let in_camera :=
         rotate_covariance (toRotationMatrix (quat_map to_float direction))
           synthesized in
       (flt (fmul distance distance) fone = false ->
        across = to_float (fmul (to_double (fmul distance distance))
                             (_angle_variance cfg)))
       /\ (flt (fmul distance distance) fone = true ->
           across = to_float (fmul (to_double fone) (_angle_variance cfg)))
       /\ (if negb (empty (_frame_id cfg)) &&
              negb (String.eqb (frame_id (pp_header percept)) (_frame_id cfg))
           then
             exists cameraTransform,
               lookupTransform env (_frame_id cfg) (frame_id (pp_header percept))
                 (stamp (pp_header percept)) = Some cameraTransform
               /\ obs_covariance obs =
                    rotate_covariance
                      (mat3_map to_float
                         (toRotationMatrix (getRotation (basis cameraTransform))))
                      in_camera
           else obs_covariance obs = in_camera).
Proof.
  intros Hobs Hzero block p direction.
  unfold observe, bearing_angles, default_covariance in Hobs.
  cbn [poseMsgToTF origin basis] in Hobs. fold p in Hobs.
  rewrite Hzero in Hobs. fold block in Hobs.
  assert (Hmax : forall distance : float,
             (flt (fmul distance distance) fone = false ->
              fmax (fmul distance distance) fone = fmul distance distance)
             /\ (flt (fmul distance distance) fone = true ->
                 fmax (fmul distance distance) fone = fone)).
  { intros distance. unfold fmax. split; intros ->; reflexivity. }
  destruct (_project_objects cfg).
  - destruct (distanceToObstacle_call env (pp_header percept) p)
      as [response_distance|] eqn:Hcall; [|discriminate].
    destruct (fgt (to_double response_distance) fzero); [|discriminate].
    exists (fmax response_distance fzero).
    split; [exists response_distance; split; reflexivity|].
    destruct (Hmax (fmax response_distance fzero)) as [Hfar Hnear].
    split; [intros H; rewrite (Hfar H); reflexivity|].
    split; [intros H; rewrite (Hnear H); reflexivity|].
    destruct (negb (empty (_frame_id cfg)) && _).
    + destruct (lookupTransform env _ _ _) as [cameraTransform|]; [|discriminate].
      exists cameraTransform. split; [reflexivity|].
      destruct (flt _ _ || fgt _ _); [discriminate|].
      destruct (feqb _ fzero); [discriminate|].
      injection Hobs as <-. reflexivity.
    + destruct (flt _ _ || fgt _ _); [discriminate|].
      destruct (feqb _ fzero); [discriminate|].
      injection Hobs as <-. reflexivity.
  - exists (to_float (vlength fsqrt p)).
    split; [reflexivity|].
    destruct (Hmax (to_float (vlength fsqrt p))) as [Hfar Hnear].
    split; [intros H; rewrite (Hfar H); reflexivity|].
    split; [intros H; rewrite (Hnear H); reflexivity|].
    destruct (negb (empty (_frame_id cfg)) && _).
    + destruct (lookupTransform env _ _ _) as [cameraTransform|]; [|discriminate].
      exists cameraTransform. split; [reflexivity|].
      destruct (flt _ _ || fgt _ _); [discriminate|].
      destruct (feqb _ fzero); [discriminate|].
      injection Hobs as <-. reflexivity.
    + destruct (flt _ _ || fgt _ _); [discriminate|].
      destruct (feqb _ fzero); [discriminate|].
      injection Hobs as <-. reflexivity.
Qed.

End DefaultCovariance.

Lemma default_covariance_zero_witness :
  exists distance : float,
    distance = to_float (vlength sqrt_double (position (pose (pp_pose percept_half))))
    /\ (flt (fmul distance distance) fone = true ->
        to_float (fmul (to_double (fmax (fmul distance distance) fone))
                    (_angle_variance cfg_unit))
        = to_float (fmul (to_double fone) (_angle_variance cfg_unit))).
Proof.
  destruct (default_covariance_zero sqrt_double euler_zero rotation_identity cfg_unit
              env_ok percept_half obs_half eq_refl eq_refl)
    as (distance & Hrange & Hfar & Hnear & _).
  exists distance. split; [exact Hrange | exact Hnear].
Defined.

(** C5 as it is stated fails: for a percept half a metre ahead, in the frame
    of the model and with the angle variance 1, the variance across the
    bearing is 1, not the squared range 1/4. *)
Lemma default_covariance_near :
  ~ (forall fsqrt quaternion_from_euler getRotation cfg env percept obs,
       observe fsqrt quaternion_from_euler getRotation cfg env percept = Some obs ->
       position_block (covariance (pp_pose percept)) = zero_matrix ->
       _project_objects cfg = false ->
       frame_id (pp_header percept) = _frame_id cfg ->
       let p := position (pose (pp_pose percept)) in
       let distance := to_float (vlength fsqrt p) in
       let across :=
         to_float (fmul (to_double (fmul distance distance)) (_angle_variance cfg)) in
       obs_covariance obs =
         rotate_covariance
           (toRotationMatrix
              (quat_map to_float
                 (quaternion_from_euler (fdiv (vy p) (vx p))
                    (fdiv (fneg (vz p)) (vx p)) fzero)))
           (Mat3 (to_float (_distance_variance cfg)) fzero fzero
                 fzero across fzero
                 fzero fzero across))
  /\ observe sqrt_double euler_zero rotation_identity cfg_unit env_ok percept_half
       = Some obs_half
  /\ to_float (vlength sqrt_double (position (pose (pp_pose percept_half)))) = half
  /\ obs_covariance obs_half = diagonal fone fone fone
  /\ rotate_covariance (toRotationMatrix (quat_map to_float identity_quaternion))
       (diagonal fone quarter quarter) = diagonal fone quarter quarter.
Proof.
  split; [|repeat split].
  intros H.
  specialize (H sqrt_double euler_zero rotation_identity cfg_unit env_ok percept_half
                obs_half eq_refl eq_refl eq_refl eq_refl).
  vm_compute in H. discriminate H.
Qed.

(** ** Publication, failures of the direct mutation, the camera models *)

Section Callbacks.
Variable fsqrt : double -> double.
Variable quaternion_from_euler : double -> double -> double -> quat double.
Variable getRotation : mat3 double -> quat double.
Variable projectPixelTo3dRay : PinholeCameraModel -> double -> double -> vec3 double.
Variable initial_state : Z.
Variable DISCARDED : Z.
Variable auto_id : string -> list Object -> string.

(** [posePerceptCb] either returns early, and nothing has changed, or it
    publishes the object and then the model as it has become. *)
Lemma posePerceptCb_publishes (cfg : Config) (env : Collaborators)
  (percept : PosePercept) (t : Tracker) :
  let r := posePerceptCb fsqrt quaternion_from_euler getRotation initial_state
             DISCARDED auto_id cfg env percept t in
  r = (t, []) \/
  exists o, snd r = Publish_object o :: publishModel (model (fst r)).
Proof.
  unfold posePerceptCb.
  destruct (observe _ _ _ cfg env percept) as [obs|]; [|left; reflexivity].
  destruct (fusion_cycle _ _ cfg percept obs (model t)) as [| |objects i];
    try (left; reflexivity).
  destruct (objects !! i) as [request|]; [|left; reflexivity].
  right. eexists. reflexivity.
Qed.

Lemma posePerceptCb_cameraModels (cfg : Config) (env : Collaborators)
  (percept : PosePercept) (t : Tracker) :
  cameraModels (fst (posePerceptCb fsqrt quaternion_from_euler getRotation
                       initial_state DISCARDED auto_id cfg env percept t)) =
    cameraModels t.
Proof.
  unfold posePerceptCb.
  destruct (observe _ _ _ cfg env percept) as [obs|]; [|reflexivity].
  destruct (fusion_cycle _ _ cfg percept obs (model t)) as [| |objects i];
    try reflexivity.
  destruct (objects !! i) as [request|]; reflexivity.
Qed.

Lemma setObjectStateCb_publishes (id : string) (new_state : Z) (t : Tracker) :
  let r := setObjectStateCb id new_state t in
  r = (false, t, []) \/
  exists o, fst (fst r) = true /\
            snd r = Publish_object o :: publishModel (model (snd (fst r))).
Proof.
  unfold setObjectStateCb.
  destruct (getObject id (model t)) as [[i x]|]; [|left; reflexivity].
  right. eexists. split; reflexivity.
Qed.

Lemma addObjectCb_publishes (cfg : Config) (env : Collaborators)
  (request : AddObjectRequest) (t : Tracker) :
  let r := addObjectCb fsqrt getRotation initial_state cfg env request t in
  r = (None, t, []) \/
  exists o, fst (fst r) = Some o /\
            snd r = Publish_object o :: publishModel (model (snd (fst r))).
Proof.
  unfold addObjectCb.
  destruct (prepare_pose _ _ cfg env request) as [[pose1 header]|];
    [|left; reflexivity].
  right.
  destruct (if negb (empty (om_object_id (request_object request)))
            then getObject (om_object_id (request_object request)) (model t)
            else None) as [[i x]|]; eexists; split; reflexivity.
Qed.

(** C7 at the command that resets the model: [sysCommandCb] empties the
    store and publishes nothing, neither on the topic of the model nor
    elsewhere. *)
Theorem reset_not_broadcast (t : Tracker) :
  sysCommandCb "reset" t = ({| model := []; cameraModels := cameraModels t |}, [])
  /\ forall objects, Publish_model objects ∉ snd (sysCommandCb "reset" t).
Proof.
  split; [reflexivity|]. intros objects Hin. simpl in Hin. inversion Hin.
Qed.

(** C8. A create-or-update request of which the mapping to the next
    obstacle fails, or of which the transform to the frame of the model is
    not available, is answered by a failure: the tracker is as it was, no
    object has been added and none has changed, and nothing is published. *)
Theorem addObjectCb_failure (cfg : Config) (env : Collaborators)
  (request : AddObjectRequest) (t : Tracker) :
  (map_to_next_obstacle request = true /\
   mapToNextObstacle fsqrt getRotation cfg env
     (pose (om_pose (request_object request))) (request_header env request) = None)
  \/ lookupTransform env (_frame_id cfg) (frame_id (request_header env request))
       (stamp (request_header env request)) = None ->
  addObjectCb fsqrt getRotation initial_state cfg env request t = (None, t, []).
Proof.
  intros Hfail.
  assert (Hprep : prepare_pose fsqrt getRotation cfg env request = None).
  { unfold prepare_pose. destruct Hfail as [[Hmap Hnone]|Htf].
    - rewrite Hmap, Hnone. reflexivity.
    - destruct (if map_to_next_obstacle request then _ else _) as [pose0|];
        [|reflexivity].
      unfold transformPoseWithCovariance, transformPose.
      destruct (isZero _); simpl; rewrite Htf; reflexivity. }
  unfold addObjectCb. rewrite Hprep. reflexivity.
Qed.

(** The mapping to the next obstacle fails when the ranging service is not
    there, when its call fails and when the distance it answers is not
    positive. *)
Lemma mapToNextObstacle_fails (cfg : Config) (env : Collaborators)
  (source : Pose) (header : Header) :
  distanceToObstacle_exists env = false \/
  distanceToObstacle_call env header (position source) = None \/
  (exists distance,
      distanceToObstacle_call env header (position source) = Some distance /\
      fgt (to_double distance) fzero = false) ->
  mapToNextObstacle fsqrt getRotation cfg env source header = None.
Proof.
  unfold mapToNextObstacle. intros [Hex|[Hcall|(distance & Hcall & Hle)]].
  - rewrite Hex. reflexivity.
  - rewrite Hcall. destruct (negb _); reflexivity.
  - rewrite Hcall, Hle. destruct (negb _); reflexivity.
Qed.

End Callbacks.

(** The reset of a model of two cups: the model is empty and no message
    tells so. *)
Example reset_two_cups :
  sysCommandCb "reset" (tracker_of [cup_0; cup_far]) = (tracker_of [], []).
Proof. reflexivity. Qed.

(** A change of state on the same model is followed by the object and the
    model on their topics. *)
Example set_state_two_cups :
  let '(found, t, events) :=
    setObjectStateCb "cup_1" (-1)%Z (tracker_of [cup_0; cup_far]) in
  found = true /\
  model t = [cup_0; setState (-1)%Z cup_far] /\
  events = Publish_object (setState (-1)%Z cup_far) :: publishModel (model t).
Proof. repeat split. Qed.

Lemma addObjectCb_failure_witness :
  addObjectCb sqrt_double rotation_identity 0%Z cfg_map env_no_range
    (request_cup true) (tracker_of [cup_0]) = (None, tracker_of [cup_0], []).
Proof.
  apply (addObjectCb_failure sqrt_double rotation_identity 0%Z cfg_map env_no_range
           (request_cup true) (tracker_of [cup_0])).
  left. split; reflexivity.
Defined.

(** The same request when tf has no transform for the frame of the camera. *)
Example addObjectCb_no_transform :
  addObjectCb sqrt_double rotation_identity 0%Z cfg_map env_no_transform
    (request_cup false) (tracker_of [cup_0]) = (None, tracker_of [cup_0], []).
Proof. reflexivity. Qed.

(** ** The division by the forward component *)

Lemma fdiv_zero {f : format} (a b : fp f) :
  is_zero b = true -> is_finite (fdiv a b) = false.
Proof.
  destruct a as [[sa|sa| |sa ma ea]], b as [[sb|sb| |sb mb eb]];
    try discriminate; reflexivity.
Qed.

Section Bearing.
Variable fsqrt : double -> double.
Variable quaternion_from_euler : double -> double -> double -> quat double.
Variable getRotation : mat3 double -> quat double.
Variable projectPixelTo3dRay : PinholeCameraModel -> double -> double -> vec3 double.

(** C9, as the code has it.  Nothing guards the two divisions by the
    forward component, neither in the adapter nor in [posePerceptCb]: the
    constructor of the quaternion is handed the two quotients as they are,
    in the adapter those of the ray and in [posePerceptCb] those of the
    position of the percept, and a forward component of zero makes both
    quotients an infinity or a NaN. *)
Theorem bearing_division_unguarded (cfg : Config) (env : Collaborators)
  (cameraModel : PinholeCameraModel) (image : ImagePercept) (percept : PosePercept) :
  (let direction_cv :=
     projectPixelTo3dRay cameraModel (fst (region_centre image))
       (snd (region_centre image)) in
   orientation (bearing_pose fsqrt quaternion_from_euler projectPixelTo3dRay
                  cfg cameraModel image) =
     quaternion_from_euler
       (fdiv (fneg (vx direction_cv)) (vz direction_cv))
       (fdiv (fneg (fneg (vy direction_cv))) (vz direction_cv))
       fzero)
  /\ (let p := position (pose (pp_pose percept)) in
      observe fsqrt quaternion_from_euler getRotation cfg env percept =
        observe fsqrt
          (fun _ _ _ =>
             quaternion_from_euler (fdiv (vy p) (vx p)) (fdiv (fneg (vz p)) (vx p))
               fzero)
          getRotation cfg env percept)
  /\ (forall v : vec3 double,
        is_zero (vx v) = true ->
        let '(yaw, pitch, _) := bearing_angles v in
        is_finite yaw = false /\ is_finite pitch = false).
Proof.
  split; [reflexivity|]. split; [reflexivity|].
  intros v Hzero. unfold bearing_angles.
  split; apply fdiv_zero; exact Hzero.
Qed.

End Bearing.

(** C9 as it is stated fails: the position (0, 1, 0) has the forward
    component zero, the first quotient is an infinity and the second a NaN,
    and [posePerceptCb] hands both to the constructor of the quaternion. *)
Lemma bearing_division_by_zero :
  ~ (forall v : vec3 double,
       vec3_finite v = true ->
       let '(yaw, pitch, _) := bearing_angles v in
       is_finite yaw = true /\ is_finite pitch = true)
  /\ bearing_angles (position (pose (pp_pose percept_side))) = (finf, fnan, fzero)
  /\ (forall quaternion_from_euler,
        observe sqrt_double quaternion_from_euler rotation_identity cfg_map env_ok
          percept_side =
        observe sqrt_double (fun _ _ _ => quaternion_from_euler finf fnan fzero)
          rotation_identity cfg_map env_ok percept_side).
Proof.
  assert (H0 : bearing_angles (position (pose (pp_pose percept_side)))
               = (finf, fnan, fzero)).
  { vm_compute. reflexivity. }
  split; [|split; [exact H0 | reflexivity]].
  intros H. specialize (H (position (pose (pp_pose percept_side))) eq_refl).
  rewrite H0 in H. destruct H as [H _]. discriminate H.
Qed.

(** ** The cache of camera models *)

Section CameraModels.
Variable fsqrt : double -> double.
Variable quaternion_from_euler : double -> double -> double -> quat double.
Variable getRotation : mat3 double -> quat double.
Variable projectPixelTo3dRay : PinholeCameraModel -> double -> double -> vec3 double.
Variable initial_state : Z.
Variable DISCARDED : Z.
Variable auto_id : string -> list Object -> string.
Variable cfg : Config.

Local Abbreviation run_tracker :=
  (run fsqrt quaternion_from_euler getRotation projectPixelTo3dRay initial_state
     DISCARDED auto_id cfg).
Local Abbreviation step_tracker :=
  (step fsqrt quaternion_from_euler getRotation projectPixelTo3dRay initial_state
     DISCARDED auto_id cfg).

Lemma get_camera_model_lookup (percept : ImagePercept)
  (models : gmap string PinholeCameraModel) (frame : string) :
  fst (get_camera_model percept models) !! frame =
    cached models frame
      (if String.eqb (frame_id (ip_header percept)) frame
       then Some (camera_info percept) else None).
Proof.
  unfold get_camera_model, cached.
  destruct (String.eqb_spec (frame_id (ip_header percept)) frame) as [->|Hne].
  - destruct (models !! frame) as [m|] eqn:Hm; simpl.
    + rewrite Hm. reflexivity.
    + rewrite lookup_insert_eq. reflexivity.
  - destruct (models !! frame_id (ip_header percept)) as [m|] eqn:Hm; simpl.
    + destruct (models !! frame); reflexivity.
    + rewrite lookup_insert_ne by exact Hne. destruct (models !! frame); reflexivity.
Qed.

Lemma imagePerceptCb_cameraModels (env : Collaborators) (percept : ImagePercept)
  (t : Tracker) :
  cameraModels (fst (imagePerceptCb fsqrt quaternion_from_euler getRotation
                       projectPixelTo3dRay initial_state DISCARDED auto_id cfg env
                       percept t)) =
    fst (get_camera_model percept (cameraModels t)).
Proof.
  unfold imagePerceptCb.
  destruct (get_camera_model percept (cameraModels t)) as [models cameraModel].
  rewrite posePerceptCb_cameraModels. reflexivity.
Qed.

(** Only an image percept writes the cache, and only for a frame that has
    no camera model yet. *)
Lemma step_cameraModels (env : Collaborators) (input : Input) (t : Tracker)
  (frame : string) :
  cameraModels (fst (step_tracker env input t)) !! frame =
    cached (cameraModels t) frame (first_camera_info frame [(env, input)]).
Proof.
  destruct input as [sysCommand|percept|percept|id s|request]; simpl.
  - unfold sysCommandCb, cached. destruct (String.eqb sysCommand "reset"); simpl;
      destruct (cameraModels t !! frame); reflexivity.
  - rewrite imagePerceptCb_cameraModels, get_camera_model_lookup.
    destruct (String.eqb _ frame); reflexivity.
  - rewrite posePerceptCb_cameraModels. unfold cached.
    destruct (cameraModels t !! frame); reflexivity.
  - unfold setObjectStateCb, cached.
    destruct (getObject id (model t)) as [[i x]|]; simpl;
      destruct (cameraModels t !! frame); reflexivity.
  - unfold addObjectCb, cached.
    destruct (prepare_pose _ _ cfg env request) as [[pose1 header]|]; simpl.
    + destruct (if negb _ then _ else _) as [[i x]|]; simpl;
        destruct (cameraModels t !! frame); reflexivity.
    + destruct (cameraModels t !! frame); reflexivity.
Qed.

Lemma run_cameraModels (inputs : list (Collaborators * Input)) :
  forall (t : Tracker) (frame : string),
    cameraModels (fst (run_tracker inputs t)) !! frame =
      cached (cameraModels t) frame (first_camera_info frame inputs).
Proof.
  induction inputs as [|[env input] rest IH]; intros t frame.
  - simpl. unfold cached. destruct (cameraModels t !! frame); reflexivity.
  - simpl.
    pose proof (step_cameraModels env input t frame) as Hstep.
    destruct (step_tracker env input t) as [t1 events1].
    specialize (IH t1 frame).
    destruct (run_tracker rest t1) as [t2 events2]. simpl in *.
    rewrite IH. unfold cached in *. rewrite Hstep.
    destruct (cameraModels t !! frame); [reflexivity|].
    destruct input as [s|percept|percept|id s|request]; simpl; try reflexivity.
    destruct (String.eqb _ frame); reflexivity.
Qed.

(** The camera model [imagePerceptCb] projects with is the one of the
    cache, after the calibration of the percept was stored if the cache held
    none for its frame. *)
Lemma imagePerceptCb_projection (env : Collaborators) (percept : ImagePercept)
  (t : Tracker) (cameraModel : PinholeCameraModel) :
  cached (cameraModels t) (frame_id (ip_header percept))
    (Some (camera_info percept)) = Some cameraModel ->
  imagePerceptCb fsqrt quaternion_from_euler getRotation projectPixelTo3dRay
    initial_state DISCARDED auto_id cfg env percept t =
  posePerceptCb fsqrt quaternion_from_euler getRotation initial_state DISCARDED
    auto_id cfg env (forwarded_percept fsqrt quaternion_from_euler
                       projectPixelTo3dRay cfg cameraModel percept)
    {| model := model t;
       cameraModels :=
         <[frame_id (ip_header percept) := cameraModel]> (cameraModels t) |}.
Proof.
  unfold cached, imagePerceptCb, get_camera_model.
  destruct (cameraModels t !! frame_id (ip_header percept)) as [m|] eqn:Hm.
  - intros [= <-]. rewrite (insert_id _ _ _ Hm). reflexivity.
  - intros [= <-]. reflexivity.
Qed.

(** C10. Whatever the callbacks that have run, the camera model the cache
    holds for a frame is the one it held at the start or, if it held none,
    the one made of the calibration of the first image percept of that
    frame.  An image percept that comes after them is projected with this
    camera model: [imagePerceptCb] behaves as [posePerceptCb] on the percept
    whose ray is [projectPixelTo3dRay] of a camera model that, for a frame
    without camera model at the start, holds the calibration of the first
    image percept of the frame among the earlier inputs, and the
    calibration of the percept itself only if there was none.  When the
    cache holds a camera model for the frame, the calibration the percept
    carries is ignored: the callback does the same whatever it is. *)
Theorem camera_model_first_write_wins (inputs : list (Collaborators * Input))
  (t : Tracker) (frame : string) (env : Collaborators) (percept : ImagePercept) :
  let t1 := fst (run_tracker inputs t) in
  let calibration :=
    default (camera_info percept)
      (first_camera_info (frame_id (ip_header percept)) inputs) in
  cameraModels t1 !! frame =
    cached (cameraModels t) frame (first_camera_info frame inputs)
  /\ exists cameraModel,
       cached (cameraModels t) (frame_id (ip_header percept)) (Some calibration)
         = Some cameraModel
       /\ (cameraModels t !! frame_id (ip_header percept) = None ->
           cam_info cameraModel = Some calibration)
       /\ imagePerceptCb fsqrt quaternion_from_euler getRotation projectPixelTo3dRay
            initial_state DISCARDED auto_id cfg env percept t1 =
          posePerceptCb fsqrt quaternion_from_euler getRotation initial_state
            DISCARDED auto_id cfg env
            (forwarded_percept fsqrt quaternion_from_euler projectPixelTo3dRay cfg
               cameraModel percept)
            {| model := model t1;
               cameraModels :=
                 <[frame_id (ip_header percept) := cameraModel]> (cameraModels t1) |}
       /\ (is_Some (cameraModels t1 !! frame_id (ip_header percept)) ->
           forall info,
             imagePerceptCb fsqrt quaternion_from_euler getRotation
               projectPixelTo3dRay initial_state DISCARDED auto_id cfg env
               (with_camera_info info percept) t1 =
             imagePerceptCb fsqrt quaternion_from_euler getRotation
               projectPixelTo3dRay initial_state DISCARDED auto_id cfg env
               percept t1)
       /\ position (pose (pp_pose
            (forwarded_percept fsqrt quaternion_from_euler projectPixelTo3dRay cfg
               cameraModel percept))) =
          (let direction_cv :=
             projectPixelTo3dRay cameraModel (fst (region_centre percept))
               (snd (region_centre percept)) in
           vscale (normalized fsqrt (Vec3 (vz direction_cv) (fneg (vx direction_cv))
                                       (fneg (vy direction_cv))))
             (_default_distance cfg)).
Proof.
  intros t1 calibration. split; [apply run_cameraModels|].
  pose proof (run_cameraModels inputs t (frame_id (ip_header percept))) as Hrun.
  fold t1 in Hrun.
  assert (Hcached : exists cameraModel,
             cached (cameraModels t) (frame_id (ip_header percept))
               (Some calibration) = Some cameraModel
             /\ (cameraModels t !! frame_id (ip_header percept) = None ->
                 cam_info cameraModel = Some calibration)
             /\ cached (cameraModels t1) (frame_id (ip_header percept))
                  (Some (camera_info percept)) = Some cameraModel).
  { unfold cached in *. rewrite Hrun. subst calibration.
    destruct (cameraModels t !! frame_id (ip_header percept)) as [m|].
    - exists m. split; [reflexivity|]. split; [discriminate | reflexivity].
    - destruct (first_camera_info _ inputs) as [info|]; simpl;
        eexists; split; try reflexivity; split; reflexivity. }
  destruct Hcached as (cameraModel & Hstart & Hinfo & Hnow).
  exists cameraModel. split; [exact Hstart|]. split; [exact Hinfo|].
  split; [exact (imagePerceptCb_projection env percept t1 cameraModel Hnow)|].
  split; [|reflexivity].
  intros [m Hm] info. unfold imagePerceptCb, get_camera_model.
  cbn [with_camera_info ip_header]. rewrite Hm. reflexivity.
Qed.

End CameraModels.

(** ** Zeros, infinities and NaN *)

Section Zeros.
Context {f : format}.
Implicit Types a b c : fp f.

Lemma fsub_diag a : is_finite a = true -> fsub a a = fzero.
Proof.
  destruct a as [[s|s| |s m e]]; try discriminate; intros _.
  - destruct s; reflexivity.
  - unfold fsub, fzero. cbn [value]. unfold SFsub. rewrite Z.sub_diag. reflexivity.
Qed.

Lemma fsub_diag_nan a : is_finite a = false -> fsub a a = fnan.
Proof.
  destruct a as [[s|s| |s m e]]; try discriminate; intros _;
    try destruct s; reflexivity.
Qed.

Lemma fmul_zero_finite a b :
  is_zero a = true -> is_finite b = true -> is_zero (fmul a b) = true.
Proof.
  destruct a as [[sa|sa| |sa ma ea]], b as [[sb|sb| |sb mb eb]];
    try discriminate; reflexivity.
Qed.

Lemma fmul_zero_not_finite a b :
  is_zero a = true -> is_finite b = false -> fmul a b = fnan.
Proof.
  destruct a as [[sa|sa| |sa ma ea]], b as [[sb|sb| |sb mb eb]];
    try discriminate; reflexivity.
Qed.

Lemma fmul_nan_l b : fmul fnan b = fnan.
Proof. destruct b as [[sb|sb| |sb mb eb]]; reflexivity. Qed.

Lemma fmul_nan_r a : fmul a fnan = fnan.
Proof. destruct a as [[sa|sa| |sa ma ea]]; reflexivity. Qed.

Lemma fadd_zero a b :
  is_zero a = true -> is_zero b = true -> is_zero (fadd a b) = true.
Proof.
  destruct a as [[sa|sa| |sa ma ea]], b as [[sb|sb| |sb mb eb]];
    try discriminate; destruct sa, sb; reflexivity.
Qed.

Lemma fadd_nan_l b : fadd fnan b = fnan.
Proof. destruct b as [[sb|sb| |sb mb eb]]; reflexivity. Qed.

Lemma fadd_nan_r a : fadd a fnan = fnan.
Proof. destruct a as [[sa|sa| |sa ma ea]]; reflexivity. Qed.

Lemma is_zero_finite a : is_zero a = true -> is_finite a = true.
Proof. destruct a as [[sa|sa| |sa ma ea]]; try discriminate; reflexivity. Qed.

Lemma fmul_zero_l a b : is_zero a = true -> zero_or_nan (fmul a b).
Proof.
  intros Ha. destruct (is_finite b) eqn:Hb.
  - left. apply fmul_zero_finite; assumption.
  - right. apply fmul_zero_not_finite; assumption.
Qed.

Lemma fmul_zero_r a b : zero_or_nan a -> is_zero b = true -> zero_or_nan (fmul a b).
Proof.
  intros [Ha| ->] Hb.
  - left. apply fmul_zero_finite; [exact Ha | apply is_zero_finite; exact Hb].
  - right. apply fmul_nan_l.
Qed.

Lemma fadd_zero_or_nan a b : zero_or_nan a -> zero_or_nan b -> zero_or_nan (fadd a b).
Proof.
  intros [Ha| ->] [Hb| ->].
  - left. apply fadd_zero; assumption.
  - right. apply fadd_nan_r.
  - right. apply fadd_nan_l.
  - right. apply fadd_nan_l.
Qed.

(** A sum is a zero only if both of its terms are, when each is a zero or
    a NaN. *)
Lemma fadd_is_zero a b :
  zero_or_nan a -> zero_or_nan b ->
  is_zero (fadd a b) = is_zero a && is_zero b.
Proof.
  intros [Ha| ->] [Hb| ->].
  - rewrite Ha, Hb. apply fadd_zero; assumption.
  - rewrite fadd_nan_r. rewrite andb_false_r. reflexivity.
  - rewrite fadd_nan_l. reflexivity.
  - rewrite fadd_nan_l. reflexivity.
Qed.

Lemma fmul_is_zero_l a b :
  is_zero a = true -> is_zero (fmul a b) = is_finite b.
Proof.
  intros Ha. destruct (is_finite b) eqn:Hb.
  - apply fmul_zero_finite; assumption.
  - rewrite fmul_zero_not_finite by assumption. reflexivity.
Qed.

Lemma fmul_is_zero_r a b :
  zero_or_nan a -> is_zero b = true -> is_zero (fmul a b) = is_zero a.
Proof.
  intros [Ha| ->] Hb.
  - rewrite Ha. apply fmul_zero_finite; [exact Ha | apply is_zero_finite; exact Hb].
  - rewrite fmul_nan_l. reflexivity.
Qed.

End Zeros.

Lemma zero_below_one (a : float) : is_zero a = true -> flt a fone = true.
Proof. destruct a as [[s|s| |s m e]]; try discriminate; reflexivity. Qed.

Lemma not_zero_or_nan_below_one (a : float) :
  zero_or_nan a -> flt a fone = is_zero a.
Proof.
  intros [Ha| ->].
  - rewrite Ha. apply zero_below_one. exact Ha.
  - reflexivity.
Qed.

Section ZeroDifference.
Context {f : format}.
Implicit Types a b c : fp f.

Lemma fsub_diag_zero_or_nan a :
  zero_or_nan (fsub a a) /\ is_zero (fsub a a) = is_finite a.
Proof.
  destruct (is_finite a) eqn:Ha.
  - rewrite (fsub_diag a Ha). split; [left|]; reflexivity.
  - rewrite (fsub_diag_nan a Ha). split; [right|]; reflexivity.
Qed.

Lemma fmul_zero_or_nan_l a b :
  zero_or_nan a ->
  zero_or_nan (fmul a b) /\ is_zero (fmul a b) = is_zero a && is_finite b.
Proof.
  intros [Ha| ->].
  - split; [apply fmul_zero_l; exact Ha|].
    rewrite Ha. apply fmul_is_zero_l. exact Ha.
  - rewrite fmul_nan_l. split; [right|]; reflexivity.
Qed.

Lemma fmul_zero_or_nan a b :
  zero_or_nan a -> zero_or_nan b ->
  zero_or_nan (fmul a b) /\ is_zero (fmul a b) = is_zero a && is_zero b.
Proof.
  intros Ha [Hb| ->].
  - split; [apply fmul_zero_r; assumption|].
    rewrite Hb, andb_true_r. apply fmul_is_zero_r; assumption.
  - rewrite fmul_nan_r, andb_false_r. split; [right|]; reflexivity.
Qed.

(** The product of a row of zeros and NaN with a column. *)
Lemma dot_zero_or_nan (u v : vec3 (fp f)) :
  zero_or_nan (vx u) -> zero_or_nan (vy u) -> zero_or_nan (vz u) ->
  zero_or_nan (dot u v) /\
  is_zero (dot u v) = vec3_all is_zero u && vec3_all is_finite v.
Proof.
  destruct u as [u0 u1 u2], v as [v0 v1 v2]. unfold dot, vec3_all.
  cbn [vx vy vz aadd amul fp_arith]. intros H0 H1 H2.
  destruct (fmul_zero_or_nan_l u0 v0 H0) as [Z0 E0].
  destruct (fmul_zero_or_nan_l u1 v1 H1) as [Z1 E1].
  destruct (fmul_zero_or_nan_l u2 v2 H2) as [Z2 E2].
  pose proof (fadd_zero_or_nan _ _ Z0 Z1) as Z01.
  split; [apply fadd_zero_or_nan; assumption|].
  rewrite (fadd_is_zero _ _ Z01 Z2), (fadd_is_zero _ _ Z0 Z1), E0, E1, E2.
  destruct (is_zero u0), (is_zero u1), (is_zero u2), (is_finite v0),
    (is_finite v1), (is_finite v2); reflexivity.
Qed.

Lemma inner_zero_or_nan (u v : vec3 (fp f)) :
  zero_or_nan (vx u) -> zero_or_nan (vy u) -> zero_or_nan (vz u) ->
  zero_or_nan (vx v) -> zero_or_nan (vy v) -> zero_or_nan (vz v) ->
  zero_or_nan (inner u v) /\
  is_zero (inner u v) = vec3_all is_zero u && vec3_all is_zero v.
Proof.
  destruct u as [u0 u1 u2], v as [v0 v1 v2]. unfold inner, redux, cwiseProduct, vec3_all.
  cbn [vx vy vz aadd amul fp_arith]. intros H0 H1 H2 K0 K1 K2.
  destruct (fmul_zero_or_nan u0 v0 H0 K0) as [Z0 E0].
  destruct (fmul_zero_or_nan u1 v1 H1 K1) as [Z1 E1].
  destruct (fmul_zero_or_nan u2 v2 H2 K2) as [Z2 E2].
  pose proof (fadd_zero_or_nan _ _ Z1 Z2) as Z12.
  split; [apply fadd_zero_or_nan; assumption|].
  rewrite (fadd_is_zero _ _ Z0 Z12), (fadd_is_zero _ _ Z1 Z2), E0, E1, E2.
  destruct (is_zero u0), (is_zero u1), (is_zero u2), (is_zero v0),
    (is_zero v1), (is_zero v2); reflexivity.
Qed.

(** The quadratic form of the difference of a position with itself: a zero
    if the position and the matrix are finite, and NaN otherwise. *)
Lemma quadratic_form_same (p : vec3 (fp f)) (M : mat3 (fp f)) :
  let diff := vsub p p in
  zero_or_nan (inner (vmmul diff M) diff) /\
  is_zero (inner (vmmul diff M) diff) = vec3_finite p && mat3_finite M.
Proof.
  destruct p as [p0 p1 p2]. unfold vsub. cbn [vx vy vz asub fp_arith].
  destruct (fsub_diag_zero_or_nan p0) as [Z0 E0].
  destruct (fsub_diag_zero_or_nan p1) as [Z1 E1].
  destruct (fsub_diag_zero_or_nan p2) as [Z2 E2].
  set (diff := Vec3 (fsub p0 p0) (fsub p1 p1) (fsub p2 p2)).
  destruct (dot_zero_or_nan diff (col0 M) Z0 Z1 Z2) as [T0 F0].
  destruct (dot_zero_or_nan diff (col1 M) Z0 Z1 Z2) as [T1 F1].
  destruct (dot_zero_or_nan diff (col2 M) Z0 Z1 Z2) as [T2 F2].
  destruct (inner_zero_or_nan (vmmul diff M) diff T0 T1 T2 Z0 Z1 Z2) as [Zd Ed].
  split; [exact Zd|]. rewrite Ed.
  unfold vec3_all at 1. unfold vmmul. cbn [vx vy vz]. rewrite F0, F1, F2.
  unfold vec3_finite, mat3_finite, mat3_all, vec3_all, diff, col0, col1, col2.
  cbn [vx vy vz]. rewrite E0, E1, E2. destruct M. cbn [m00 m01 m02 m10 m11 m12 m20 m21 m22].
  repeat match goal with
         | |- context [is_finite ?a] =>
             let b := fresh "b" in generalize (is_finite a); intros b
         end.
  repeat match goal with b : bool |- _ => destruct b end; reflexivity.
Qed.

End ZeroDifference.

(** ** Repeated observations *)

Section Repeated.
Variable fsqrt : double -> double.
Variable quaternion_from_euler : double -> double -> double -> quat double.
Variable getRotation : mat3 double -> quat double.
Variable initial_state : Z.
Variable DISCARDED : Z.
Variable auto_id : string -> list Object -> string.
Variable cfg : Config.

Local Abbreviation callback :=
  (posePerceptCb fsqrt quaternion_from_euler getRotation initial_state DISCARDED
     auto_id cfg).
Local Abbreviation cycle := (fusion_cycle initial_state auto_id cfg).

(** The verification leaves the estimate, the identifier and the class of
    an object as they are. *)
Lemma verify_estimate (services : list (Object -> option VerifyResponse))
  (request o : Object) :
  o_position (verify DISCARDED services request o) = o_position o
  /\ o_covariance (verify DISCARDED services request o) = o_covariance o
  /\ o_class_id (verify DISCARDED services request o) = o_class_id o.
Proof.
  revert o. induction services as [|service rest IH]; intros o; simpl.
  - repeat split.
  - destruct (service request) as [[| |]|].
    + apply IH.
    + destruct (IH (addSupport (of_Z 100) o)) as (-> & -> & ->). repeat split.
    + destruct (IH (setState DISCARDED o)) as (-> & -> & ->). repeat split.
    + apply IH.
Qed.

(** The distance of an observation to an object at its position. *)
Lemma mahalanobis_same (position : vec3 float) (covariance : mat3 float)
  (x : Object) :
  o_position x = position ->
  let d := mahalanobis position covariance x in
  zero_or_nan d /\
  flt d fone =
    vec3_finite position && mat3_finite (inverse (madd (o_covariance x) covariance)).
Proof.
  intros <- d. subst d. unfold mahalanobis.
  destruct (quadratic_form_same (o_position x)
              (inverse (madd (o_covariance x) covariance))) as [Hz He].
  split; [exact Hz|]. rewrite <- He. apply not_zero_or_nan_below_one. exact Hz.
Qed.

(** The first observation makes the object. *)
Lemma first_observation (env : Collaborators) (percept : PosePercept)
  (obs : Observation) (t : Tracker) :
  model t = [] ->
  empty (object_id (pp_info percept)) = true ->
  observe fsqrt quaternion_from_euler getRotation cfg env percept = Some obs ->
  exists o1,
    model (fst (callback env percept t)) = [o1]
    /\ o_position o1 = obs_position obs
    /\ o_covariance o1 = obs_covariance obs
    /\ o_class_id o1 = class_id (pp_info percept).
Proof.
  intros Hmodel Hid Hobs. unfold posePerceptCb. rewrite Hobs, Hmodel.
  rewrite (fusion_cycle_creates initial_state auto_id cfg percept obs [] Hid)
    by (unfold find_correspondence; rewrite Hid; reflexivity).
  cbn [app length lookup list_lookup fst model].
  eexists. split; [reflexivity|].
  match goal with
  | |- context [verify _ ?s ?r ?o] =>
      destruct (verify_estimate s r o) as (-> & -> & ->)
  end.
  repeat split.
Qed.

(** A further observation at the position of the one object of the store. *)
Lemma second_observation (env : Collaborators) (percept : PosePercept)
  (obs : Observation) (t : Tracker) (o1 : Object) :
  model t = [o1] ->
  o_position o1 = obs_position obs ->
  o_covariance o1 = obs_covariance obs ->
  o_class_id o1 = class_id (pp_info percept) ->
  empty (object_id (pp_info percept)) = true ->
  observe fsqrt quaternion_from_euler getRotation cfg env percept = Some obs ->
  let finite :=
    vec3_finite (obs_position obs) &&
    mat3_finite (inverse (madd (obs_covariance obs) (obs_covariance obs))) in
  find_correspondence (pp_info percept) (obs_position obs) (obs_covariance obs)
    (model t) = (if finite then Some 0 else None)
  /\ length (model (fst (callback env percept t))) = (if finite then 1 else 2).
Proof.
  intros Hmodel Hpos Hcov Hclass Hid Hobs finite.
  destruct (mahalanobis_same (obs_position obs) (obs_covariance obs) o1 Hpos)
    as [_ Hgate].
  rewrite Hcov in Hgate. fold finite in Hgate.
  assert (Hfind : find_correspondence (pp_info percept) (obs_position obs)
                    (obs_covariance obs) [o1] = (if finite then Some 0 else None)).
  { unfold find_correspondence. rewrite Hid. cbn [scan].
    unfold excluded. rewrite Hclass, String.eqb_refl, andb_false_r.
    rewrite Hgate. destruct finite; reflexivity. }
  rewrite Hmodel. split; [exact Hfind|].
  unfold posePerceptCb. rewrite Hobs, Hmodel.
  destruct finite.
  - unfold fusion_cycle. rewrite Hfind. unfold has_fixed_state.
    cbn [lookup list_lookup].
    destruct (o_state o1 <? 0)%Z; [cbn [fst]; rewrite Hmodel; reflexivity|].
    destruct (fgt (to_double (obs_support obs)) fzero); reflexivity.
  - rewrite (fusion_cycle_creates initial_state auto_id cfg percept obs [o1] Hid Hfind).
    reflexivity.
Qed.

(** C6, as the code has it.  An observation without object identifier fed
    twice into the empty model: the first makes one object, at the position
    and with the covariance of the observation.  The second is at a
    computed distance of zero of it, is associated with it and leaves one
    object, exactly when the position is finite and the inverse Eigen
    computes of the doubled covariance is finite; it is then fused into the
    object by [Object::update] if its support is positive and the state of
    the object is not fixed.  Otherwise the computed distance is NaN, which
    is not below 1.0, nothing is associated, and the second observation
    makes a second object. *)
Theorem repeated_observation_one_object (env1 env2 : Collaborators)
  (percept : PosePercept) (obs : Observation) (t : Tracker) :
  model t = [] ->
  empty (object_id (pp_info percept)) = true ->
  observe fsqrt quaternion_from_euler getRotation cfg env1 percept = Some obs ->
  observe fsqrt quaternion_from_euler getRotation cfg env2 percept = Some obs ->
  let t1 := fst (callback env1 percept t) in
  let t2 := fst (callback env2 percept t1) in
  let finite :=
    vec3_finite (obs_position obs) &&
    mat3_finite (inverse (madd (obs_covariance obs) (obs_covariance obs))) in
  exists o1,
    model t1 = [o1]
    /\ o_position o1 = obs_position obs
    /\ o_covariance o1 = obs_covariance obs
    /\ (length (model t2) = 1 <-> finite = true)
    /\ (length (model t2) = 2 <-> finite = false)
    /\ (finite = true ->
        is_zero (mahalanobis (obs_position obs) (obs_covariance obs) o1) = true
        /\ find_correspondence (pp_info percept) (obs_position obs)
             (obs_covariance obs) (model t1) = Some 0
        /\ ((0 <= o_state o1)%Z ->
            fgt (to_double (obs_support obs)) fzero = true ->
            cycle percept obs (model t1) =
              Updated
                [stamp_object cfg percept obs
                   (update (obs_position obs) (obs_covariance obs)
                      (obs_support obs) o1)] 0))
    /\ (finite = false ->
        mahalanobis (obs_position obs) (obs_covariance obs) o1 = fnan
        /\ find_correspondence (pp_info percept) (obs_position obs)
             (obs_covariance obs) (model t1) = None).
Proof.
  intros Hmodel Hid Hobs1 Hobs2 t1 t2 finite.
  destruct (first_observation env1 percept obs t Hmodel Hid Hobs1)
    as (o1 & Hone & Hpos & Hcov & Hclass).
  fold t1 in Hone.
  destruct (second_observation env2 percept obs t1 o1 Hone Hpos Hcov Hclass Hid Hobs2)
    as [Hfind Hlength].
  fold t2 in Hlength. fold finite in Hfind, Hlength.
  destruct (mahalanobis_same (obs_position obs) (obs_covariance obs) o1 Hpos)
    as [Hzn Hgate].
  rewrite Hcov in Hgate. fold finite in Hgate.
  rewrite (not_zero_or_nan_below_one _ Hzn) in Hgate.
  exists o1. split; [exact Hone|]. split; [exact Hpos|]. split; [exact Hcov|].
  split; [|split; [|split]].
  - rewrite Hlength. destruct finite; split; congruence.
  - rewrite Hlength. destruct finite; split; congruence.
  - intros Hfinite. rewrite Hfinite in Hfind, Hgate.
    split; [exact Hgate|]. split; [exact Hfind|].
    intros Hstate Hsupport. unfold fusion_cycle. rewrite Hfind, Hone.
    unfold has_fixed_state. cbn [lookup list_lookup].
    rewrite (proj2 (Z.ltb_ge _ _) Hstate), Hsupport. reflexivity.
  - intros Hfinite. rewrite Hfinite in Hfind, Hgate.
    split; [|exact Hfind].
    destruct Hzn as [Hz|Hnan]; [congruence | exact Hnan].
Qed.

End Repeated.

(** The scenario of two cups: the first percept makes the object cup_0 and
    publishes it and the model, the second is fused into it; the support is
    2 and the variance is halved. *)
Example two_percepts_one_cup :
  let r := run sqrt_double euler_zero rotation_identity ray_axis 0%Z (-2)%Z number_id
             cfg_map
             [(env_ok, PosePerceptIn percept_cup); (env_ok, PosePerceptIn percept_cup)]
             (tracker_of []) in
  map o_object_id (model (fst r)) = ["cup_0"] /\
  map o_support (model (fst r)) = [of_Z 2] /\
  map (fun o => m00 (o_covariance o)) (model (fst r)) = [half] /\
  length (snd r) = 10.
Proof. vm_compute. repeat split. Qed.

Lemma repeated_observation_one_object_witness :
  let t1 := fst (posePerceptCb sqrt_double euler_zero rotation_identity 0%Z (-2)%Z
                   number_id cfg_map env_ok percept_cup (tracker_of [])) in
  let t2 := fst (posePerceptCb sqrt_double euler_zero rotation_identity 0%Z (-2)%Z
                   number_id cfg_map env_ok percept_cup t1) in
  exists o1,
    model t1 = [o1]
    /\ length (model t2) = 1
    /\ is_zero (mahalanobis (obs_position obs_cup) (obs_covariance obs_cup) o1) = true.
Proof.
  intros t1 t2.
  destruct (repeated_observation_one_object sqrt_double euler_zero rotation_identity
              0%Z (-2)%Z number_id cfg_map env_ok env_ok percept_cup obs_cup
              (tracker_of []) eq_refl eq_refl eq_refl eq_refl)
    as (o1 & Hone & _ & _ & Hlength & _ & Hfinite & _).
  exists o1. split; [exact Hone|]. split.
  - apply Hlength. reflexivity.
  - apply Hfinite. reflexivity.
Defined.

(** C6 as it is stated fails.  For a covariance that is singular, the sum
    of the covariance of the object and of the same covariance of the
    observation has the determinant zero, Eigen's inverse divides by it, the
    distance is NaN, which is not below 1.0, and the second observation makes
    a second object. *)
Lemma singular_covariance_two_objects :
  ~ (forall fsqrt quaternion_from_euler getRotation projectPixelTo3dRay
       initial_state DISCARDED auto_id cfg env percept obs (n : nat),
       (0 <= initial_state)%Z ->
       observe fsqrt quaternion_from_euler getRotation cfg env percept = Some obs ->
       empty (object_id (pp_info percept)) = true ->
       fgt (to_double (obs_support obs)) fzero = true ->
       length (model (fst (run fsqrt quaternion_from_euler getRotation
                             projectPixelTo3dRay initial_state DISCARDED auto_id cfg
                             (replicate (S n) (env, PosePerceptIn percept))
                             (tracker_of [])))) = 1)
  /\ observe sqrt_double euler_zero rotation_identity cfg_map env_ok percept_singular
       = Some obs_singular
  /\ length (model (fst (run sqrt_double euler_zero rotation_identity ray_axis 0%Z
                           (-2)%Z number_id cfg_map
                           (replicate 2 (env_ok, PosePerceptIn percept_singular))
                           (tracker_of [])))) = 2
  /\ (forall o, mahalanobis (obs_position obs_singular)
                  (obs_covariance obs_singular)
                  (setCovariance (obs_covariance obs_singular)
                     (setPosition (obs_position obs_singular) o)) = fnan).
Proof.
  assert (H2 : length (model (fst (run sqrt_double euler_zero rotation_identity
                 ray_axis 0%Z (-2)%Z number_id cfg_map
                 (replicate 2 (env_ok, PosePerceptIn percept_singular))
                 (tracker_of [])))) = 2).
  { vm_compute. reflexivity. }
  split; [|split; [reflexivity|split; [exact H2|intros o; vm_compute; reflexivity]]].
  intros H.
  specialize (H sqrt_double euler_zero rotation_identity ray_axis 0%Z (-2)%Z
                number_id cfg_map env_ok percept_singular obs_singular 1
                ltac:(lia) eq_refl eq_refl eq_refl).
  rewrite H2 in H. discriminate H.
Qed.

(** A third observation can make a second object although the covariance
    is regular: the fusion of the second observation by [Object::update]
    has rounded the position of the object one unit in the last place away
    from the position of the observation, which is eight metres at a
    hundred thousand kilometres. *)
Example third_observation_second_object :
  length (model (fst (run sqrt_double euler_zero rotation_identity ray_axis 0%Z
                        (-2)%Z number_id cfg_map
                        (replicate 2 (env_ok, PosePerceptIn percept_distant))
                        (tracker_of [])))) = 1
  /\ length (model (fst (run sqrt_double euler_zero rotation_identity ray_axis 0%Z
                           (-2)%Z number_id cfg_map
                           (replicate 3 (env_ok, PosePerceptIn percept_distant))
                           (tracker_of [])))) = 2.
Proof. split; vm_compute; reflexivity. Qed.

(** A covariance whose cofactors overflow: the inverse of twice the
    variance 2^64 is not finite in [float], and the second observation
    makes a second object. *)
Example overflowing_covariance_two_objects :
  mat3_finite (inverse (madd (diagonal huge huge huge) (diagonal huge huge huge)))
    = false
  /\ length (model (fst (run sqrt_double euler_zero rotation_identity ray_axis 0%Z
                           (-2)%Z number_id cfg_map
                           (replicate 2 (env_ok, PosePerceptIn percept_huge))
                           (tracker_of [])))) = 2.
Proof. split; vm_compute; reflexivity. Qed.


(** * Further properties of the tracker *)

(** ** Percepts that are ignored *)

Section Ignored.
Variable fsqrt : double -> double.
Variable quaternion_from_euler : double -> double -> double -> quat double.
Variable getRotation : mat3 double -> quat double.
Variable initial_state : Z.
Variable DISCARDED : Z.
Variable auto_id : string -> list Object -> string.

(** What an observation tells about the percept and the collaborators. *)
Lemma observe_Some (cfg : Config) (env : Collaborators) (percept : PosePercept)
  (obs : Observation) :
  observe fsqrt quaternion_from_euler getRotation cfg env percept = Some obs ->
  obs_support obs = observation_support (pp_info percept)
  /\ feqb (to_double (observation_support (pp_info percept))) fzero = false
  /\ (_project_objects cfg = true ->
      exists distance,
        distanceToObstacle_call env (pp_header percept)
          (position (pose (pp_pose percept))) = Some distance /\
        fgt (to_double distance) fzero = true)
  /\ (empty (_frame_id cfg) = false ->
      frame_id (pp_header percept) <> _frame_id cfg ->
      exists transform,
        lookupTransform env (_frame_id cfg) (frame_id (pp_header percept))
          (stamp (pp_header percept)) = Some transform).
Proof.
  unfold observe.
  destruct (bearing_angles _) as [[yaw pitch] roll].
  destruct (_project_objects cfg) eqn:Hproject.
  - destruct (distanceToObstacle_call env _ _) as [distance|] eqn:Hcall;
      [|discriminate].
    destruct (fgt (to_double distance) fzero) eqn:Hgt; [|discriminate].
    destruct (negb (empty (_frame_id cfg)) && _) eqn:Hframe.
    + destruct (lookupTransform env _ _ _) as [transform|] eqn:Htf; [|discriminate].
      destruct (flt _ _ || fgt _ _); [discriminate|].
      destruct (feqb _ fzero) eqn:Hsupport; [discriminate|].
      intros [= <-]. repeat split; eauto.
    + destruct (flt _ _ || fgt _ _); [discriminate|].
      destruct (feqb _ fzero) eqn:Hsupport; [discriminate|].
      intros [= <-]. repeat split; eauto.
      intros Hne Hdiff. exfalso. rewrite Hne in Hframe. simpl in Hframe.
      apply negb_false_iff, String.eqb_eq in Hframe. contradiction.
  - destruct (negb (empty (_frame_id cfg)) && _) eqn:Hframe.
    + destruct (lookupTransform env _ _ _) as [transform|] eqn:Htf; [|discriminate].
      destruct (flt _ _ || fgt _ _); [discriminate|].
      destruct (feqb _ fzero) eqn:Hsupport; [discriminate|].
      intros [= <-]. repeat split; eauto. discriminate.
    + destruct (flt _ _ || fgt _ _); [discriminate|].
      destruct (feqb _ fzero) eqn:Hsupport; [discriminate|].
      intros [= <-]. repeat split; eauto; [discriminate|].
      intros Hne Hdiff. exfalso. rewrite Hne in Hframe. simpl in Hframe.
      apply negb_false_iff, String.eqb_eq in Hframe. contradiction.
Qed.

Lemma posePerceptCb_not_observed (cfg : Config) (env : Collaborators)
  (percept : PosePercept) (t : Tracker) :
  observe fsqrt quaternion_from_euler getRotation cfg env percept = None ->
  posePerceptCb fsqrt quaternion_from_euler getRotation initial_state DISCARDED
    auto_id cfg env percept t = (t, []).
Proof. intros Hobs. unfold posePerceptCb. rewrite Hobs. reflexivity. Qed.

(** A percept that names neither an object nor a class, or whose support
    is zero, gives no observation. *)
Lemma observe_unsupported (cfg : Config) (env : Collaborators)
  (percept : PosePercept) :
  (empty (object_id (pp_info percept)) = true /\
   empty (class_id (pp_info percept)) = true)
  \/ (empty (object_id (pp_info percept)) = false /\
      feqb (to_double (object_support (pp_info percept))) fzero = true)
  \/ (empty (object_id (pp_info percept)) = true /\
      feqb (to_double (class_support (pp_info percept))) fzero = true) ->
  observe fsqrt quaternion_from_euler getRotation cfg env percept = None.
Proof.
  intros H.
  destruct (observe _ _ _ cfg env percept) as [obs|] eqn:Hobs; [|reflexivity].
  destruct (observe_Some cfg env percept obs Hobs) as (_ & Hsupport & _).
  exfalso. unfold observation_support in Hsupport.
  destruct H as [[Hid Hclass]|[[Hid Hzero]|[Hid Hzero]]];
    rewrite Hid in Hsupport; simpl in Hsupport.
  - rewrite Hclass in Hsupport. simpl in Hsupport. discriminate.
  - congruence.
  - destruct (empty (class_id (pp_info percept))); simpl in Hsupport;
      [discriminate | congruence].
Qed.

(** X1. A pose percept without support is ignored: when it names neither an
    object nor a class, or when the support that counts for it (that of the
    object if it names one, else that of the class) is zero, the callback
    leaves the tracker as it is and publishes nothing, whatever the pose,
    the configuration and the answers of the collaborators. *)
Theorem unsupported_percept_ignored (cfg : Config) (env : Collaborators)
  (percept : PosePercept) (t : Tracker) :
  (empty (object_id (pp_info percept)) = true /\
   empty (class_id (pp_info percept)) = true)
  \/ (empty (object_id (pp_info percept)) = false /\
      feqb (to_double (object_support (pp_info percept))) fzero = true)
  \/ (empty (object_id (pp_info percept)) = true /\
      feqb (to_double (class_support (pp_info percept))) fzero = true) ->
  posePerceptCb fsqrt quaternion_from_euler getRotation initial_state DISCARDED
    auto_id cfg env percept t = (t, []).
Proof.
  intros H. apply posePerceptCb_not_observed. apply observe_unsupported. exact H.
Qed.

(** X2. A pose percept is ignored when a collaborator it needs does not
    answer: with the projection of objects switched on, when the call of the
    ranging service fails or the distance it answers is not positive; and,
    for a percept in another frame than the one of the model, when tf has
    no transform.  The tracker is as it was and nothing is published. *)
Theorem percept_without_collaborator_ignored (cfg : Config) (env : Collaborators)
  (percept : PosePercept) (t : Tracker) :
  (_project_objects cfg = true /\
   (distanceToObstacle_call env (pp_header percept)
      (position (pose (pp_pose percept))) = None \/
    exists distance,
      distanceToObstacle_call env (pp_header percept)
        (position (pose (pp_pose percept))) = Some distance /\
      fgt (to_double distance) fzero = false))
  \/ (empty (_frame_id cfg) = false /\
      frame_id (pp_header percept) <> _frame_id cfg /\
      lookupTransform env (_frame_id cfg) (frame_id (pp_header percept))
        (stamp (pp_header percept)) = None) ->
  posePerceptCb fsqrt quaternion_from_euler getRotation initial_state DISCARDED
    auto_id cfg env percept t = (t, []).
Proof.
  intros H. apply posePerceptCb_not_observed.
  destruct (observe _ _ _ cfg env percept) as [obs|] eqn:Hobs; [|reflexivity].
  destruct (observe_Some cfg env percept obs Hobs) as (_ & _ & Hrange & Htf).
  exfalso. destruct H as [[Hproject Hfail]|(Hne & Hdiff & Hnone)].
  - destruct (Hrange Hproject) as (distance & Hcall & Hgt).
    destruct Hfail as [Hnone|(distance' & Hcall' & Hle)]; congruence.
  - destruct (Htf Hne Hdiff) as (transform & Hsome). congruence.
Qed.

End Ignored.

Lemma unsupported_percept_ignored_witness :
  posePerceptCb sqrt_double euler_zero rotation_identity 0%Z (-2)%Z number_id
    cfg_map env_ok percept_unsupported (tracker_of [cup_0]) = (tracker_of [cup_0], []).
Proof.
  apply (unsupported_percept_ignored sqrt_double euler_zero rotation_identity 0%Z
           (-2)%Z number_id cfg_map env_ok percept_unsupported (tracker_of [cup_0])).
  right. right. split; reflexivity.
Defined.

Lemma percept_without_collaborator_ignored_witness :
  posePerceptCb sqrt_double euler_zero rotation_identity 0%Z (-2)%Z number_id
    cfg_map env_no_transform percept_camera (tracker_of [cup_0])
    = (tracker_of [cup_0], []).
Proof.
  apply (percept_without_collaborator_ignored sqrt_double euler_zero
           rotation_identity 0%Z (-2)%Z number_id cfg_map env_no_transform
           percept_camera (tracker_of [cup_0])).
  right. split; [reflexivity|]. split; [discriminate | reflexivity].
Defined.

(** ** The object a percept is fused into *)

Section Matched.
Variable initial_state : Z.
Variable DISCARDED : Z.
Variable auto_id : string -> list Object -> string.

Lemma alter_lookup {A : Type} (f : A -> A) (l : list A) (i : nat) (x : A) :
  l !! i = Some x -> alter f i l = <[i := f x]> l.
Proof.
  revert i. induction l as [|y l IH]; intros [|i] Hi; simpl in *;
    try discriminate.
  - injection Hi as ->. reflexivity.
  - f_equal. apply IH. exact Hi.
Qed.

(** X3. When the association finds an object whose state is not fixed, the
    cycle rewrites this object and no other: the support of the observation
    is added to its support, its orientation and its header are set from
    the percept (the header in the frame of the model), its identifier, its
    class and its state stay; and if the support of the observation is not
    positive, the position and the covariance stay too. *)
Theorem matched_object_updated (cfg : Config) (percept : PosePercept)
  (obs : Observation) (objects : list Object) (i : nat) (x : Object) :
  find_correspondence (pp_info percept) (obs_position obs) (obs_covariance obs)
    objects = Some i ->
  objects !! i = Some x ->
  (0 <= o_state x)%Z ->
  exists x',
    fusion_cycle initial_state auto_id cfg percept obs objects =
      Updated (<[i := x']> objects) i
    /\ o_support x' = fadd (o_support x) (obs_support obs)
    /\ o_orientation x' = obs_rotation obs
    /\ o_header x' =
         {| stamp := stamp (pp_header percept); frame_id := _frame_id cfg |}
    /\ o_object_id x' = o_object_id x
    /\ o_class_id x' = o_class_id x
    /\ o_state x' = o_state x
    /\ (fgt (to_double (obs_support obs)) fzero = false ->
        o_position x' = o_position x /\ o_covariance x' = o_covariance x).
Proof.
  intros Hfind Hi Hstate.
  unfold fusion_cycle. rewrite Hfind. unfold has_fixed_state. rewrite Hi.
  rewrite (proj2 (Z.ltb_ge _ _) Hstate).
  destruct (fgt (to_double (obs_support obs)) fzero) eqn:Hgt.
  - rewrite (alter_lookup _ _ _ _ Hi). eexists. split; [reflexivity|].
    repeat split; discriminate.
  - rewrite (alter_lookup _ _ _ _ Hi). eexists. split; [reflexivity|].
    repeat split.
Qed.

(** X4. The verification services are all asked, about the object as it was
    when the model was unlocked: each CONFIRM adds 100 to the support, and
    the state is DISCARDED if a service answered DISCARD and unchanged
    otherwise, a call that fails and the answer UNKNOWN having no effect.
    The position, the covariance, the orientation, the header, the
    identifier and the class are left as they are. *)
Theorem verification_effect (services : list (Object -> option VerifyResponse))
  (request o : Object) :
  let responses := map (fun service => service request) services in
  let verified := verify DISCARDED services request o in
  o_support verified =
    Nat.iter (length (filter (fun r => is_confirm r = true) responses))
      (fun support => fadd support (of_Z 100)) (o_support o)
  /\ o_state verified =
       (if existsb is_discard responses then DISCARDED else o_state o)
  /\ o_position verified = o_position o
  /\ o_covariance verified = o_covariance o
  /\ o_orientation verified = o_orientation o
  /\ o_header verified = o_header o
  /\ o_object_id verified = o_object_id o
  /\ o_class_id verified = o_class_id o.
Proof.
  revert o. induction services as [|service rest IH]; intros o.
  - repeat split.
  - cbn [map verify existsb].
    destruct (service request) as [[| |]|] eqn:Hresponse.
    + rewrite filter_cons_False by discriminate. apply IH.
    + destruct (IH (addSupport (of_Z 100) o))
        as (Hsup & Hstate & Hpos & Hcov & Hori & Hhead & Hid & Hclass).
      rewrite filter_cons_True by reflexivity. cbn [length].
      rewrite Nat.iter_succ_r. repeat split; assumption.
    + destruct (IH (setState DISCARDED o))
        as (Hsup & Hstate & Hpos & Hcov & Hori & Hhead & Hid & Hclass).
      rewrite filter_cons_False by discriminate.
      repeat split; try assumption.
      rewrite Hstate. cbn [is_discard orb o_state setState].
      destruct (existsb _ _); reflexivity.
    + rewrite filter_cons_False by discriminate. apply IH.
Qed.

End Matched.

Lemma matched_object_updated_witness :
  exists x',
    fusion_cycle 0%Z number_id cfg_map percept_cup obs_cup [cup_far; cup_0] =
      Updated (<[1 := x']> [cup_far; cup_0]) 1
    /\ o_support x' = fadd (o_support cup_0) (obs_support obs_cup)
    /\ o_orientation x' = obs_rotation obs_cup
    /\ o_header x' =
         {| stamp := stamp (pp_header percept_cup); frame_id := _frame_id cfg_map |}
    /\ o_object_id x' = o_object_id cup_0
    /\ o_class_id x' = o_class_id cup_0
    /\ o_state x' = o_state cup_0
    /\ (fgt (to_double (obs_support obs_cup)) fzero = false ->
        o_position x' = o_position cup_0 /\ o_covariance x' = o_covariance cup_0).
Proof.
  apply (matched_object_updated 0%Z number_id cfg_map percept_cup obs_cup
           [cup_far; cup_0] 1 cup_0).
  - vm_compute. reflexivity.
  - reflexivity.
  - simpl. lia.
Defined.

(** ** What is published *)

Section Published.
Variable fsqrt : double -> double.
Variable quaternion_from_euler : double -> double -> double -> quat double.
Variable getRotation : mat3 double -> quat double.
Variable projectPixelTo3dRay : PinholeCameraModel -> double -> double -> vec3 double.
Variable initial_state : Z.
Variable DISCARDED : Z.
Variable auto_id : string -> list Object -> string.
Variable cfg : Config.

Local Abbreviation step_tracker :=
  (step fsqrt quaternion_from_euler getRotation projectPixelTo3dRay initial_state
     DISCARDED auto_id cfg).

Lemma publishModel_snapshot (objects snapshot : list Object) :
  Publish_model snapshot ∈ publishModel objects -> snapshot = objects.
Proof.
  unfold publishModel. intros Hin.
  apply elem_of_cons in Hin. destruct Hin as [[= ->]|Hin]; [reflexivity|].
  exfalso. apply elem_of_app in Hin. destruct Hin as [Hin|Hin].
  - apply list_elem_of_In, in_flat_map in Hin. destruct Hin as (o & _ & Hin).
    simpl in Hin. destruct Hin as [Hin|[Hin|[]]]; discriminate.
  - apply list_elem_of_singleton in Hin. discriminate.
Qed.

(** What a callback publishes: nothing, the tracker being as it was unless
    the callback is the reset or fills the cache of camera models; or the
    object it wrote and then the model as it has become. *)
Lemma step_publishes (env : Collaborators) (input : Input) (t : Tracker) :
  let r := step_tracker env input t in
  (snd r = [] /\
   (is_reset input = false -> model (fst r) = model t))
  \/ exists o, snd r = Publish_object o :: publishModel (model (fst r)).
Proof.
  destruct input as [sysCommand|percept|percept|id s|request]; simpl.
  - left. unfold sysCommandCb. destruct (String.eqb sysCommand "reset");
      split; try reflexivity. discriminate.
  - unfold imagePerceptCb.
    destruct (get_camera_model percept (cameraModels t)) as [models cameraModel].
    match goal with
    | |- context [posePerceptCb _ _ _ _ _ _ _ _ ?p ?t'] =>
        destruct (posePerceptCb_publishes fsqrt quaternion_from_euler getRotation
                    initial_state DISCARDED auto_id cfg env p t') as [Heq|Hpub]
    end.
    + left. rewrite Heq. split; reflexivity.
    + right. exact Hpub.
  - destruct (posePerceptCb_publishes fsqrt quaternion_from_euler getRotation
                initial_state DISCARDED auto_id cfg env percept t) as [Heq|Hpub].
    + left. rewrite Heq. split; reflexivity.
    + right. exact Hpub.
  - destruct (setObjectStateCb_publishes id s t) as [Heq|(o & _ & Hpub)].
    + left. rewrite Heq. split; reflexivity.
    + right. exists o. destruct (setObjectStateCb id s t) as [[found t'] events].
      exact Hpub.
  - destruct (addObjectCb_publishes fsqrt getRotation initial_state cfg env request t)
      as [Heq|(o & _ & Hpub)].
    + left. rewrite Heq. split; reflexivity.
    + right. exists o.
      destruct (addObjectCb fsqrt getRotation initial_state cfg env request t)
        as [[response t'] events].
      exact Hpub.
Qed.

(** X5. A model that a callback publishes is never stale: every snapshot
    sent on the topic of the model by a callback is the store as that
    callback leaves it. *)
Theorem published_model_is_current (env : Collaborators) (input : Input)
  (t : Tracker) (snapshot : list Object) :
  Publish_model snapshot ∈ snd (step_tracker env input t) ->
  snapshot = model (fst (step_tracker env input t)).
Proof.
  intros Hin.
  destruct (step_publishes env input t) as [[Hnil _]|(o & Hpub)].
  - rewrite Hnil in Hin. inversion Hin.
  - rewrite Hpub in Hin. apply elem_of_cons in Hin.
    destruct Hin as [Hin|Hin]; [discriminate|].
    apply publishModel_snapshot. exact Hin.
Qed.

End Published.

Lemma published_model_is_current_witness :
  [setState 2%Z cup_0] =
    model (fst (step sqrt_double euler_zero rotation_identity ray_axis 0%Z (-2)%Z
                  number_id cfg_map env_ok (SetObjectState "cup_0" 2%Z)
                  (tracker_of [cup_0]))).
Proof.
  apply (published_model_is_current sqrt_double euler_zero rotation_identity ray_axis
           0%Z (-2)%Z number_id cfg_map env_ok (SetObjectState "cup_0" 2%Z)
           (tracker_of [cup_0]) [setState 2%Z cup_0]).
  apply elem_of_cons. right. apply elem_of_cons. left. reflexivity.
Defined.


(** ** The explicit change of state *)

Lemma getObject_from_None (id : string) (objects : list Object) (i : nat) :
  getObject_from id objects i = None <->
  forall x, x ∈ objects -> o_object_id x <> id.
Proof.
  revert i. induction objects as [|y rest IH]; intros i; simpl.
  - split; [|reflexivity]. intros _ x Hx. inversion Hx.
  - destruct (String.eqb_spec (o_object_id y) id) as [Heq|Hne].
    + split; [discriminate|]. intros H. exfalso. apply (H y); [|exact Heq].
      apply elem_of_cons. left. reflexivity.
    + rewrite IH. split.
      * intros H x Hx. apply elem_of_cons in Hx. destruct Hx as [->|Hx]; auto.
      * intros H x Hx. apply H. apply elem_of_cons. right. exact Hx.
Qed.

Lemma getObject_None (id : string) (objects : list Object) :
  getObject id objects = None <-> forall x, x ∈ objects -> o_object_id x <> id.
Proof. apply getObject_from_None. Qed.

(** The object [getObject] finds is the first of its identifier. *)
Lemma getObject_from_first (id : string) (objects : list Object) :
  forall (i j : nat) (x : Object),
    getObject_from id objects i = Some (j, x) ->
    exists k, j = i + k /\ objects !! k = Some x /\ o_object_id x = id /\
      forall k' y, k' < k -> objects !! k' = Some y -> o_object_id y <> id.
Proof.
  induction objects as [|y rest IH]; intros i j x H; simpl in H; [discriminate|].
  destruct (String.eqb_spec (o_object_id y) id) as [Heq|Hne].
  - injection H as <- <-. exists 0. split; [lia|]. split; [reflexivity|].
    split; [exact Heq|]. intros k' z Hk'. lia.
  - destruct (IH (S i) j x H) as (k & -> & Hk & Hid & Hfirst).
    exists (S k). split; [lia|]. split; [exact Hk|]. split; [exact Hid|].
    intros [|k'] z Hlt Hz; simpl in Hz.
    + injection Hz as <-. exact Hne.
    + apply (Hfirst k' z); [lia | exact Hz].
Qed.

(** Writing an object of the same identifier over the one [getObject] finds
    does not change what [getObject] finds but for the object itself. *)
Lemma getObject_from_insert (id : string) (objects : list Object) :
  forall (i j : nat) (x x' : Object),
    getObject_from id objects i = Some (j, x) ->
    o_object_id x' = id ->
    getObject_from id (<[j - i := x']> objects) i = Some (j, x').
Proof.
  induction objects as [|y rest IH]; intros i j x x' H Hid; simpl in H;
    [discriminate|].
  destruct (String.eqb_spec (o_object_id y) id) as [Heq|Hne].
  - injection H as <- <-. replace (i - i) with 0 by lia. simpl.
    rewrite Hid, String.eqb_refl. reflexivity.
  - destruct (getObject_from_first id rest (S i) j x H) as (k & -> & _).
    replace (S i + k - i) with (S k) by lia. simpl.
    destruct (String.eqb_spec (o_object_id y) id) as [Heq|_]; [contradiction|].
    replace k with (S i + k - S i) at 1 by lia.
    apply (IH (S i) (S i + k) x x' H Hid).
Qed.

Lemma getObject_insert (id : string) (objects : list Object) (j : nat)
  (x x' : Object) :
  getObject id objects = Some (j, x) ->
  o_object_id x' = id ->
  getObject id (<[j := x']> objects) = Some (j, x').
Proof.
  intros H Hid. unfold getObject.
  replace j with (j - 0) at 1 by lia.
  apply (getObject_from_insert id objects 0 j x x' H Hid).
Qed.

(** X7. [setObjectStateCb] answers [true] exactly when the store has an
    object of the identifier of the request; when it has none, the answer is
    [false], the tracker is as it was and nothing is published. *)
Theorem setObjectStateCb_found (id : string) (new_state : Z) (t : Tracker) :
  (fst (fst (setObjectStateCb id new_state t)) = true <->
   exists x, x ∈ model t /\ o_object_id x = id)
  /\ ((forall x, x ∈ model t -> o_object_id x <> id) ->
      setObjectStateCb id new_state t = (false, t, [])).
Proof.
  unfold setObjectStateCb.
  destruct (getObject id (model t)) as [[i x]|] eqn:Hget.
  - destruct (getObject_Some _ _ _ _ Hget) as [Hi Hid].
    assert (Hin : x ∈ model t) by (apply list_elem_of_lookup; eauto).
    split.
    + split; [|reflexivity]. intros _. exists x. split; assumption.
    + intros Hnone. exfalso. exact (Hnone x Hin Hid).
  - split; [|reflexivity]. split; [discriminate|].
    intros (x & Hin & Hid). exfalso.
    exact (proj1 (getObject_None id (model t)) Hget x Hin Hid).
Qed.

(** X8. When [setObjectStateCb] answers [true], it has set the state of the
    object of that identifier and nothing else: the store has the same
    length, every other place holds the object it held, the object keeps all
    its other fields, and a lookup of the identifier finds it in its new
    state. *)
Theorem setObjectStateCb_sets (id : string) (new_state : Z) (t : Tracker) :
  fst (fst (setObjectStateCb id new_state t)) = true ->
  let t' := snd (fst (setObjectStateCb id new_state t)) in
  exists i x,
    model t !! i = Some x
    /\ o_object_id x = id
    /\ model t' = <[i := setState new_state x]> (model t)
    /\ length (model t') = length (model t)
    /\ (forall j, j <> i -> model t' !! j = model t !! j)
    /\ getObject id (model t') = Some (i, setState new_state x)
    /\ cameraModels t' = cameraModels t.
Proof.
  unfold setObjectStateCb.
  destruct (getObject id (model t)) as [[i x]|] eqn:Hget; [|discriminate].
  intros _. simpl.
  destruct (getObject_from_first id (model t) 0 i x Hget)
    as (k & -> & Hk & Hid & Hfirst).
  exists k, x. simpl in *.
  split; [exact Hk|]. split; [exact Hid|]. split; [reflexivity|].
  split; [apply length_insert|].
  split; [intros j Hj; apply list_lookup_insert_ne; congruence|].
  split; [|reflexivity].
  apply (getObject_insert id (model t) k x (setState new_state x) Hget Hid).
Qed.

Lemma setObjectStateCb_sets_witness :
  exists i x,
    [cup_far; cup_0] !! i = Some x
    /\ o_object_id x = "cup_0"
    /\ model (snd (fst (setObjectStateCb "cup_0" (-1)%Z (tracker_of [cup_far; cup_0]))))
       = <[i := setState (-1)%Z x]> [cup_far; cup_0]
    /\ length (model (snd (fst (setObjectStateCb "cup_0" (-1)%Z
                                  (tracker_of [cup_far; cup_0])))))
       = length [cup_far; cup_0]
    /\ (forall j, j <> i ->
        model (snd (fst (setObjectStateCb "cup_0" (-1)%Z
                           (tracker_of [cup_far; cup_0])))) !! j
        = [cup_far; cup_0] !! j)
    /\ getObject "cup_0"
         (model (snd (fst (setObjectStateCb "cup_0" (-1)%Z
                             (tracker_of [cup_far; cup_0])))))
       = Some (i, setState (-1)%Z x)
    /\ cameraModels (snd (fst (setObjectStateCb "cup_0" (-1)%Z
                                 (tracker_of [cup_far; cup_0]))))
       = cameraModels (tracker_of [cup_far; cup_0]).
Proof.
  apply (setObjectStateCb_sets "cup_0" (-1)%Z (tracker_of [cup_far; cup_0])).
  reflexivity.
Defined.

(** ** The explicit create-or-update *)

Section AddObject.
Variable fsqrt : double -> double.
Variable getRotation : mat3 double -> quat double.
Variable initial_state : Z.
Variable cfg : Config.
Variable env : Collaborators.

Lemma mapToNextObstacle_is_Some (source : Pose) (header : Header) :
  is_Some (mapToNextObstacle fsqrt getRotation cfg env source header) <->
  distanceToObstacle_exists env = true /\
  exists distance,
    distanceToObstacle_call env header (position source) = Some distance /\
    fgt (to_double distance) fzero = true.
Proof.
  unfold mapToNextObstacle.
  destruct (distanceToObstacle_exists env); cbn [negb].
  - destruct (distanceToObstacle_call env header (position source)) as [d|].
    + destruct (fgt (to_double d) fzero) eqn:Hgt.
      * split; intros _.
        -- split; [reflexivity|]. exists d. split; [reflexivity | exact Hgt].
        -- eexists. reflexivity.
      * split; [intros [? [=]]|]. intros [_ (d' & [= <-] & Hgt')]. congruence.
    + split; [intros [? [=]]|]. intros [_ (d' & [=] & _)].
  - split; [intros [? [=]]|]. intros [[=] _].
Qed.

(** What [prepare_pose] returns when it returns: the header of the request
    in the frame of the model and the covariance of the request, which no
    transform touches. *)
Lemma prepare_pose_Some (request : AddObjectRequest) (pose1 : PoseWithCovariance)
  (header : Header) :
  prepare_pose fsqrt getRotation cfg env request = Some (pose1, header) ->
  header = {| stamp := stamp (request_header env request);
              frame_id := _frame_id cfg |}
  /\ covariance pose1 =
       unit_covariance (covariance (om_pose (request_object request))).
Proof.
  unfold prepare_pose, unit_covariance.
  destruct (map_to_next_obstacle request).
  - destruct (mapToNextObstacle _ _ cfg env _ _) as [p|]; [|discriminate].
    unfold transformPoseWithCovariance, transformPose. simpl.
    destruct (isZero _); simpl;
      destruct (lookupTransform env _ _ _); try discriminate;
      intros [= <- <-]; split; reflexivity.
  - unfold transformPoseWithCovariance, transformPose.
    destruct (isZero _); simpl;
      destruct (lookupTransform env _ _ _); try discriminate;
      intros [= <- <-]; split; reflexivity.
Qed.

Lemma prepare_pose_is_Some (request : AddObjectRequest) :
  is_Some (prepare_pose fsqrt getRotation cfg env request) <->
  (map_to_next_obstacle request = true ->
   is_Some (mapToNextObstacle fsqrt getRotation cfg env
              (pose (om_pose (request_object request)))
              (request_header env request)))
  /\ is_Some (lookupTransform env (_frame_id cfg)
                (frame_id (request_header env request))
                (stamp (request_header env request))).
Proof.
  unfold prepare_pose.
  destruct (map_to_next_obstacle request).
  - destruct (mapToNextObstacle _ _ cfg env _ _) as [p|].
    + unfold transformPoseWithCovariance, transformPose.
      destruct (isZero _); cbn [pose covariance];
        destruct (lookupTransform env _ _ _) as [T|].
      all: try (split; intros _; [split; [intros _|]|]; eexists; reflexivity).
      all: split; [intros [? [=]] | intros [_ [? [=]]]].
    + split; [intros [? [=]]|]. intros [H _]. destruct (H eq_refl) as [? [=]].
  - unfold transformPoseWithCovariance, transformPose.
    destruct (isZero _); cbn [pose covariance];
      destruct (lookupTransform env _ _ _) as [T|].
    all: try (split; intros _; [split; [intros [=]|]|]; eexists; reflexivity).
    all: split; [intros [? [=]] | intros [_ [? [=]]]].
Qed.

(** X9. [addObjectCb] returns an object exactly when the steps that can
    fail succeed: the transform from the frame of the request to the frame of
    the model is available and, if the request asks for the mapping to the
    next obstacle, the ranging service is there, its call succeeds and the
    distance it answers is positive. *)
Theorem addObjectCb_succeeds (request : AddObjectRequest) (t : Tracker) :
  is_Some (fst (fst (addObjectCb fsqrt getRotation initial_state cfg env request t)))
  <->
  (map_to_next_obstacle request = true ->
   distanceToObstacle_exists env = true /\
   exists distance,
     distanceToObstacle_call env (request_header env request)
       (position (pose (om_pose (request_object request)))) = Some distance /\
     fgt (to_double distance) fzero = true)
  /\ is_Some (lookupTransform env (_frame_id cfg)
                (frame_id (request_header env request))
                (stamp (request_header env request))).
Proof.
  rewrite <- mapToNextObstacle_is_Some, <- prepare_pose_is_Some.
  unfold addObjectCb.
  destruct (prepare_pose _ _ cfg env request) as [[pose1 header]|].
  - destruct (if negb _ then _ else _) as [[i x]|]; simpl; split; eauto.
  - simpl. split; intros [? [=]].
Qed.

End AddObject.

Section AddObjectEffect.
Variable fsqrt : double -> double.
Variable getRotation : mat3 double -> quat double.
Variable initial_state : Z.
Variable cfg : Config.

Lemma getObject_from_app_None (id : string) (objects : list Object) (o : Object) :
  forall i,
    getObject_from id objects i = None ->
    o_object_id o = id ->
    getObject_from id (objects ++ [o]) i = Some (i + length objects, o).
Proof.
  induction objects as [|y rest IH]; intros i Hnone Hid; simpl in *.
  - rewrite Hid, String.eqb_refl. f_equal. f_equal. lia.
  - destruct (String.eqb (o_object_id y) id); [discriminate|].
    rewrite (IH (S i) Hnone Hid). f_equal. f_equal. lia.
Qed.

Lemma addObjectCb_Some (env : Collaborators) (request : AddObjectRequest)
  (t t' : Tracker) (o : Object) (events : list Event) :
  addObjectCb fsqrt getRotation initial_state cfg env request t
    = (Some o, t', events) ->
  cameraModels t' = cameraModels t
  /\ events = Publish_object o :: publishModel (model t')
  /\ match (if negb (empty (om_object_id (request_object request)))
            then getObject (om_object_id (request_object request)) (model t)
            else None) with
     | Some (i, x) => model t' = <[i := o]> (model t) /\ written cfg env request o x
     | None =>
         model t' = model t ++ [o] /\
         written cfg env request o
           (new_Object initial_state (om_class_id (request_object request))
              (om_object_id (request_object request)))
     end.
Proof.
  unfold addObjectCb.
  destruct (prepare_pose _ _ cfg env request) as [[pose1 header]|] eqn:Hprep;
    [|discriminate].
  destruct (prepare_pose_Some fsqrt getRotation cfg env request pose1 header Hprep)
    as [-> Hcov].
  destruct (if negb _ then _ else _) as [[i x]|]; intros [= <- <- <-];
    (split; [reflexivity|]); (split; [reflexivity|]);
    (split; [reflexivity|]); unfold written; simpl; rewrite Hcov;
    repeat split.
Qed.

(** X10. A create-or-update request that succeeds and whose identifier is
    empty, or is the identifier of no object of the store, appends one
    object and leaves the objects of the store as they are: the new object
    has the class, the state and the support of the request and its header
    in the frame of the model. *)
Theorem addObjectCb_creates (env : Collaborators) (request : AddObjectRequest)
  (t t' : Tracker) (o : Object) (events : list Event) :
  empty (om_object_id (request_object request)) = true \/
  (forall x, x ∈ model t -> o_object_id x <> om_object_id (request_object request)) ->
  addObjectCb fsqrt getRotation initial_state cfg env request t
    = (Some o, t', events) ->
  model t' = model t ++ [o]
  /\ o_class_id o = om_class_id (request_object request)
  /\ o_state o = om_state (request_object request)
  /\ o_support o = om_support (request_object request)
  /\ o_header o = {| stamp := stamp (request_header env request);
                     frame_id := _frame_id cfg |}.
Proof.
  intros Hnew Hadd.
  destruct (addObjectCb_Some env request t t' o events Hadd) as (_ & _ & Hcase).
  assert (Hfound : (if negb (empty (om_object_id (request_object request)))
                    then getObject (om_object_id (request_object request)) (model t)
                    else None) = None).
  { destruct Hnew as [Hempty|Hnone].
    - rewrite Hempty. reflexivity.
    - destruct (negb _); [|reflexivity]. apply getObject_None. exact Hnone. }
  rewrite Hfound in Hcase.
  destruct Hcase as (Hmodel & _ & Hclass & Hstate & Hsupport & Hheader & _).
  repeat split; assumption.
Qed.

(** A request that names an object of the store overwrites it in place. *)
Lemma addObjectCb_in_place (env : Collaborators) (request : AddObjectRequest)
  (t t' : Tracker) (o x : Object) (i : nat) (events : list Event) :
  empty (om_object_id (request_object request)) = false ->
  getObject (om_object_id (request_object request)) (model t) = Some (i, x) ->
  addObjectCb fsqrt getRotation initial_state cfg env request t
    = (Some o, t', events) ->
  model t' = <[i := o]> (model t)
  /\ length (model t') = length (model t)
  /\ (forall j, j <> i -> model t' !! j = model t !! j)
  /\ o_object_id o = om_object_id (request_object request)
  /\ o_class_id o = o_class_id x
  /\ o_state o = om_state (request_object request)
  /\ o_support o = om_support (request_object request)
  /\ o_header o = {| stamp := stamp (request_header env request);
                     frame_id := _frame_id cfg |}
  /\ getObject (om_object_id (request_object request)) (model t') = Some (i, o).
Proof.
  intros Hid Hget Hadd.
  destruct (addObjectCb_Some env request t t' o events Hadd) as (_ & _ & Hcase).
  rewrite Hid, Hget in Hcase. simpl in Hcase.
  destruct Hcase as (Hmodel & Hoid & Hclass & Hstate & Hsupport & Hheader & _).
  destruct (getObject_Some _ _ _ _ Hget) as [Hi Hx].
  rewrite Hmodel.
  split; [reflexivity|]. split; [apply length_insert|].
  split; [intros j Hj; apply list_lookup_insert_ne; congruence|].
  split; [congruence|]. repeat (split; [assumption|]).
  apply (getObject_insert _ _ _ x o Hget). congruence.
Qed.

(** X11. A create-or-update request that succeeds and whose identifier is
    that of an object of the store overwrites this object in place: the
    store keeps its length and every other object, the object keeps its
    identifier and its class, whatever class the request names, and takes
    the state, the support and the header of the request; a lookup of the
    identifier finds the object of the response. *)
Theorem addObjectCb_overwrites (env : Collaborators) (request : AddObjectRequest)
  (t t' : Tracker) (o x : Object) (i : nat) (events : list Event) :
  empty (om_object_id (request_object request)) = false ->
  getObject (om_object_id (request_object request)) (model t) = Some (i, x) ->
  addObjectCb fsqrt getRotation initial_state cfg env request t
    = (Some o, t', events) ->
  model t' = <[i := o]> (model t)
  /\ length (model t') = length (model t)
  /\ (forall j, j <> i -> model t' !! j = model t !! j)
  /\ o_object_id o = om_object_id (request_object request)
  /\ o_class_id o = o_class_id x
  /\ o_state o = om_state (request_object request)
  /\ o_support o = om_support (request_object request)
  /\ o_header o = {| stamp := stamp (request_header env request);
                     frame_id := _frame_id cfg |}
  /\ getObject (om_object_id (request_object request)) (model t') = Some (i, o).
Proof.
  exact (addObjectCb_in_place env request t t' o x i events).
Qed.

(** X12. After a create-or-update request with an identifier has succeeded,
    the object of the response is the one a lookup of the identifier finds,
    a change of state of that identifier is answered with [true], and a
    further create-or-update request of the identifier that succeeds adds no
    object. *)
Theorem addObjectCb_then (env : Collaborators) (request : AddObjectRequest)
  (t t' : Tracker) (o : Object) (events : list Event) :
  empty (om_object_id (request_object request)) = false ->
  addObjectCb fsqrt getRotation initial_state cfg env request t
    = (Some o, t', events) ->
  (exists i, getObject (om_object_id (request_object request)) (model t')
               = Some (i, o))
  /\ (forall new_state,
        fst (fst (setObjectStateCb (om_object_id (request_object request))
                    new_state t')) = true)
  /\ (forall env2 request2 o2 t2 events2,
        om_object_id (request_object request2)
          = om_object_id (request_object request) ->
        addObjectCb fsqrt getRotation initial_state cfg env2 request2 t'
          = (Some o2, t2, events2) ->
        length (model t2) = length (model t')).
Proof.
  intros Hid Hadd.
  assert (Hlookup : exists i,
             getObject (om_object_id (request_object request)) (model t')
               = Some (i, o)).
  { destruct (getObject (om_object_id (request_object request)) (model t))
      as [[i x]|] eqn:Hget.
    - exists i.
      apply (addObjectCb_in_place env request t t' o x i events Hid Hget Hadd).
    - destruct (addObjectCb_Some env request t t' o events Hadd)
        as (_ & _ & Hcase).
      rewrite Hid, Hget in Hcase. simpl in Hcase.
      destruct Hcase as (Hmodel & Hoid & _). simpl in Hoid.
      exists (0 + length (model t)). rewrite Hmodel.
      apply getObject_from_app_None; assumption. }
  split; [exact Hlookup|]. destruct Hlookup as (i & Hlookup). split.
  - intros new_state. unfold setObjectStateCb. rewrite Hlookup. reflexivity.
  - intros env2 request2 o2 t2 events2 Hsame Hadd2.
    rewrite <- Hsame in Hid, Hlookup.
    apply (addObjectCb_in_place env2 request2 t' t2 o2 o i events2 Hid Hlookup
             Hadd2).
Qed.

End AddObjectEffect.

Lemma addObjectCb_creates_witness :
  let r := addObjectCb sqrt_double rotation_identity 0%Z cfg_map env_ok
             (request_cup false) (tracker_of [cup_0]) in
  model (snd (fst r)) = [cup_0] ++ [response_object r]
  /\ o_class_id (response_object r) = "cup"
  /\ o_state (response_object r) = 0%Z
  /\ o_support (response_object r) = fone
  /\ o_header (response_object r) = {| stamp := 5%Z; frame_id := "map" |}.
Proof.
  intros r.
  apply (addObjectCb_creates sqrt_double rotation_identity 0%Z cfg_map env_ok
           (request_cup false) (tracker_of [cup_0]) (snd (fst r))
           (response_object r) (snd r)).
  - left. reflexivity.
  - reflexivity.
Defined.

Lemma addObjectCb_overwrites_witness :
  let r := addObjectCb sqrt_double rotation_identity 0%Z cfg_map env_ok
             request_named (tracker_of [cup_far; cup_0]) in
  model (snd (fst r)) = <[1 := response_object r]> [cup_far; cup_0]
  /\ length (model (snd (fst r))) = 2
  /\ (forall j, j <> 1 -> model (snd (fst r)) !! j = [cup_far; cup_0] !! j)
  /\ o_object_id (response_object r) = "cup_0"
  /\ o_class_id (response_object r) = "cup"
  /\ o_state (response_object r) = 2%Z
  /\ o_support (response_object r) = of_Z 3
  /\ o_header (response_object r) = {| stamp := 5%Z; frame_id := "map" |}
  /\ getObject "cup_0" (model (snd (fst r))) = Some (1, response_object r).
Proof.
  intros r.
  apply (addObjectCb_overwrites sqrt_double rotation_identity 0%Z cfg_map env_ok
           request_named (tracker_of [cup_far; cup_0]) (snd (fst r))
           (response_object r) cup_0 1 (snd r)).
  - reflexivity.
  - reflexivity.
  - reflexivity.
Defined.

Lemma addObjectCb_then_witness :
  let r := addObjectCb sqrt_double rotation_identity 0%Z cfg_map env_ok
             request_named (tracker_of [cup_far]) in
  (exists i, getObject "cup_0" (model (snd (fst r))) = Some (i, response_object r))
  /\ (forall new_state,
        fst (fst (setObjectStateCb "cup_0" new_state (snd (fst r)))) = true)
  /\ (forall env2 request2 o2 t2 events2,
        om_object_id (request_object request2) = "cup_0" ->
        addObjectCb sqrt_double rotation_identity 0%Z cfg_map env2 request2
          (snd (fst r)) = (Some o2, t2, events2) ->
        length (model t2) = length (model (snd (fst r)))).
Proof.
  intros r.
  apply (addObjectCb_then sqrt_double rotation_identity 0%Z cfg_map env_ok
           request_named (tracker_of [cup_far]) (snd (fst r))
           (response_object r) (snd r)).
  - reflexivity.
  - reflexivity.
Defined.

Lemma position_block_unit_covariance (covariance : list double) :
  length covariance = 36 ->
  position_block (unit_covariance covariance) =
    if isZero (position_block covariance) then
      Mat3 fone (m01 (position_block covariance)) (m02 (position_block covariance))
           (m10 (position_block covariance)) fone (m12 (position_block covariance))
           (m20 (position_block covariance)) (m21 (position_block covariance)) fone
    else position_block covariance.
Proof.
  intros Hlen. unfold unit_covariance.
  destruct (isZero (position_block covariance)); [|reflexivity].
  unfold position_block, covariance_entry. cbn [Nat.add Nat.mul m01 m02 m10 m12 m20 m21].
  rewrite !nth_lookup.
  repeat match goal with
         | |- context [<[?i := ?v]> ?l !! ?j] =>
             first [ rewrite (list_lookup_insert_ne l i j v) by lia
                   | rewrite (list_lookup_insert_eq l i v)
                       by (rewrite ?length_insert; lia) ]
         end.
  reflexivity.
Qed.

(** X13. The covariance of the object a create-or-update request writes is
    the 3x3 block of the position of the covariance of the request, with its
    diagonal set to 1 if the block is zero; it is the same whatever the
    transform into the frame of the model and whatever the mapping to the
    next obstacle, neither of which rotates or scales it. *)
Theorem addObjectCb_covariance (fsqrt : double -> double)
  (getRotation : mat3 double -> quat double)
  (initial_state : Z) (cfg : Config) (env : Collaborators)
  (request : AddObjectRequest) (t t' : Tracker) (o : Object) (events : list Event) :
  length (covariance (om_pose (request_object request))) = 36 ->
  addObjectCb fsqrt getRotation initial_state cfg env request t
    = (Some o, t', events) ->
  let block := position_block (covariance (om_pose (request_object request))) in
  o_covariance o =
    if isZero block then
      Mat3 fone (m01 block) (m02 block)
           (m10 block) fone (m12 block)
           (m20 block) (m21 block) fone
    else block.
Proof.
  intros Hlen Hadd block.
  destruct (addObjectCb_Some fsqrt getRotation initial_state cfg env request t t' o
              events Hadd) as (_ & _ & Hcase).
  assert (Hcov : o_covariance o =
            position_block
              (unit_covariance (covariance (om_pose (request_object request))))).
  { destruct (if negb _ then _ else _) as [[i x]|];
      destruct Hcase as (_ & _ & _ & _ & _ & _ & Hcov); exact Hcov. }
  rewrite Hcov. apply position_block_unit_covariance. exact Hlen.
Qed.

Lemma addObjectCb_covariance_witness :
  let r := addObjectCb sqrt_double rotation_identity 0%Z cfg_map env_ok
             request_named (tracker_of [cup_far]) in
  let block :=
    position_block (covariance (om_pose (request_object request_named))) in
  o_covariance (response_object r) =
    if isZero block then
      Mat3 fone (m01 block) (m02 block)
           (m10 block) fone (m12 block)
           (m20 block) (m21 block) fone
    else block.
Proof.
  intros r.
  apply (addObjectCb_covariance sqrt_double rotation_identity 0%Z cfg_map env_ok
           request_named (tracker_of [cup_far]) (snd (fst r)) (response_object r)
           (snd r)).
  - reflexivity.
  - reflexivity.
Defined.

(** ** Invariants of the store *)

Section Invariants.
Variable fsqrt : double -> double.
Variable quaternion_from_euler : double -> double -> double -> quat double.
Variable getRotation : mat3 double -> quat double.
Variable projectPixelTo3dRay : PinholeCameraModel -> double -> double -> vec3 double.
Variable initial_state : Z.
Variable DISCARDED : Z.
Variable auto_id : string -> list Object -> string.
Variable cfg : Config.

Local Abbreviation step_tracker :=
  (step fsqrt quaternion_from_euler getRotation projectPixelTo3dRay initial_state
     DISCARDED auto_id cfg).
Local Abbreviation run_tracker :=
  (run fsqrt quaternion_from_euler getRotation projectPixelTo3dRay initial_state
     DISCARDED auto_id cfg).

Lemma find_correspondence_lookup (info : PerceptInfo) (position : vec3 float)
  (covariance : mat3 float) (objects : list Object) (i : nat) :
  find_correspondence info position covariance objects = Some i ->
  exists x, objects !! i = Some x.
Proof.
  intros Hfind. destruct (empty (object_id info)) eqn:Hid.
  - destruct (find_correspondence_spec info position covariance objects Hid)
      as [[Hnone _]|(k & x & Hsome & Hk & _)]; [congruence|].
    rewrite Hsome in Hfind. injection Hfind as <-. eauto.
  - unfold find_correspondence in Hfind. rewrite Hid in Hfind. discriminate.
Qed.

(** What the locked part of [posePerceptCb] makes of the store: it rewrites
    one object, keeping its identifier and its class, or it appends one;
    the header of this object is in the frame of the model. *)
Lemma fusion_cycle_Updated (percept : PosePercept) (obs : Observation)
  (objects objects' : list Object) (i : nat) :
  fusion_cycle initial_state auto_id cfg percept obs objects = Updated objects' i ->
  exists o',
    objects' !! i = Some o' /\ in_model_frame cfg o' /\
    ((exists x, objects !! i = Some x /\ objects' = <[i := o']> objects /\
                object_key o' = object_key x)
     \/ (i = length objects /\ objects' = objects ++ [o'])).
Proof.
  unfold fusion_cycle.
  destruct (find_correspondence _ _ _ objects) as [j|] eqn:Hfind.
  - destruct (find_correspondence_lookup _ _ _ _ _ Hfind) as [x Hx].
    unfold has_fixed_state. rewrite Hx.
    destruct (o_state x <? 0)%Z; [discriminate|].
    destruct (fgt (to_double (obs_support obs)) fzero);
      rewrite (alter_lookup _ _ _ _ Hx); intros [= <- <-];
      (eexists; split;
       [apply list_lookup_insert_eq; apply lookup_lt_Some in Hx; exact Hx|];
       split; [reflexivity|]; left; exists x; repeat split; assumption).
  - unfold has_fixed_state, add.
    destruct (empty (object_id (pp_info percept))).
    + unfold add_object. rewrite alter_last. intros [= <- <-].
      eexists. split; [apply list_lookup_middle; reflexivity|].
      split; [reflexivity|]. right. split; reflexivity.
    + destruct (getObject _ objects); [discriminate|].
      unfold add_object. rewrite alter_last. intros [= <- <-].
      eexists. split; [apply list_lookup_middle; reflexivity|].
      split; [reflexivity|]. right. split; reflexivity.
Qed.

Lemma verify_keeps (services : list (Object -> option VerifyResponse))
  (request o : Object) :
  object_key (verify DISCARDED services request o) = object_key o
  /\ o_header (verify DISCARDED services request o) = o_header o.
Proof.
  revert o. induction services as [|service rest IH]; intros o; simpl.
  - split; reflexivity.
  - destruct (service request) as [[| |]|].
    + apply IH.
    + destruct (IH (addSupport (of_Z 100) o)) as [-> ->]. split; reflexivity.
    + destruct (IH (setState DISCARDED o)) as [-> ->]. split; reflexivity.
    + apply IH.
Qed.

Lemma posePerceptCb_model (env : Collaborators) (percept : PosePercept)
  (t : Tracker) :
  store_change cfg (model t)
    (model (fst (posePerceptCb fsqrt quaternion_from_euler getRotation
                   initial_state DISCARDED auto_id cfg env percept t))).
Proof.
  unfold posePerceptCb.
  destruct (observe _ _ _ cfg env percept) as [obs|];
    [|apply store_same; reflexivity].
  destruct (fusion_cycle _ _ cfg percept obs (model t)) as [| |objects i] eqn:Hcycle;
    try (apply store_same; reflexivity).
  destruct (fusion_cycle_Updated percept obs (model t) objects i Hcycle)
    as (o' & Hi & Hframe & Hcase).
  rewrite Hi. simpl.
  destruct (verify_keeps (verificationServices env) o' o') as [Hkey Hheader].
  assert (Hframe' : in_model_frame cfg
                      (verify DISCARDED (verificationServices env) o' o')).
  { unfold in_model_frame. rewrite Hheader. exact Hframe. }
  destruct Hcase as [(x & Hx & -> & Hkeep)|[-> ->]].
  - apply (store_rewritten cfg _ _ i x
             (verify DISCARDED (verificationServices env) o' o')).
    + exact Hx.
    + apply list_insert_insert_eq.
    + congruence.
    + intros _. exact Hframe'.
  - apply (store_appended cfg _ _ (verify DISCARDED (verificationServices env) o' o')).
    + replace (length (model t)) with (length (model t) + 0) by lia.
      rewrite insert_app_r. reflexivity.
    + exact Hframe'.
Qed.

(** What a callback other than the reset makes of the store. *)
Lemma step_model (env : Collaborators) (input : Input) (t : Tracker) :
  is_reset input = false ->
  store_change cfg (model t) (model (fst (step_tracker env input t))).
Proof.
  intros Hreset.
  destruct input as [sysCommand|percept|percept|id s|request]; simpl.
  - simpl in Hreset. unfold sysCommandCb. rewrite Hreset.
    apply store_same. reflexivity.
  - unfold imagePerceptCb.
    destruct (get_camera_model percept (cameraModels t)) as [models cameraModel].
    match goal with
    | |- context [posePerceptCb _ _ _ _ _ _ _ _ ?p ?t2] =>
        exact (posePerceptCb_model env p t2)
    end.
  - apply posePerceptCb_model.
  - unfold setObjectStateCb.
    destruct (getObject id (model t)) as [[i x]|] eqn:Hget; simpl.
    + destruct (getObject_Some _ _ _ _ Hget) as [Hi _].
      apply (store_rewritten cfg _ _ i x (setState s x)); auto.
    + apply store_same. reflexivity.
  - destruct (addObjectCb fsqrt getRotation initial_state cfg env request t)
      as [[[o|] t'] events] eqn:Hadd.
    + destruct (addObjectCb_Some fsqrt getRotation initial_state cfg env request
                  t t' o events Hadd) as (_ & _ & Hcase).
      simpl.
      destruct (if negb _ then _ else _) as [[i x]|] eqn:Hfound.
      * destruct Hcase as (Hmodel & Hid & Hclass & _ & _ & Hheader & _).
        assert (Hget : getObject (om_object_id (request_object request)) (model t)
                       = Some (i, x)).
        { destruct (negb _); [exact Hfound | discriminate]. }
        destruct (getObject_Some _ _ _ _ Hget) as [Hi _].
        apply (store_rewritten cfg _ _ i x o); auto.
        -- unfold object_key. congruence.
        -- intros _. unfold in_model_frame. rewrite Hheader. reflexivity.
      * destruct Hcase as (Hmodel & _ & _ & _ & _ & Hheader & _).
        apply (store_appended cfg _ _ o); auto.
        unfold in_model_frame. rewrite Hheader. reflexivity.
    + unfold addObjectCb in Hadd.
      destruct (prepare_pose _ _ cfg env request) as [[pose1 header]|].
      * destruct (if negb _ then _ else _) as [[i x]|]; discriminate.
      * injection Hadd as <- _. apply store_same. reflexivity.
Qed.

Lemma fmap_insert_key (objects : list Object) (i : nat) (x o' : Object) :
  objects !! i = Some x -> object_key o' = object_key x ->
  map object_key (<[i := o']> objects) = map object_key objects.
Proof.
  revert i. induction objects as [|y rest IH]; intros [|i] Hi Hkey; simpl in *;
    try discriminate.
  - injection Hi as ->. rewrite Hkey. reflexivity.
  - f_equal. apply IH; assumption.
Qed.

Lemma store_change_keys (objects objects' : list Object) :
  store_change cfg objects objects' ->
  map object_key objects `prefix_of` map object_key objects'.
Proof.
  intros [->|i x o' Hi -> Hkey _|o' -> _].
  - reflexivity.
  - rewrite (fmap_insert_key _ _ _ _ Hi Hkey). reflexivity.
  - rewrite map_app. apply prefix_app_r. reflexivity.
Qed.

Lemma store_change_frame (objects objects' : list Object) :
  store_change cfg objects objects' ->
  Forall (in_model_frame cfg) objects -> Forall (in_model_frame cfg) objects'.
Proof.
  intros [->|i x o' Hi -> _ Hframe|o' -> Hframe] Hall.
  - exact Hall.
  - apply Forall_insert; [exact Hall|]. apply Hframe.
    exact (proj1 (Forall_lookup _ _) Hall i x Hi).
  - apply Forall_app. split; [exact Hall|]. constructor; [exact Hframe|constructor].
Qed.

(** X14. The tracker never removes, moves or renames an object unless it is
    reset: after any callbacks none of which is the reset command, the
    objects the store held are at their places with their identifiers and
    their classes, the objects made since coming after them. *)
Theorem objects_kept_without_reset (inputs : list (Collaborators * Input))
  (t : Tracker) :
  Forall (fun '(_, input) => is_reset input = false) inputs ->
  map object_key (model t)
    `prefix_of` map object_key (model (fst (run_tracker inputs t))).
Proof.
  revert t. induction inputs as [|[env input] rest IH]; intros t Hall; simpl.
  - reflexivity.
  - apply Forall_cons in Hall. destruct Hall as [Hreset Hrest].
    pose proof (step_model env input t Hreset) as Hstep.
    destruct (step_tracker env input t) as [t1 events1].
    specialize (IH t1 Hrest).
    destruct (run_tracker rest t1) as [t2 events2]. simpl in *.
    etransitivity; [apply store_change_keys; exact Hstep | exact IH].
Qed.

(** X15. Every object the tracker stores is stamped in the frame of the
    model: if the headers of the objects of the store are in the frame
    configured for the model, as they trivially are for the empty store,
    they are after any callbacks. *)
Theorem objects_in_model_frame (inputs : list (Collaborators * Input))
  (t : Tracker) :
  Forall (in_model_frame cfg) (model t) ->
  Forall (in_model_frame cfg) (model (fst (run_tracker inputs t))).
Proof.
  revert t. induction inputs as [|[env input] rest IH]; intros t Hall; simpl.
  - exact Hall.
  - assert (Hstep : Forall (in_model_frame cfg)
                      (model (fst (step_tracker env input t)))).
    { destruct (is_reset input) eqn:Hreset.
      - destruct input as [sysCommand| | | |]; try discriminate.
        simpl in *. unfold sysCommandCb. rewrite Hreset. constructor.
      - apply (store_change_frame (model t)); [|exact Hall].
        apply step_model. exact Hreset. }
    destruct (step_tracker env input t) as [t1 events1].
    specialize (IH t1 Hstep).
    destruct (run_tracker rest t1) as [t2 events2]. simpl in *. exact IH.
Qed.

End Invariants.

(** ** What a callback writes and sends *)

Section Written.
Variable fsqrt : double -> double.
Variable quaternion_from_euler : double -> double -> double -> quat double.
Variable getRotation : mat3 double -> quat double.
Variable projectPixelTo3dRay : PinholeCameraModel -> double -> double -> vec3 double.
Variable initial_state : Z.
Variable DISCARDED : Z.
Variable auto_id : string -> list Object -> string.
Variable cfg : Config.

Local Abbreviation step_tracker :=
  (step fsqrt quaternion_from_euler getRotation projectPixelTo3dRay initial_state
     DISCARDED auto_id cfg).

Lemma lookup_app_other {A : Type} (l : list A) (x : A) (j : nat) :
  j <> length l -> (l ++ [x]) !! j = l !! j.
Proof.
  intros Hj. destruct (Nat.lt_ge_cases j (length l)) as [Hlt|Hge].
  - apply lookup_app_l. exact Hlt.
  - rewrite (proj2 (lookup_ge_None l j)) by lia.
    apply lookup_ge_None. rewrite length_app. simpl. lia.
Qed.

(** [posePerceptCb] returns early and changes nothing, or it sends the
    object that is at the one place of the store it wrote, as it has become
    after the verification, and then the store. *)
Lemma posePerceptCb_writes (env : Collaborators) (percept : PosePercept)
  (t : Tracker) :
  let r := posePerceptCb fsqrt quaternion_from_euler getRotation initial_state
             DISCARDED auto_id cfg env percept t in
  r = (t, []) \/
  exists i o,
    model (fst r) !! i = Some o
    /\ (forall j, j <> i -> model (fst r) !! j = model t !! j)
    /\ snd r = Publish_object o :: publishModel (model (fst r)).
Proof.
  unfold posePerceptCb.
  destruct (observe _ _ _ cfg env percept) as [obs|]; [|left; reflexivity].
  destruct (fusion_cycle _ _ cfg percept obs (model t)) as [| |objects i] eqn:Hcycle;
    try (left; reflexivity).
  destruct (fusion_cycle_Updated initial_state auto_id cfg percept obs (model t)
              objects i Hcycle) as (o' & Hi & _ & Hcase).
  rewrite Hi. right. cbn [fst snd model].
  exists i, (verify DISCARDED (verificationServices env) o' o').
  split; [apply list_lookup_insert_eq; apply lookup_lt_Some in Hi; exact Hi|].
  split; [|reflexivity].
  intros j Hj. rewrite list_lookup_insert_ne by congruence.
  destruct Hcase as [(x & Hx & -> & _)|[-> ->]].
  - apply list_lookup_insert_ne. congruence.
  - apply lookup_app_other. exact Hj.
Qed.

Lemma step_writes (env : Collaborators) (input : Input) (t : Tracker) :
  let r := step_tracker env input t in
  (snd r = [] /\ (is_reset input = false -> model (fst r) = model t))
  \/ exists i o,
       model (fst r) !! i = Some o
       /\ (forall j, j <> i -> model (fst r) !! j = model t !! j)
       /\ snd r = Publish_object o :: publishModel (model (fst r)).
Proof.
  destruct input as [sysCommand|percept|percept|id s|request]; simpl.
  - left. unfold sysCommandCb. destruct (String.eqb sysCommand "reset");
      split; try reflexivity. discriminate.
  - unfold imagePerceptCb.
    destruct (get_camera_model percept (cameraModels t)) as [models cameraModel].
    match goal with
    | |- context [posePerceptCb _ _ _ _ _ _ _ _ ?p ?t'] =>
        destruct (posePerceptCb_writes env p t') as [Heq|Hpub]
    end.
    + left. rewrite Heq. split; reflexivity.
    + right. exact Hpub.
  - destruct (posePerceptCb_writes env percept t) as [Heq|Hpub].
    + left. rewrite Heq. split; reflexivity.
    + right. exact Hpub.
  - unfold setObjectStateCb.
    destruct (getObject id (model t)) as [[i x]|] eqn:Hget.
    + right. destruct (getObject_Some _ _ _ _ Hget) as [Hi _].
      exists i, (setState s x). cbn [fst snd model].
      split; [apply list_lookup_insert_eq; apply lookup_lt_Some in Hi; exact Hi|].
      split; [|reflexivity].
      intros j Hj. apply list_lookup_insert_ne. congruence.
    + left. split; reflexivity.
  - destruct (addObjectCb fsqrt getRotation initial_state cfg env request t)
      as [[[o|] t'] events] eqn:Hadd.
    + right.
      destruct (addObjectCb_Some fsqrt getRotation initial_state cfg env request
                  t t' o events Hadd) as (_ & Hevents & Hcase).
      cbn [fst snd].
      destruct (if negb _ then _ else _) as [[i x]|] eqn:Hfound.
      * destruct Hcase as (Hmodel & _).
        assert (Hget : getObject (om_object_id (request_object request)) (model t)
                       = Some (i, x)).
        { destruct (negb _); [exact Hfound | discriminate]. }
        destruct (getObject_Some _ _ _ _ Hget) as [Hi _].
        exists i, o. rewrite Hmodel.
        split; [apply list_lookup_insert_eq; apply lookup_lt_Some in Hi; exact Hi|].
        split; [|rewrite <- Hmodel; exact Hevents].
        intros j Hj. apply list_lookup_insert_ne. congruence.
      * destruct Hcase as (Hmodel & _).
        exists (length (model t)), o. rewrite Hmodel.
        split; [apply list_lookup_middle; reflexivity|].
        split; [|rewrite <- Hmodel; exact Hevents].
        intros j Hj. apply lookup_app_other. exact Hj.
    + left. unfold addObjectCb in Hadd.
      destruct (prepare_pose _ _ cfg env request) as [[pose1 header]|].
      * destruct (if negb _ then _ else _) as [[i x]|]; discriminate.
      * injection Hadd as <- <-. split; reflexivity.
Qed.

(** X6. Every change of the store by a percept, by a change of state or by
    a create-or-update request is published: a callback other than the
    reset that leaves another store than it found has written one place of
    the store, every other place holding what it held, and it sends the
    object that is now at this place and then the new store on the topic of
    the model. *)
Theorem change_is_published (env : Collaborators) (input : Input) (t : Tracker) :
  is_reset input = false ->
  model (fst (step_tracker env input t)) <> model t ->
  exists i o,
    model (fst (step_tracker env input t)) !! i = Some o
    /\ (forall j, j <> i ->
        model (fst (step_tracker env input t)) !! j = model t !! j)
    /\ snd (step_tracker env input t) =
         Publish_object o :: publishModel (model (fst (step_tracker env input t)))
    /\ Publish_model (model (fst (step_tracker env input t)))
         ∈ snd (step_tracker env input t).
Proof.
  intros Hreset Hchange.
  destruct (step_writes env input t) as [[_ Hsame]|(i & o & Hi & Hother & Hpub)].
  - exfalso. apply Hchange. exact (Hsame Hreset).
  - exists i, o. split; [exact Hi|]. split; [exact Hother|].
    split; [exact Hpub|]. rewrite Hpub.
    apply elem_of_cons. right. unfold publishModel. apply elem_of_cons. left.
    reflexivity.
Qed.

End Written.

Lemma change_is_published_witness :
  exists i o,
    model (fst (step sqrt_double euler_zero rotation_identity ray_axis 0%Z (-2)%Z
                  number_id cfg_map env_ok (SetObjectState "cup_0" 2%Z)
                  (tracker_of [cup_far; cup_0]))) !! i = Some o
    /\ (forall j, j <> i ->
        model (fst (step sqrt_double euler_zero rotation_identity ray_axis 0%Z
                      (-2)%Z number_id cfg_map env_ok (SetObjectState "cup_0" 2%Z)
                      (tracker_of [cup_far; cup_0]))) !! j
        = model (tracker_of [cup_far; cup_0]) !! j)
    /\ snd (step sqrt_double euler_zero rotation_identity ray_axis 0%Z (-2)%Z
              number_id cfg_map env_ok (SetObjectState "cup_0" 2%Z)
              (tracker_of [cup_far; cup_0])) =
         Publish_object o :: publishModel [cup_far; setState 2%Z cup_0]
    /\ Publish_model [cup_far; setState 2%Z cup_0]
         ∈ snd (step sqrt_double euler_zero rotation_identity ray_axis 0%Z (-2)%Z
                  number_id cfg_map env_ok (SetObjectState "cup_0" 2%Z)
                  (tracker_of [cup_far; cup_0])).
Proof.
  apply (change_is_published sqrt_double euler_zero rotation_identity ray_axis
           0%Z (-2)%Z number_id cfg_map env_ok (SetObjectState "cup_0" 2%Z)
           (tracker_of [cup_far; cup_0])).
  - reflexivity.
  - simpl. intros H. discriminate H.
Defined.

(** ** Ties of the association *)

Lemma flt_below (a b c : float) :
  flt a b = true -> flt c b = false -> flt c fone = true -> flt a c = true.
Proof. apply SFltb_below. Qed.

Lemma scan_app (class_id : string) (position : vec3 float) (covariance : mat3 float)
  (l1 l2 : list Object) :
  forall (i : nat) (object : option nat) (min_distance : float),
    scan class_id position covariance (l1 ++ l2) i object min_distance =
      scan class_id position covariance l2 (i + length l1)
        (fst (scan class_id position covariance l1 i object min_distance))
        (snd (scan class_id position covariance l1 i object min_distance)).
Proof.
  induction l1 as [|x l1 IH]; intros i object min_distance; simpl.
  - replace (i + 0) with i by lia. reflexivity.
  - replace (i + S (length l1)) with (S i + length l1) by lia.
    destruct (excluded class_id x); [apply IH|].
    destruct (flt _ min_distance); apply IH.
Qed.

(** The scan from the place [i] on returns the object it was started with
    or one of a place from [i] on. *)
Lemma scan_index (class_id : string) (position : vec3 float) (covariance : mat3 float)
  (objects : list Object) (i : nat) (object : option nat) (min_distance : float)
  (j : nat) :
  fst (scan class_id position covariance objects i object min_distance) = Some j ->
  object = Some j \/ i <= j.
Proof.
  destruct (scan_spec class_id position covariance objects i object min_distance)
    as [[-> _]|(k & x & -> & _)]; simpl.
  - intros ->. left. reflexivity.
  - intros [= <-]. right. lia.
Qed.

(** X16. Among candidates at the same distance the association takes the
    first of the store: every candidate that comes before the object the
    association returns, and is within the gate, is strictly farther from
    the observation than this object. *)
Theorem association_takes_first (info : PerceptInfo) (position : vec3 float)
  (covariance : mat3 float) (objects : list Object) (i : nat) :
  find_correspondence info position covariance objects = Some i ->
  exists x,
    objects !! i = Some x /\
    forall j y,
      j < i -> objects !! j = Some y ->
      excluded (class_id info) y = false ->
      flt (mahalanobis position covariance y) fone = true ->
      flt (mahalanobis position covariance x) (mahalanobis position covariance y)
        = true.
Proof.
  intros Hfind.
  destruct (find_correspondence_lookup info position covariance objects i Hfind)
    as [x Hx].
  exists x. split; [exact Hx|]. intros j y Hj Hy Hcandidate Hgate.
  unfold find_correspondence in Hfind.
  destruct (empty (object_id info)); [|discriminate].
  rewrite <- (take_drop_middle objects i x Hx) in Hfind.
  rewrite scan_app in Hfind.
  assert (Hlen : length (take i objects) = i).
  { apply length_take_le. apply lookup_lt_Some in Hx. lia. }
  rewrite Hlen in Hfind. simpl Nat.add in Hfind.
  assert (Hin : y ∈ take i objects).
  { apply list_elem_of_lookup. exists j. rewrite lookup_take_lt by exact Hj.
    exact Hy. }
  assert (Hcy : negb (excluded (class_id info) y) = true)
    by (rewrite Hcandidate; reflexivity).
  destruct (scan_spec (class_id info) position covariance (take i objects) 0 None
              fone) as [[Hpre Hall]|(k & x' & Hpre & Hk & _ & Hlt' & Hmin)].
  - exfalso. specialize (Hall y Hin Hcy). congruence.
  - rewrite Hpre in Hfind. simpl fst in Hfind. simpl snd in Hfind.
    assert (Hki : k < i).
    { apply lookup_lt_Some in Hk. rewrite Hlen in Hk. exact Hk. }
    assert (Hselected :
              flt (mahalanobis position covariance x)
                (mahalanobis position covariance x') = true).
    { simpl in Hfind.
      destruct (excluded (class_id info) x).
      - apply scan_index in Hfind. destruct Hfind as [[= ?]|?]; lia.
      - destruct (flt (mahalanobis position covariance x)
                    (mahalanobis position covariance x')); [reflexivity|].
        apply scan_index in Hfind. destruct Hfind as [[= ?]|?]; lia. }
    apply (flt_below _ (mahalanobis position covariance x')).
    + exact Hselected.
    + exact (Hmin y Hin Hcy).
    + exact Hgate.
Qed.

Lemma association_takes_first_witness :
  exists x,
    [cup_near; cup_0] !! 1 = Some x /\
    forall j y,
      j < 1 -> [cup_near; cup_0] !! j = Some y ->
      excluded (class_id (pp_info percept_cup)) y = false ->
      flt (mahalanobis (obs_position obs_cup) (obs_covariance obs_cup) y) fone
        = true ->
      flt (mahalanobis (obs_position obs_cup) (obs_covariance obs_cup) x)
        (mahalanobis (obs_position obs_cup) (obs_covariance obs_cup) y) = true.
Proof.
  apply (association_takes_first (pp_info percept_cup) (obs_position obs_cup)
           (obs_covariance obs_cup) [cup_near; cup_0] 1).
  vm_compute. reflexivity.
Defined.

Lemma objects_kept_without_reset_witness :
  map object_key [cup_0]
    `prefix_of`
    map object_key
      (model (fst (run sqrt_double euler_zero rotation_identity ray_axis 0%Z (-2)%Z
                     number_id cfg_map
                     [(env_ok, AddObject (request_cup false));
                      (env_ok, SetObjectState "cup_0" 2%Z);
                      (env_ok, SysCommand "pause")]
                     (tracker_of [cup_0])))).
Proof.
  apply (objects_kept_without_reset sqrt_double euler_zero rotation_identity ray_axis
           0%Z (-2)%Z number_id cfg_map
           [(env_ok, AddObject (request_cup false));
            (env_ok, SetObjectState "cup_0" 2%Z);
            (env_ok, SysCommand "pause")]
           (tracker_of [cup_0])).
  repeat constructor.
Defined.

Lemma objects_in_model_frame_witness :
  Forall (in_model_frame cfg_map)
    (model (fst (run sqrt_double euler_zero rotation_identity ray_axis 0%Z (-2)%Z
                   number_id cfg_map
                   [(env_ok, AddObject (request_cup false));
                    (env_ok, PosePerceptIn percept_camera)]
                   (tracker_of [cup_0])))).
Proof.
  apply (objects_in_model_frame sqrt_double euler_zero rotation_identity ray_axis
           0%Z (-2)%Z number_id cfg_map
           [(env_ok, AddObject (request_cup false));
            (env_ok, PosePerceptIn percept_camera)]
           (tracker_of [cup_0])).
  repeat constructor.
Defined.

(** * Properties of odometry_to_tf *)

Section SameNumber.
Context {f : format}.
Implicit Types a b z : fp f.

Lemma same_number_refl a : same_number a a.
Proof. left. reflexivity. Qed.

Lemma fadd_zero_r_same a z : is_zero z = true -> same_number (fadd a z) a.
Proof.
  destruct a as [[sa|sa| |sa ma ea]], z as [[sz|sz| |sz mz ez]]; try discriminate;
    intros _; try (left; reflexivity).
  right. destruct sa, sz; split; reflexivity.
Qed.

Lemma fadd_zero_l_same a z : is_zero z = true -> same_number (fadd z a) a.
Proof.
  destruct a as [[sa|sa| |sa ma ea]], z as [[sz|sz| |sz mz ez]]; try discriminate;
    intros _; try (left; reflexivity).
  right. destruct sa, sz; split; reflexivity.
Qed.

Lemma fadd_zeros : is_zero (fadd (fzero : fp f) fzero) = true.
Proof. reflexivity. Qed.

Lemma same_number_trans a b c : same_number a b -> same_number b c -> same_number a c.
Proof.
  intros [->|[Ha Hb]] [->|[Hb' Hc]].
  - left. reflexivity.
  - right. split; assumption.
  - right. split; assumption.
  - right. split; assumption.
Qed.

End SameNumber.

Section Chain.
Variable getRotation : mat3 double -> quat double.
Variable getEulerYPR : mat3 double -> double * double * double.
Variable createQuaternionFromRPY : double -> double -> double -> quat double.

Local Abbreviation send :=
  (sendTransform getRotation getEulerYPR createQuaternionFromRPY).

(** X17. The transforms [sendTransform] broadcasts form a chain: there are
    one, two or three of them, the first starts in the frame of the header,
    or in the configured frame if there is one, each next one starts in the
    frame the one before it ends in, the last ends in the child frame (the
    configured one, else the one given, else base_link), and all carry the
    time of the header. *)
Theorem sendTransform_chain (g : Params) (pose : Pose) (header : Header)
  (child_frame_id : string) :
  let transforms := send g pose header child_frame_id in
  linked (chain_frame g header) (chain_child g child_frame_id) transforms
  /\ 1 <= length transforms <= 3
  /\ Forall (fun t => stamp (ts_header t) = stamp header) transforms.
Proof.
  unfold sendTransform, chain_frame, chain_child, addTransform,
    transformStampedTFToMsg.
  destruct (getEulerYPR _) as [[yaw pitch] roll].
  destruct (empty (g_frame_id g)), (empty (g_child_frame_id g)) eqn:Hchild;
    cbn [negb]; rewrite ?Hchild;
    destruct (negb (empty (g_footprint_frame_id g)) && negb (String.eqb _ _));
    destruct (negb (empty (g_footprint_frame_id g)) && negb (String.eqb _ _));
    simpl; repeat split; try lia; repeat constructor.
Qed.

(** X18. The chain carries the position of the pose once: the translations
    of the transforms [sendTransform] broadcasts add up to the position,
    whichever of the intermediate transforms are sent.  The sum is the
    position but for the sign of a zero: adding the zeros of the other
    transforms turns a negative zero into the positive one. *)
Theorem sendTransform_translation (g : Params) (pose : Pose) (header : Header)
  (child_frame_id : string) :
  same_vector (total_translation (send g pose header child_frame_id))
    (position pose).
Proof.
  unfold sendTransform, addTransform, transformStampedTFToMsg, total_translation.
  destruct (getEulerYPR _) as [[yaw pitch] roll].
  destruct pose as [[x y z] q]. cbn [position orientation vx vy vz].
  pose proof (fadd_zeros (f := binary64)) as H00.
  assert (H000 : is_zero (fadd (fzero : double) (fadd fzero fzero)) = true)
    by reflexivity.
  destruct (negb (empty (g_footprint_frame_id g)) && negb (String.eqb _ _));
    destruct (negb (empty (g_footprint_frame_id g)) && negb (String.eqb _ _));
    unfold vadd, same_vector;
    cbn [foldr app vx vy vz translation origin st_transform aadd fp_arith];
    repeat split;
    repeat first
      [ apply same_number_refl
      | apply fadd_zero_r_same; first [reflexivity | assumption]
      | apply fadd_zero_l_same; reflexivity
      | eapply same_number_trans;
        [apply fadd_zero_l_same; reflexivity|] ].
Qed.

(** X19. Both intermediate transforms hang on the footprint frame: with an
    empty footprint frame, [sendTransform] broadcasts the single transform
    of the pose, from the frame to the child frame, whatever the stabilized
    frame is. *)
Theorem sendTransform_without_footprint (g : Params) (pose : Pose)
  (header : Header) (child_frame_id : string) :
  empty (g_footprint_frame_id g) = true ->
  exists t,
    send g pose header child_frame_id = [t]
    /\ frame_id (ts_header t) = chain_frame g header
    /\ ts_child_frame_id t = chain_child g child_frame_id
    /\ translation t = position pose.
Proof.
  intros Hempty.
  unfold sendTransform, chain_frame, chain_child, addTransform,
    transformStampedTFToMsg.
  destruct (getEulerYPR _) as [[yaw pitch] roll].
  rewrite Hempty. cbn [negb andb app].
  destruct (empty (g_frame_id g)), (empty (g_child_frame_id g)) eqn:Hchild;
    cbn [negb]; rewrite ?Hchild;
    (eexists; split; [reflexivity|]; repeat split).
Qed.

End Chain.

Lemma sendTransform_without_footprint_witness :
  exists t,
    sendTransform rotation_identity euler_of_identity quaternion_of_zero
      params_no_footprint pose_robot header_map "base_link" = [t]
    /\ frame_id (ts_header t) = chain_frame params_no_footprint header_map
    /\ ts_child_frame_id t = chain_child params_no_footprint "base_link"
    /\ translation t = position pose_robot.
Proof.
  apply (sendTransform_without_footprint rotation_identity euler_of_identity
           quaternion_of_zero params_no_footprint pose_robot header_map "base_link").
  reflexivity.
Defined.

(** The chain of the default parameters: from the frame of the pose to the
    footprint, to the stabilized frame, to base_link. *)
Example sendTransform_default :
  map (fun t => (frame_id (ts_header t), ts_child_frame_id t))
    (sendTransform rotation_identity euler_of_identity quaternion_of_zero
       params_default pose_robot header_map "")
  = [("map", "base_footprint"); ("base_footprint", "base_stabilized");
     ("base_stabilized", "base_link")].
Proof. reflexivity. Qed.

(** * The reset and the cache of camera models *)

(** X20. The reset is total, and only the command "reset" resets: after it
    the store is empty, no identifier is found, a change of state of any
    identifier is answered with [false] and changes nothing, and the cache
    of camera models is the one before; any other command leaves the tracker
    as it is. *)
Theorem reset_is_total (sysCommand id : string) (new_state : Z) (t : Tracker) :
  let t' := fst (sysCommandCb "reset" t) in
  model t' = []
  /\ getObject id (model t') = None
  /\ setObjectStateCb id new_state t' = (false, t', [])
  /\ cameraModels t' = cameraModels t
  /\ (sysCommand <> "reset" -> sysCommandCb sysCommand t = (t, [])).
Proof.
  repeat split. intros Hne. unfold sysCommandCb.
  destruct (String.eqb_spec sysCommand "reset") as [Heq|_];
    [contradiction | reflexivity].
Qed.

Section ImageIgnored.
Variable fsqrt : double -> double.
Variable quaternion_from_euler : double -> double -> double -> quat double.
Variable getRotation : mat3 double -> quat double.
Variable projectPixelTo3dRay : PinholeCameraModel -> double -> double -> vec3 double.
Variable initial_state : Z.
Variable DISCARDED : Z.
Variable auto_id : string -> list Object -> string.

(** X21. An image percept without support, naming neither a class nor an
    object or with a support of zero, changes no object and publishes
    nothing, but it still fills the cache of camera models: afterwards the
    cache holds a camera model for the frame of the percept, the one it
    held before or else the one made of the calibration of this percept. *)
Theorem unsupported_image_percept (cfg : Config) (env : Collaborators)
  (percept : ImagePercept) (t : Tracker) :
  (empty (object_id (ip_info percept)) = true /\
   empty (class_id (ip_info percept)) = true)
  \/ (empty (object_id (ip_info percept)) = false /\
      feqb (to_double (object_support (ip_info percept))) fzero = true)
  \/ (empty (object_id (ip_info percept)) = true /\
      feqb (to_double (class_support (ip_info percept))) fzero = true) ->
  let r := imagePerceptCb fsqrt quaternion_from_euler getRotation
             projectPixelTo3dRay initial_state DISCARDED auto_id cfg env percept t in
  model (fst r) = model t
  /\ snd r = []
  /\ cameraModels (fst r) !! frame_id (ip_header percept) =
       Some (default (fromCameraInfo uninitialized_camera (camera_info percept))
               (cameraModels t !! frame_id (ip_header percept))).
Proof.
  intros H. unfold imagePerceptCb, get_camera_model.
  destruct (cameraModels t !! frame_id (ip_header percept)) as [m|] eqn:Hm;
    cbn [default];
    (rewrite posePerceptCb_not_observed by (apply observe_unsupported; exact H));
    cbn [fst snd model cameraModels]; repeat split.
  - exact Hm.
  - apply lookup_insert_eq.
Qed.

End ImageIgnored.

Lemma unsupported_image_percept_witness :
  let r := imagePerceptCb sqrt_double euler_zero rotation_identity ray_axis 0%Z
             (-2)%Z number_id cfg_map env_ok image_unsupported
             (tracker_of [cup_0]) in
  model (fst r) = [cup_0]
  /\ snd r = []
  /\ cameraModels (fst r) !! "camera" =
       Some (default (fromCameraInfo uninitialized_camera
                        (camera_info image_unsupported))
               (cameraModels (tracker_of [cup_0]) !! "camera")).
Proof.
  apply (unsupported_image_percept sqrt_double euler_zero rotation_identity ray_axis
           0%Z (-2)%Z number_id cfg_map env_ok image_unsupported
           (tracker_of [cup_0])).
  left. split; reflexivity.
Defined.
